(** * Merge-and-export pipeline of the dijet analysis macros

    A shallow embedding of the three ROOT macros [mergetuple.C],
    [mergemacro.C] and [drawTuple.C], together with the part of the ROOT
    object store they rely on (files, keys, in-memory object lists,
    [TH1::Add]), and the properties of the merged artifacts; and of the
    event loop of the generator [pythia.C], which fills the table the
    macros merge and export. *)

From Stdlib Require Import ZArith List Bool Lia.
From Stdlib Require Import Floats.SpecFloat.
From Stdlib Require Import DecimalString.
From stdpp Require Import gmap strings list fin_maps.

Local Open Scope Z_scope.

(* ===================================================================== *)
(** * Numbers as the macros have them *)
(* ===================================================================== *)

(** [Float_t] and [Double_t] values are IEEE-754 binary32 and binary64
    numbers, given by their sign, mantissa and exponent. *)
Abbreviation Float_t := spec_float.
Abbreviation Double_t := spec_float.

Definition INT_MAX : Z := 2147483647.
Definition INT_MIN : Z := -2147483648.

(** Addition in double precision ([Double_t] storage) and in single
    precision ([Float_t] storage). *)
Definition dadd (x y : Double_t) : Double_t := SFadd 53 1024 x y.
Definition fadd (x y : Float_t) : Float_t := SFadd 24 128 x y.

(** [Float_t(w)]: a double rounded to the nearest single. *)
Definition to_Float_t (w : Double_t) : Float_t :=
  match w with
  | S754_finite s m e => binary_normalize 24 128 (cond_Zopp s (Zpos m)) e s
  | _ => w
  end.

(** The single nearest to the decimal [num / den] (both exactly
    representable), as a literal such as [123.456f] denotes it. *)
Definition float_lit (num den : Z) : Float_t :=
  SFdiv 24 128 (binary_normalize 24 128 num 0 false)
               (binary_normalize 24 128 den 0 false).

(** The integer part of a finite value, rounding toward zero. *)
Definition Ztrunc (x : spec_float) : option Z :=
  match x with
  | S754_zero _ => Some 0
  | S754_finite s m e =>
      Some (cond_Zopp s
             match e with
             | Zneg p => Zpos m / 2 ^ Zpos p
             | _ => Zpos m * 2 ^ e
             end)
  | _ => None
  end.

(** [(int)x] for a float [x]: truncation toward zero.  Where the truncated
    value does not fit an [int] (or [x] is not finite) the C++ standard
    leaves the conversion undefined; the x86-64 conversion instruction
    then yields the "integer indefinite" value [INT_MIN]. *)
Definition int_of_float (x : Float_t) : Z :=
  match Ztrunc x with
  | Some z => if (INT_MIN <=? z) && (z <=? INT_MAX) then z else INT_MIN
  | None => INT_MIN
  end.

(* ===================================================================== *)
(** * Formatted output *)
(* ===================================================================== *)

(** [operator<<] on an integer, and [std::to_string] / [%d]. *)
Definition dec (z : Z) : string := NilZero.string_of_int (Z.to_int z).

Definition round_half_even (num den : Z) : Z :=
  let q := num / den in
  match (2 * (num mod den)) ?= den with
  | Lt => q
  | Eq => if Z.even q then q else q + 1
  | Gt => q + 1
  end.

(** [|x| * 100] rounded to the nearest integer (ties to even), computed on
    the exact binary value [m * 2^e]. *)
Definition hundredths (m : positive) (e : Z) : Z :=
  match e with
  | Zneg p => round_half_even (Zpos m * 100) (2 ^ Zpos p)
  | _ => Zpos m * 100 * 2 ^ e
  end.

Definition sign_str (s : bool) : string := if s then "-" else "".

(** [os << fixed << setprecision(2) << x]: the value is widened to double
    (exactly) and printed as by [%.2f].  [spec_float] has a single
    not-a-number, written [nan] here; the C library writes [-nan] for one
    whose sign bit is set. *)
Definition put_fixed2 (x : spec_float) : string :=
  match x with
  | S754_nan => "nan"
  | S754_infinity s => sign_str s +:+ "inf"
  | S754_zero s => sign_str s +:+ "0.00"
  | S754_finite s m e =>
      let q := hundredths m e in
      sign_str s +:+ dec (q / 100) +:+ "." +:+ dec (q mod 100 / 10) +:+ dec (q mod 10)
  end.

(** The newline written by [endl]. *)
Definition endl : string := String (Ascii.ascii_of_nat 10) EmptyString.

(* ===================================================================== *)
(** * The ROOT object store *)
(* ===================================================================== *)

(** One row of the dijet ntuple: the ten [float] branches, in the order of
    the variable list
    [eventNum:dijetMass:leadingJetPt:subleadingJetPt:deltaPhi:deltaEta:x1:x2:parton1Id:parton2Id].
    Every table of the pipeline is created with this variable list, and the
    macros bind each branch by its name to the local of the same name. *)
Record Row := mkRow {
  eventNum : Float_t;
  dijetMass : Float_t;
  leadingJetPt : Float_t;
  subleadingJetPt : Float_t;
  deltaPhi : Float_t;
  deltaEta : Float_t;
  x1 : Float_t;
  x2 : Float_t;
  parton1Id : Float_t;
  parton2Id : Float_t
}.

(** A histogram, as far as merging is concerned: its class name (which
    fixes the storage precision of the cells), the bin edges of each axis,
    the cell contents (underflow and overflow included) and the entry
    count.  The statistics and the sums of squared weights are accumulated
    by [TH1::Add] in the same cell-wise way. *)
Record TH1 := mkTH1 {
  h_class : string;
  h_axes : list (list Double_t);
  h_cells : list Double_t;
  h_entries : Double_t
}.

Inductive TObject :=
| ObjTH1 (h : TH1)
| ObjNtuple (rows : list Row)
| ObjOther.

(** A key of a file's directory.  The name of a key is the name of the
    object it stores; [key_class] is the class name recorded in the key;
    [key_readable] is false when [TKey::ReadObj] cannot rebuild the object
    (it then returns a null pointer). *)
Record TKey := mkKey {
  key_name : string;
  key_class : string;
  key_obj : TObject;
  key_readable : bool
}.

(** An open file: the keys read from disk ([fKeys]) and the objects
    attached to the directory in memory ([fList]), at most one per name. *)
Record TFile := mkTFile {
  fKeys : list TKey;
  fList : gmap string TObject
}.

(** What can end a macro before its last statement: behaviour the C++
    standard leaves undefined (in practice a crash), and calls into the
    library whose effect is left out of this model. *)
Inductive Fault :=
| NullDeref        (* member call through a null pointer *)
| BadCast          (* use of an object through a pointer of another class *)
| OutOfBounds      (* [operator[]] past the end of a vector *)
| SignedOverflow   (* [i++] on [INT_MAX] *)
| Inconsistent.    (* [TH1::Add] on histograms of different binning *)

Inductive Outcome (A : Type) :=
| Done (a : A)
| Abort (f : Fault).
Arguments Done {A} a.
Arguments Abort {A} f.

(** The world outside the macro: ROOT files and text files by name, and
    the lines the macro writes to the two standard streams (the messages
    the library prints on its own are not recorded). *)
Record World := mkWorld {
  root_files : gmap string (list TKey);
  text_files : gmap string string;
  cerr : list string;
  cout : list string
}.

(** A macro step: it changes the world and ends normally or not. *)
Definition M (A : Type) : Type := World -> World * Outcome A.

Definition ret {A} (a : A) : M A := fun w => (w, Done a).

Definition bind {A B} (m : M A) (k : A -> M B) : M B :=
  fun w =>
    match m w with
    | (w', Done a) => k a w'
    | (w', Abort f) => (w', Abort f)
    end.

Definition abort {A} (f : Fault) : M A := fun w => (w, Abort f).

Notation "x <- m ;; k" := (bind m (fun x => k))
  (at level 100, m at next level, right associativity).
Notation "m ;;; k" := (bind m (fun _ => k))
  (at level 100, right associativity).

(* ===================================================================== *)
(** * Library calls *)
(* ===================================================================== *)

Definition with_root_file (name : string) (keys : list TKey) (w : World) : World :=
  mkWorld (<[name := keys]> (root_files w)) (text_files w) (cerr w) (cout w).

Definition with_text_file (name : string) (content : string) (w : World) : World :=
  mkWorld (root_files w) (<[name := content]> (text_files w)) (cerr w) (cout w).

Definition with_cerr (lines : list string) (w : World) : World :=
  mkWorld (root_files w) (text_files w) (cerr w ++ lines) (cout w).

Definition with_cout (lines : list string) (w : World) : World :=
  mkWorld (root_files w) (text_files w) (cerr w) (cout w ++ lines).

(** [std::cerr << ... << std::endl] and [cout << ... << endl]: one line. *)
Definition cerr_line (s : string) : M unit :=
  fun w => (with_cerr [s] w, Done tt).

Definition cout_line (s : string) : M unit :=
  fun w => (with_cout [s] w, Done tt).

(** [TFile(name, "RECREATE")]: the file is created, or truncated when it
    exists already.  [TFile_commit] is what [Close] leaves on disk: the
    keys written since. *)
Definition TFile_recreate (name : string) : M unit :=
  fun w => (with_root_file name [] w, Done tt).

Definition TFile_commit (name : string) (keys : list TKey) : M unit :=
  fun w => (with_root_file name keys w, Done tt).

(** [ofstream csvFile(name)] truncates or creates the text file; at
    [close] it holds what was streamed into it. *)
Definition ofstream_open (name : string) : M unit :=
  fun w => (with_text_file name "" w, Done tt).

Definition ofstream_close (name : string) (content : string) : M unit :=
  fun w => (with_text_file name content w, Done tt).

(** [TFile::Open(name)]: a null pointer when the file cannot be opened. *)
Definition TFile_Open (name : string) : M (option TFile) :=
  fun w => (w, Done ((fun keys => mkTFile keys ∅) <$> root_files w !! name)).

(** [new TFile(name, "READ")]: always an object; a zombie without keys
    when the file cannot be opened. *)
Definition TFile_new (name : string) : M TFile :=
  fun w => (w, Done (mkTFile (default [] (root_files w !! name)) ∅)).

(** Histograms and trees attach themselves to the directory they are read
    into. *)
Definition auto_add (o : TObject) : bool :=
  match o with
  | ObjTH1 _ | ObjNtuple _ => true
  | ObjOther => false
  end.

Definition find_key (name : string) (keys : list TKey) : option TKey :=
  List.find (fun k => String.eqb (key_name k) name) keys.

(** [file->Get(name)]: the object of that name already in memory, if any;
    otherwise the object read from the first key of that name (the
    highest cycle), which may fail.  Null is [None]. *)
Definition TFile_Get (file : TFile) (name : string) : option TObject * TFile :=
  match fList file !! name with
  | Some o => (Some o, file)
  | None =>
      match find_key name (fKeys file) with
      | Some k =>
          if key_readable k then
            (Some (key_obj k),
             if auto_add (key_obj k)
             then mkTFile (fKeys file) (<[name := key_obj k]> (fList file))
             else file)
          else (None, file)
      | None => (None, file)
      end
  end.

(** [TDirectoryFile::AppendKey]: a key of a new name goes to the end of
    the list, a further cycle of a name goes before the earlier one. *)
Fixpoint AppendKey (k : TKey) (keys : list TKey) : list TKey :=
  match keys with
  | [] => [k]
  | k' :: rest =>
      if String.eqb (key_name k') (key_name k) then k :: k' :: rest
      else k' :: AppendKey k rest
  end.

(** The C-style casts [(TH1* )] and [(TH2D* )] of what [Get] returns: null
    stays null, and the pointer is used as a histogram right after, which
    is undefined for an object of another class. *)
Definition cast_TH1 (o : option TObject) : M (option TH1) :=
  match o with
  | None => ret None
  | Some (ObjTH1 h) => ret (Some h)
  | Some _ => abort BadCast
  end.

#[global] Instance spec_float_eq_dec : EqDecision spec_float.
Proof. solve_decision. Defined.

(** The test [className != "TH1F" && className != "TH1D" && className != "TH2D"]
    of [mergemacro]: true for every class but the three. *)
Definition not_histogram (className : string) : bool :=
  negb (String.eqb className "TH1F") && negb (String.eqb className "TH1D")
  && negb (String.eqb className "TH2D").

(** [AddBinContent(bin, w)] in the storage of the accumulator's class:
    single precision for [TH1F], double precision for [TH1D] and [TH2D]. *)
Definition cell_add (class : string) (c w : Double_t) : Double_t :=
  if String.eqb class "TH1F" then fadd c (to_Float_t w) else dadd c w.

(** The cell-wise sum of two histograms of the same binning, kept in the
    first: cells and entry counts are added. *)
Definition TH1_sum (acc h : TH1) : TH1 :=
  mkTH1 (h_class acc) (h_axes acc)
        (zip_with (cell_add (h_class acc)) (h_cells acc) (h_cells h))
        (SFabs (dadd (h_entries acc) (h_entries h))).

(** Where [acc->Add(h)] is the cell-wise sum: the accumulator is of one of
    the three classes, and the two have the same axes and cell count. *)
Definition addable (acc h : TH1) : bool :=
  negb (not_histogram (h_class acc))
  && bool_decide (h_axes acc = h_axes h)
  && (length (h_cells acc) =? length (h_cells h))%nat.

(** [acc->Add(h)] with the default coefficient 1.  [None] where the
    library's behaviour is not modelled (different binning). *)
Definition TH1_Add (acc h : TH1) : option TH1 :=
  if addable acc h then Some (TH1_sum acc h) else None.

Definition call_Add (acc h : TH1) : M TH1 :=
  match TH1_Add acc h with
  | Some acc' => ret acc'
  | None => abort Inconsistent
  end.

(** [for (int i = start; i <= end; i++) body]: [n] is the number of
    iterations left.  Incrementing [INT_MAX] is undefined. *)
Fixpoint for_int {S : Type} (n : nat) (i : Z) (body : Z -> S -> M S) (s : S) : M S :=
  match n with
  | O => ret s
  | Datatypes.S n' =>
      s' <- body i s ;;
      if i =? INT_MAX then abort SignedOverflow
      else for_int n' (i + 1) body s'
  end.

Definition for_range {S : Type} (start end_ : Z) (body : Z -> S -> M S) (s : S) : M S :=
  for_int (Z.to_nat (end_ + 1 - start)) start body s.

(** [fileNames[i]] on a [std::vector]. *)
Definition vector_at (v : list string) (i : nat) : M string :=
  match v !! i with
  | Some x => ret x
  | None => abort OutOfBounds
  end.

(** [TString::Format("AnalysisResults%d.root", i)], which is also
    ["AnalysisResults" + std::to_string(i) + ".root"]. *)
Definition AnalysisResults (i : Z) : string :=
  "AnalysisResults" +:+ dec i +:+ ".root".

(* ===================================================================== *)
(** * mergetuple.C *)
(* ===================================================================== *)

(** [mergedNtuple->Fill(...)] with the ten values in variable-list order. *)
Definition TNtuple_Fill (t : list Row)
    (eventNum dijetMass leadingJetPt subleadingJetPt deltaPhi deltaEta
     x1 x2 parton1Id parton2Id : Float_t) : list Row :=
  t ++ [mkRow eventNum dijetMass leadingJetPt subleadingJetPt deltaPhi deltaEta
              x1 x2 parton1Id parton2Id].

(** The loop [for (j = 0; j < nentries; j++)]: [GetEntry(j)] loads row [j]
    into the locals bound by name, [Fill] appends them to the merged
    table.  [n] is the number of iterations left. *)
Fixpoint fill_entries (n : nat) (j : nat) (dijetNtuple mergedNtuple : list Row) : list Row :=
  match n with
  | O => mergedNtuple
  | Datatypes.S n' =>
      match dijetNtuple !! j with
      | Some r =>
          fill_entries n' (Datatypes.S j) dijetNtuple
            (TNtuple_Fill mergedNtuple
               (eventNum r) (dijetMass r) (leadingJetPt r) (subleadingJetPt r)
               (deltaPhi r) (deltaEta r) (x1 r) (x2 r) (parton1Id r) (parton2Id r))
      | None => fill_entries n' (Datatypes.S j) dijetNtuple mergedNtuple
      end
  end.

(** The body of the loop over the files. *)
Definition mergetuple_file (i : Z) (mergedNtuple : list Row) : M (list Row) :=
  let fileName := AnalysisResults i in
  file <- TFile_new fileName ;;
  match fst (TFile_Get file "dijetNtuple") with
  | None => abort NullDeref          (* dijetNtuple->SetBranchAddress on null *)
  | Some (ObjNtuple dijetNtuple) =>
      let nentries := length dijetNtuple in
      ret (fill_entries nentries 0 dijetNtuple mergedNtuple)
  | Some _ => abort BadCast
  end.

(** [mergetuple] over the files [start .. end_]. *)
Definition mergetuple_from (start end_ : Z) : M unit :=
  TFile_recreate "merged_tuple.root" ;;;
  mergedNtuple <- for_range start end_ mergetuple_file [] ;;
  TFile_commit "merged_tuple.root"
    [mkKey "mergedNtuple" "TNtuple" (ObjNtuple mergedNtuple) true].

Definition mergetuple : M unit := mergetuple_from 0 99.

(* ===================================================================== *)
(** * mergemacro.C *)
(* ===================================================================== *)

(** The loop [for (size_t i = 1; i < fileNames.size(); ++i)], over the
    names [fileNames[1]], [fileNames[2]], ... *)
Fixpoint add_files (names : list string) (className histName : string)
    (mergedHist : TH1) : M TH1 :=
  match names with
  | [] => ret mergedHist
  | fileName :: rest =>
      file <- TFile_Open fileName ;;
      match file with
      | None =>
          cerr_line ("Error opening file " +:+ fileName) ;;;
          add_files rest className histName mergedHist
      | Some file =>
          histToAdd <- (if String.eqb className "TH2D"
                        then cast_TH1 (fst (TFile_Get file histName))
                        else cast_TH1 (fst (TFile_Get file histName))) ;;
          mergedHist' <- match histToAdd with
                         | Some h => call_Add mergedHist h
                         | None =>
                             cerr_line ("Histogram " +:+ histName +:+
                                        " not found in file " +:+ fileName) ;;;
                             ret mergedHist
                         end ;;
          add_files rest className histName mergedHist'
      end
  end.

(** The loop [while ((key = (TKey* )next()))] over the keys of the first
    file.  [mergedHist] points to the object in the first file's memory,
    so what [Add] does to it stays there. *)
Fixpoint merge_keys (keys : list TKey) (fileNames : list string) (name0 : string)
    (firstFile : TFile) (outputFile : list TKey) : M (TFile * list TKey) :=
  match keys with
  | [] => ret (firstFile, outputFile)
  | key :: rest =>
      let className := key_class key in
      if not_histogram className then
        merge_keys rest fileNames name0 firstFile outputFile
      else
        let histName := key_name key in
        let got := TFile_Get firstFile histName in
        mergedHist <- (if String.eqb className "TH2D"
                       then cast_TH1 (fst got) else cast_TH1 (fst got)) ;;
        match mergedHist with
        | None =>
            cerr_line ("Error loading histogram " +:+ histName +:+
                       " from file " +:+ name0) ;;;
            merge_keys rest fileNames name0 (snd got) outputFile
        | Some h0 =>
            h <- add_files (tail fileNames) className histName h0 ;;
            merge_keys rest fileNames name0
              (mkTFile (fKeys (snd got)) (<[histName := ObjTH1 h]> (fList (snd got))))
              (AppendKey (mkKey histName (h_class h) (ObjTH1 h) true) outputFile)
        end
  end.

(** The macro from the creation of the output file on, given the vector
    [fileNames] built by its first loop. *)
Definition mergemacro_files (fileNames : list string) : M unit :=
  TFile_recreate "merged_AnalysisResults.root" ;;;
  name0 <- vector_at fileNames 0 ;;
  firstFile <- TFile_Open name0 ;;
  (if firstFile is None then cerr_line ("Error opening file " +:+ name0) else ret tt) ;;;
  match firstFile with
  | None => abort NullDeref          (* firstFile->GetListOfKeys() on null *)
  | Some firstFile =>
      r <- merge_keys (fKeys firstFile) fileNames name0 firstFile [] ;;
      TFile_commit "merged_AnalysisResults.root" (snd r)
  end.

(** [mergemacro] over the files [start .. end_]. *)
Definition mergemacro_from (start end_ : Z) : M unit :=
  fileNames <- for_range start end_
                 (fun i names => ret (names ++ [AnalysisResults i])) [] ;;
  mergemacro_files fileNames.

Definition mergemacro : M unit := mergemacro_from 0 99.

(* ===================================================================== *)
(** * drawTuple.C *)
(* ===================================================================== *)

Definition csv_header : string :=
  "Event,Mass,LeadPt,SubleadPt,DeltaPhi,DeltaEta,x1,x2,Parton1,Parton2".

(** What one pass of the row loop streams into the file. *)
Definition csv_row (eventNum dijetMass leadingJetPt subleadingJetPt deltaPhi
    deltaEta x1 x2 parton1Id parton2Id : Float_t) : string :=
  dec (int_of_float eventNum) +:+ "," +:+
  put_fixed2 dijetMass +:+ "," +:+
  put_fixed2 leadingJetPt +:+ "," +:+
  put_fixed2 subleadingJetPt +:+ "," +:+
  put_fixed2 deltaPhi +:+ "," +:+
  put_fixed2 deltaEta +:+ "," +:+
  put_fixed2 x1 +:+ "," +:+
  put_fixed2 x2 +:+ "," +:+
  dec (int_of_float parton1Id) +:+ "," +:+
  dec (int_of_float parton2Id) +:+ endl.

(** The loop [for (i = 0; i < nentries; i++)]; [n] is the number of
    iterations left and [csv] what the stream holds so far. *)
Fixpoint write_entries (n : nat) (i : nat) (dijetNtuple : list Row) (csv : string) : string :=
  match n with
  | O => csv
  | Datatypes.S n' =>
      match dijetNtuple !! i with
      | Some r =>
          write_entries n' (Datatypes.S i) dijetNtuple
            (csv +:+ csv_row (eventNum r) (dijetMass r) (leadingJetPt r)
                       (subleadingJetPt r) (deltaPhi r) (deltaEta r)
                       (x1 r) (x2 r) (parton1Id r) (parton2Id r))
      | None => write_entries n' (Datatypes.S i) dijetNtuple csv
      end
  end.

Definition drawTuple : M unit :=
  f <- TFile_new "merged_tuple.root" ;;
  match fst (TFile_Get f "mergedNtuple") with
  | None => abort NullDeref          (* dijetNtuple->SetBranchAddress on null *)
  | Some (ObjNtuple dijetNtuple) =>
      let nentries := length dijetNtuple in
      cout_line ("Total number of entries: " +:+ dec (Z.of_nat nentries)) ;;;
      ofstream_open "dijet_data.csv" ;;;
      let csv := write_entries nentries 0 dijetNtuple (csv_header +:+ endl) in
      ofstream_close "dijet_data.csv" csv ;;;
      cout_line "Data has been saved to dijet_data.csv"
  | Some _ => abort BadCast
  end.

(* ===================================================================== *)
(** * What the sources hold, and what a merge should give *)
(* ===================================================================== *)

(** The object a file holds under a name, as a first [Get] on the opened
    file finds it. *)
Definition lookup_obj (keys : list TKey) (name : string) : option TObject :=
  match find_key name keys with
  | Some k => if key_readable k then Some (key_obj k) else None
  | None => None
  end.

Definition table_of (keys : list TKey) (name : string) : option (list Row) :=
  match lookup_obj keys name with
  | Some (ObjNtuple rows) => Some rows
  | _ => None
  end.

Definition hist_of (keys : list TKey) (name : string) : option TH1 :=
  match lookup_obj keys name with
  | Some (ObjTH1 h) => Some h
  | _ => None
  end.

(** The event table of run [i]. *)
Definition source_table (w : World) (i : Z) : option (list Row) :=
  match root_files w !! AnalysisResults i with
  | Some keys => table_of keys "dijetNtuple"
  | None => None
  end.

(** The merged table as [mergetuple] stores it. *)
Definition merged_table_key (rows : list Row) : TKey :=
  mkKey "mergedNtuple" "TNtuple" (ObjNtuple rows) true.

(** The merged table [drawTuple] reads. *)
Definition merged_table (w : World) : option (list Row) :=
  match root_files w !! "merged_tuple.root" with
  | Some keys => table_of keys "mergedNtuple"
  | None => None
  end.

(** What one pass of the row loop of [drawTuple] streams for a row. *)
Definition streamed (r : Row) : string :=
  csv_row (eventNum r) (dijetMass r) (leadingJetPt r) (subleadingJetPt r)
          (deltaPhi r) (deltaEta r) (x1 r) (x2 r) (parton1Id r) (parton2Id r).

Fixpoint concat_strings (ss : list string) : string :=
  match ss with
  | [] => ""
  | s :: rest => s +:+ concat_strings rest
  end.

(** A text of lines, each ended by a newline. *)
Definition lines_text (lines : list string) : string :=
  concat_strings ((fun l => l +:+ endl) <$> lines).

(** The number of newline characters of a text. *)
Fixpoint newlines (s : string) : nat :=
  match s with
  | EmptyString => O
  | String c rest =>
      ((if Ascii.eqb c (Ascii.ascii_of_nat 10) then 1 else 0) + newlines rest)%nat
  end.

(** The integer part of a value (0 stands in where there is none). *)
Definition truncated (x : Float_t) : Z := default 0 (Ztrunc x).

(** The value has an integer part, and it fits an [int]. *)
Definition fits_int (x : Float_t) : bool :=
  match Ztrunc x with
  | Some z => (INT_MIN <=? z) && (z <=? INT_MAX)
  | None => false
  end.

Definition int_fields_fit (r : Row) : bool :=
  fits_int (eventNum r) && fits_int (parton1Id r) && fits_int (parton2Id r).

Definition is_finite (x : spec_float) : bool :=
  match x with
  | S754_zero _ | S754_finite _ _ _ => true
  | _ => false
  end.

(** The seven fields exported as floats. *)
Definition float_fields (r : Row) : list Float_t :=
  [dijetMass r; leadingJetPt r; subleadingJetPt r; deltaPhi r; deltaEta r; x1 r; x2 r].

(** A row the export renders as the specification describes: the three
    integer fields fit an [int] and the seven float fields are finite. *)
Definition exportable (r : Row) : bool :=
  int_fields_fit r && forallb is_finite (float_fields r).

(** [q] is an integer nearest to [100 * m * 2^e]. *)
Definition nearest_hundredths (m : positive) (e q : Z) : Prop :=
  match e with
  | Zneg p => Z.abs (2 * (Zpos m * 100 - q * 2 ^ Zpos p)) <= 2 ^ Zpos p
  | _ => q = Zpos m * 100 * 2 ^ e
  end.

(** Fixed-point notation with two decimals: an optional sign, the integer
    part, a point and two digits, for a number of hundredths nearest to
    the value. *)
Inductive two_decimals : spec_float -> string -> Prop :=
| two_decimals_zero (s : bool) :
    two_decimals (S754_zero s) (sign_str s +:+ "0.00")
| two_decimals_finite (s : bool) (m : positive) (e q : Z) :
    0 <= q -> nearest_hundredths m e q ->
    two_decimals (S754_finite s m e)
      (sign_str s +:+ dec (q / 100) +:+ "." +:+ dec (q mod 100 / 10) +:+ dec (q mod 10)).

(** The CSV line the specification describes for a row: event index and
    parton identifiers as integers with the fractional part truncated,
    the seven other fields in fixed-point notation with two decimals. *)
Definition spec_line (r : Row) : string :=
  dec (truncated (eventNum r)) +:+ "," +:+
  put_fixed2 (dijetMass r) +:+ "," +:+
  put_fixed2 (leadingJetPt r) +:+ "," +:+
  put_fixed2 (subleadingJetPt r) +:+ "," +:+
  put_fixed2 (deltaPhi r) +:+ "," +:+
  put_fixed2 (deltaEta r) +:+ "," +:+
  put_fixed2 (x1 r) +:+ "," +:+
  put_fixed2 (x2 r) +:+ "," +:+
  dec (truncated (parton1Id r)) +:+ "," +:+
  dec (truncated (parton2Id r)).

(** The CSV the specification describes for a table. *)
Definition spec_csv (rows : list Row) : string :=
  lines_text (csv_header :: (spec_line <$> rows)).

(** The row of the export-fidelity example: event 7, mass 123.456,
    leadPt 50.1, subleadPt 30.2, dphi 3.14159, deta 0.01, x1 0.002,
    x2 0.5, parton1 21, parton2 -1, each as the nearest [float]. *)
Definition example_row : Row :=
  mkRow (float_lit 7 1) (float_lit 123456 1000) (float_lit 501 10)
        (float_lit 302 10) (float_lit 314159 100000) (float_lit 1 100)
        (float_lit 2 1000) (float_lit 5 10) (float_lit 21 1) (float_lit (-1) 1).

(** A row whose event index, 3000000000, is past the range of [int]. *)
Definition big_event_row : Row :=
  mkRow (float_lit 3000000000 1) (float_lit 5 10) (float_lit 5 10)
        (float_lit 5 10) (float_lit 5 10) (float_lit 5 10)
        (float_lit 5 10) (float_lit 5 10) (float_lit 21 1) (float_lit (-1) 1).

(** A row whose mass is infinite. *)
Definition infinite_mass_row : Row :=
  mkRow (float_lit 7 1) (S754_infinity false) (float_lit 5 10)
        (float_lit 5 10) (float_lit 5 10) (float_lit 5 10)
        (float_lit 5 10) (float_lit 5 10) (float_lit 21 1) (float_lit (-1) 1).

(** A world that holds a merged table and nothing else. *)
Definition world_with_merged (rows : list Row) : World :=
  mkWorld {[ "merged_tuple.root" := [merged_table_key rows] ]} ∅ [] [].

(** ** The histogram merge, as the specification describes it *)

(** The keys of the first source the merge takes up: the class recorded
    in the key is one of the three histogram classes and the histogram
    can be read. *)
Definition selected (k : TKey) : option TH1 :=
  if not_histogram (key_class k) then None
  else if key_readable k then
    match key_obj k with
    | ObjTH1 h => Some h
    | _ => None
    end
  else None.

(** The histograms of a given name in the other sources, in enumeration
    order.  A source is [None] when it cannot be opened; a source that
    cannot be opened or has no object of that name contributes nothing. *)
Definition contribution (name : string) (src : option (list TKey)) : option TH1 :=
  match src with
  | Some keys => hist_of keys name
  | None => None
  end.

Definition contributions (others : list (option (list TKey))) (name : string) : list TH1 :=
  omap (contribution name) others.

(** The cell-wise sum of the first source's histogram and the
    contributions of the others. *)
Definition merged_hist (h0 : TH1) (others : list (option (list TKey))) (name : string) : TH1 :=
  foldl TH1_sum h0 (contributions others name).

Definition merged_key (others : list (option (list TKey))) (k : TKey) : option TKey :=
  match selected k with
  | Some h0 =>
      Some (mkKey (key_name k) (h_class h0)
                  (ObjTH1 (merged_hist h0 others (key_name k))) true)
  | None => None
  end.

Definition merged_keys (keys0 : list TKey) (others : list (option (list TKey))) : list TKey :=
  omap (merged_key others) keys0.

(** The diagnostics of the merge of one histogram, and of one key. *)
Definition not_found_line (histName fileName : string) : string :=
  "Histogram " +:+ histName +:+ " not found in file " +:+ fileName.

Definition open_error_line (fileName : string) : string :=
  "Error opening file " +:+ fileName.

Definition file_diagnostics (fs : gmap string (list TKey)) (histName fileName : string) : list string :=
  match fs !! fileName with
  | None => [open_error_line fileName]
  | Some keys =>
      match lookup_obj keys histName with
      | None => [not_found_line histName fileName]
      | Some _ => []
      end
  end.

Definition add_diagnostics (fs : gmap string (list TKey)) (names : list string)
    (histName : string) : list string :=
  concat (file_diagnostics fs histName <$> names).

Definition key_diagnostics (fs : gmap string (list TKey)) (names : list string)
    (name0 : string) (k : TKey) : list string :=
  if not_histogram (key_class k) then []
  else if key_readable k then add_diagnostics fs names (key_name k)
  else ["Error loading histogram " +:+ key_name k +:+ " from file " +:+ name0].

(** ** Well-formed run outputs *)

(** The class recorded in a key is the class of the object it stores. *)
Definition typed_key (k : TKey) : bool :=
  match key_obj k with
  | ObjTH1 h => String.eqb (key_class k) (h_class h)
  | ObjNtuple _ => String.eqb (key_class k) "TNtuple"
  | ObjOther => not_histogram (key_class k)
  end.

(** A run output has uniquely named entries with well-typed keys. *)
Definition run_output_ok (keys : list TKey) : bool :=
  bool_decide (NoDup (key_name <$> keys)) && forallb typed_key keys.

(** What a source holds under the name of a histogram of the first source
    is, if anything, a histogram of the same binning. *)
Definition same_binning (h0 : TH1) (name : string) (src : option (list TKey)) : bool :=
  match src with
  | None => true
  | Some keys =>
      match lookup_obj keys name with
      | None => true
      | Some (ObjTH1 h) => addable h0 h
      | Some _ => false
      end
  end.

Definition sources_share_binning (keys0 : list TKey)
    (others : list (option (list TKey))) : bool :=
  forallb (fun k => match selected k with
                    | Some h0 => forallb (same_binning h0 (key_name k)) others
                    | None => true
                    end) keys0.

(** Source [i]: what the file of run [i] holds, [None] when it cannot be
    opened.  The sources after the first of the range [start .. end_],
    and the names of their files. *)
Definition source (w : World) (i : Z) : option (list TKey) :=
  root_files w !! AnalysisResults i.

Definition other_sources (w : World) (start end_ : Z) : list (option (list TKey)) :=
  source w <$> seqZ (start + 1) (end_ - start).

Definition other_names (start end_ : Z) : list string :=
  AnalysisResults <$> seqZ (start + 1) (end_ - start).

(** The merged histogram file. *)
Definition merged_hists (w : World) : option (list TKey) :=
  root_files w !! "merged_AnalysisResults.root".

(** The keys of a source that the merge turns into merged histograms. *)
Definition recognized_and_readable (k : TKey) : bool :=
  negb (not_histogram (key_class k)) && key_readable k.

(** ** Small run outputs, for the examples *)

Definition dbl (z : Z) : Double_t := binary_normalize 53 1024 z 0 false.

(** A histogram like [hnevent]: one bin over [0, 1], with its underflow
    and overflow cells. *)
Definition one_bin (content entries : Z) : TH1 :=
  mkTH1 "TH1D" [[dbl 0; dbl 1]] [dbl 0; dbl content; dbl 0] (dbl entries).

Definition hnevent_key (content : Z) : TKey :=
  mkKey "hnevent" "TH1D" (ObjTH1 (one_bin content content)) true.

Definition dijetNtuple_key (rows : list Row) : TKey :=
  mkKey "dijetNtuple" "TNtuple" (ObjNtuple rows) true.

(** A run output with its histogram and its table, and one that lacks the
    histogram. *)
Definition run_output (content : Z) (rows : list Row) : list TKey :=
  [hnevent_key content; dijetNtuple_key rows].

Definition run_without_histogram (rows : list Row) : list TKey :=
  [dijetNtuple_key rows].

(** The world in which run [i] left the [i]-th of the given outputs,
    counting from 0; [None] is a run whose file cannot be opened. *)
Fixpoint files_from (i : Z) (runs : list (option (list TKey))) : gmap string (list TKey) :=
  match runs with
  | [] => ∅
  | Some keys :: rest => <[AnalysisResults i := keys]> (files_from (i + 1) rest)
  | None :: rest => files_from (i + 1) rest
  end.

Definition world_of (runs : list (option (list TKey))) : World :=
  mkWorld (files_from 0 runs) ∅ [] [].

Definition without_root_file (name : string) (w : World) : World :=
  mkWorld (delete name (root_files w)) (text_files w) (cerr w) (cout w).

(** Three runs: the second has no histogram, the others have one. *)
Definition world_missing_histogram : World :=
  world_of [Some (run_output 5 [example_row]);
            Some (run_without_histogram [example_row; example_row]);
            Some (run_output 7 [])].

(** Three runs: the file of the second cannot be opened. *)
Definition world_unopenable_source : World :=
  world_of [Some (run_output 5 [example_row]); None; Some (run_output 7 [])].

(** Two runs: the file of the first cannot be opened. *)
Definition world_unopenable_first : World :=
  world_of [None; Some (run_output 7 [])].

(** One run. *)
Definition world_single_run : World :=
  world_of [Some (run_output 5 [example_row; example_row])].

(** The cells of a merged histogram after a merge over [start .. end_]. *)
Definition merged_cells (w : World) (start end_ : Z) (name : string) : option (list Double_t) :=
  match merged_hists (fst (mergemacro_from start end_ w)) with
  | Some out => h_cells <$> hist_of out name
  | None => None
  end.

(** A run whose only entry is the one-bin histogram. *)
Definition histogram_only (content : Z) : list TKey := [hnevent_key content].

(** The double nearest to the decimal [num / den]. *)
Definition dbl_lit (num den : Z) : Double_t := SFdiv 53 1024 (dbl num) (dbl den).

(** A run whose only entry is a histogram filled with weights, like
    [hDijetMass] (here with one bin): the bin holds the sum of the
    weights, a cross section. *)
Definition weighted_only (content : Double_t) : list TKey :=
  [mkKey "hDijetMass" "TH1D"
         (ObjTH1 (mkTH1 "TH1D" [[dbl 40; dbl 150]] [dbl 0; content; dbl 0] (dbl 1)))
         true].

(** Three runs with bin contents 0.1, 0.2 and 0.3, in two orders. *)
Definition world_weights_ABC : World :=
  world_of [Some (weighted_only (dbl_lit 1 10)); Some (weighted_only (dbl_lit 2 10));
            Some (weighted_only (dbl_lit 3 10))].

Definition world_weights_BCA : World :=
  world_of [Some (weighted_only (dbl_lit 2 10)); Some (weighted_only (dbl_lit 3 10));
            Some (weighted_only (dbl_lit 1 10))].

(** Three runs of which B has no histogram, in two orders. *)
Definition world_hists_ABC : World :=
  world_of [Some (histogram_only 5); Some (run_without_histogram []);
            Some (histogram_only 7)].

Definition world_hists_BAC : World :=
  world_of [Some (run_without_histogram []); Some (histogram_only 5);
            Some (histogram_only 7)].

(** Sources A, B and C of a merge in two steps, the world in which A and
    B are merged first, and the world in which their result is merged
    with C. *)
Definition world_ABC : World :=
  world_of [Some (histogram_only 5); Some (histogram_only 6); Some (histogram_only 7)].

Definition world_AB : World :=
  world_of [Some (histogram_only 5); Some (histogram_only 6)].

Definition merged_AB : list TKey :=
  default [] (merged_hists (fst (mergemacro_from 0 1 world_AB))).

Definition world_AB_then_C : World :=
  world_of [Some merged_AB; Some (histogram_only 7)].

(** ** Further vocabulary: texts and frames *)

(** The number of occurrences of a character in a text. *)
Fixpoint count_char (c : Ascii.ascii) (s : string) : nat :=
  match s with
  | EmptyString => O
  | String c' rest => ((if Ascii.eqb c' c then 1 else 0) + count_char c rest)%nat
  end.

Definition comma : Ascii.ascii := Ascii.ascii_of_nat 44.

(** What [drawTuple] finds under the name of the merged table: [None]
    when the file cannot be opened, has no key of that name, or the key
    cannot be read (the cases in which [Get] returns a null pointer). *)
Definition merged_object (w : World) : option TObject :=
  match root_files w !! "merged_tuple.root" with
  | Some keys => lookup_obj keys "mergedNtuple"
  | None => None
  end.

(** Two worlds hold the same run outputs. *)
Definition same_sources (w w' : World) : Prop :=
  forall i, source w' i = source w i.

(** [w'] differs from [w] at most by lines added to [cerr]. *)
Definition logs_only (w w' : World) : Prop :=
  root_files w' = root_files w /\ text_files w' = text_files w
  /\ cout w' = cout w /\ exists lines, cerr w' = cerr w ++ lines.

(** [w'] differs from [w] at most in the ROOT file [name] and by lines
    added to [cerr]. *)
Definition writes_only (name : string) (w w' : World) : Prop :=
  (forall other, other <> name -> root_files w' !! other = root_files w !! other)
  /\ text_files w' = text_files w
  /\ cout w' = cout w /\ exists lines, cerr w' = cerr w ++ lines.

(** Source [i] has something readable under the name [name]. *)
Definition provides (w : World) (name : string) (i : Z) : bool :=
  match source w i with
  | Some keys => bool_decide (is_Some (lookup_obj keys name))
  | None => false
  end.

(** Nothing is missing for the merge of [start .. end_]: every histogram
    key of the first source can be read, and every other source has an
    object under its name. *)
Definition nothing_missing (w : World) (start end_ : Z) (keys0 : list TKey) : bool :=
  forallb (fun k => not_histogram (key_class k)
                    || (key_readable k
                        && forallb (provides w (key_name k))
                             (seqZ (start + 1) (end_ - start)))) keys0.

(** Two runs: the first holds, besides its histogram and its table, a
    histogram that cannot be read back. *)
Definition unreadable_key : TKey :=
  mkKey "hDijetMass" "TH1D" (ObjTH1 (one_bin 0 0)) false.

Definition world_unreadable_histogram : World :=
  world_of [Some (unreadable_key :: run_output 5 []); Some (run_output 7 [])].

(* ===================================================================== *)
(** * pythia.C: the event loop of the generator *)
(* ===================================================================== *)

(** Double-precision arithmetic, and the conversions [(float)i] of an
    [int] and [fabs]. *)
Definition dsub (x y : Double_t) : Double_t := SFsub 53 1024 x y.
Definition dmul (x y : Double_t) : Double_t := SFmul 53 1024 x y.
Definition ddiv (x y : Double_t) : Double_t := SFdiv 53 1024 x y.
Definition sqrt (x : Double_t) : Double_t := SFsqrt 53 1024 x.
Definition fabs (x : Double_t) : Double_t := SFabs x.
Definition float_of_int (i : Z) : Float_t := binary_normalize 24 128 i 0 false.

(** [M_PI], the double 3.141592653589793 (bits [0x400921FB54442D18]). *)
Definition M_PI : Double_t := S754_finite false 7074237752028440 (-51).

(** An entry of the event record, as far as the analysis reads it. *)
Record Particle := mkParticle {
  isFinal : bool;
  isCharged : bool;
  p_eta : Double_t;
  p_pT : Double_t;
  p_px : Double_t;
  p_py : Double_t;
  p_pz : Double_t;
  p_e : Double_t
}.

(** The four-momentum a track is given to the jet finder with. *)
Record FourMomentum := mkFourMomentum {
  fm_px : Double_t;
  fm_py : Double_t;
  fm_pz : Double_t;
  fm_E : Double_t
}.

(** A jet, as far as the analysis reads it: what [pt()], [eta()] and
    [phi()] return. *)
Record PseudoJet := mkPseudoJet {
  jet_pt : Double_t;
  jet_eta : Double_t;
  jet_phi : Double_t
}.

(** What the generator gives for one pass of the event loop: the cross
    section estimate read before [next()], and, unless [next()] fails,
    the event record and the partonic information. *)
Record Event := mkEvent {
  event : list Particle;
  info_x1 : Double_t;
  info_x2 : Double_t;
  info_id1 : Z;
  info_id2 : Z
}.

Record Pass := mkPass {
  sigmaGen : Double_t;
  next : option Event
}.

(** What the analysis has filled so far: the arguments of the [Fill]
    calls on each histogram, in call order, the rows of the table, and
    the lines printed. *)
Record Filled := mkFilled {
  fills_hnevent : list Double_t;
  fills_hDijetMass : list (Double_t * Double_t);
  fills_hPartonicX : list (Double_t * Double_t);
  rows_dijetNtuple : list Row;
  printed : list string
}.

Definition nothing_filled : Filled := mkFilled [] [] [] [] [].

(** The loop over the particles of the event: final charged particles
    with [|eta| <= 0.9] and [pT >= 0.15] go to the jet finder. *)
Fixpoint select_tracks (ps : list Particle) (particlesforjets : list FourMomentum)
    : list FourMomentum :=
  match ps with
  | [] => particlesforjets
  | p :: rest =>
      if negb (isFinal p) || SFltb (dbl_lit 9 10) (fabs (p_eta p))
         || negb (isCharged p) || SFltb (p_pT p) (dbl_lit 15 100)
      then select_tracks rest particlesforjets
      else select_tracks rest
             (particlesforjets ++ [mkFourMomentum (p_px p) (p_py p) (p_pz p) (p_e p)])
  end.

(** The loop [for (const auto& jet : jets)] that keeps the jets with
    [|eta| < 0.5]. *)
Fixpoint eta_cut (jets : list PseudoJet) (jets_eta_cut : list PseudoJet)
    : list PseudoJet :=
  match jets with
  | [] => jets_eta_cut
  | jet :: rest =>
      if SFltb (fabs (jet_eta jet)) (dbl_lit 1 2)
      then eta_cut rest (jets_eta_cut ++ [jet])
      else eta_cut rest jets_eta_cut
  end.

Section Generator.

(** The library functions the analysis calls: the jet finder, which
    gives [sorted_by_pt(cs.inclusive_jets(20))] for the tracks, and
    [cosh] and [cos] of the C library. *)
Variable inclusive_jets : list FourMomentum -> list PseudoJet.
Variables cosh cos : Double_t -> Double_t.

(** The loop [for (auto i = 1; i < jets_eta_cut.size() && !found_pair; i++)];
    [n] is the number of iterations left. *)
Fixpoint pair_loop (n : nat) (i : nat) (jets_eta_cut : list PseudoJet)
    (leading_jet : PseudoJet) (ievt : Z) (sigma : Double_t) (ev : Event)
    (found_pair : bool) (st : Filled) : Filled :=
  match n with
  | O => st
  | Datatypes.S n' =>
      if (i <? length jets_eta_cut)%nat && negb found_pair then
        match jets_eta_cut !! i with
        | Some subleading_jet =>
            let dphi := fabs (dsub (jet_phi leading_jet) (jet_phi subleading_jet)) in
            let deta := dsub (jet_eta leading_jet) (jet_eta subleading_jet) in
            let condition := fabs (dsub dphi M_PI) in
            if SFltb condition (ddiv M_PI (dbl 2)) then
              let dijet_mass :=
                sqrt (dmul (dmul (dmul (dbl 2) (jet_pt leading_jet))
                                 (jet_pt subleading_jet))
                           (dsub (cosh deta) (cos dphi))) in
              let x1 := info_x1 ev in
              let x2 := info_x2 ev in
              let id1 := info_id1 ev in
              let id2 := info_id2 ev in
              pair_loop n' (Datatypes.S i) jets_eta_cut leading_jet ievt sigma ev true
                (mkFilled (fills_hnevent st)
                          (fills_hDijetMass st ++ [(dijet_mass, sigma)])
                          (fills_hPartonicX st ++ [(x1, x2)])
                          (TNtuple_Fill (rows_dijetNtuple st)
                             (float_of_int ievt) (to_Float_t dijet_mass)
                             (to_Float_t (jet_pt leading_jet))
                             (to_Float_t (jet_pt subleading_jet))
                             (to_Float_t dphi) (to_Float_t deta)
                             (to_Float_t x1) (to_Float_t x2)
                             (float_of_int id1) (float_of_int id2))
                          (printed st))
            else
              pair_loop n' (Datatypes.S i) jets_eta_cut leading_jet ievt sigma ev
                found_pair st
        | None => st
        end
      else st
  end.

(** One pass of the event loop. *)
Definition analyse (ievt : Z) (pass : Pass) (st : Filled) : Filled :=
  let sigma := sigmaGen pass in
  match next pass with
  | None => st
  | Some ev =>
      let st := mkFilled (fills_hnevent st ++ [dbl_lit 1 2]) (fills_hDijetMass st)
                         (fills_hPartonicX st) (rows_dijetNtuple st) (printed st) in
      let st := if Z.rem ievt 10000 =? 0
                then mkFilled (fills_hnevent st) (fills_hDijetMass st)
                              (fills_hPartonicX st) (rows_dijetNtuple st)
                              (printed st ++ [dec ievt])
                else st in
      let particlesforjets := select_tracks (event ev) [] in
      let jets := inclusive_jets particlesforjets in
      let jets_eta_cut := eta_cut jets [] in
      if (length jets_eta_cut <? 2)%nat then st
      else
        match jets_eta_cut !! O with
        | Some leading_jet =>
            pair_loop (length jets_eta_cut) 1 jets_eta_cut leading_jet ievt sigma ev
              false st
        | None => st
        end
  end.

(** The loop [for (int ievt = 0; ievt < nEvent; ievt++)], over what the
    generator gives in its [nEvent] passes. *)
Fixpoint event_loop (ievt : Z) (passes : list Pass) (st : Filled) : Filled :=
  match passes with
  | [] => st
  | pass :: rest => event_loop (ievt + 1) rest (analyse ievt pass st)
  end.

Definition analysis (passes : list Pass) : Filled :=
  event_loop 0 passes nothing_filled.

(** ** What the analysis should fill *)

Definition central (jet : PseudoJet) : bool :=
  SFltb (fabs (jet_eta jet)) (dbl_lit 1 2).

(** The two jets are back to back: their azimuthal distance is within
    a quarter turn of a half turn. *)
Definition back_to_back (leading_jet subleading_jet : PseudoJet) : bool :=
  SFltb (fabs (dsub (fabs (dsub (jet_phi leading_jet) (jet_phi subleading_jet))) M_PI))
        (ddiv M_PI (dbl 2)).

(** The dijet of an event: the first central jet and the first central
    jet after it that is back to back with it. *)
Definition dijet (jets : list PseudoJet) : option (PseudoJet * PseudoJet) :=
  match List.filter central jets with
  | leading_jet :: rest =>
      match List.find (back_to_back leading_jet) rest with
      | Some subleading_jet => Some (leading_jet, subleading_jet)
      | None => None
      end
  | [] => None
  end.

Definition jets_of (ev : Event) : list PseudoJet :=
  inclusive_jets (select_tracks (event ev) []).

Definition dijet_mass_of (leading_jet subleading_jet : PseudoJet) : Double_t :=
  sqrt (dmul (dmul (dmul (dbl 2) (jet_pt leading_jet)) (jet_pt subleading_jet))
             (dsub (cosh (dsub (jet_eta leading_jet) (jet_eta subleading_jet)))
                   (cos (fabs (dsub (jet_phi leading_jet) (jet_phi subleading_jet)))))).

(** The row of the dijet of event [ievt]. *)
Definition dijet_row (ievt : Z) (ev : Event) (leading_jet subleading_jet : PseudoJet) : Row :=
  mkRow (float_of_int ievt)
        (to_Float_t (dijet_mass_of leading_jet subleading_jet))
        (to_Float_t (jet_pt leading_jet))
        (to_Float_t (jet_pt subleading_jet))
        (to_Float_t (fabs (dsub (jet_phi leading_jet) (jet_phi subleading_jet))))
        (to_Float_t (dsub (jet_eta leading_jet) (jet_eta subleading_jet)))
        (to_Float_t (info_x1 ev)) (to_Float_t (info_x2 ev))
        (float_of_int (info_id1 ev)) (float_of_int (info_id2 ev)).

(** What one pass adds to the table. *)
Definition rows_of_pass (ievt : Z) (pass : Pass) : list Row :=
  match next pass with
  | Some ev =>
      match dijet (jets_of ev) with
      | Some (leading_jet, subleading_jet) => [dijet_row ievt ev leading_jet subleading_jet]
      | None => []
      end
  | None => []
  end.

(** The state after the fills for a dijet: one weighted entry in the
    mass histogram, one in the histogram of the momentum fractions, one
    row in the table. *)
Definition with_dijet (ievt : Z) (sigma : Double_t) (ev : Event)
    (leading_jet subleading_jet : PseudoJet) (st : Filled) : Filled :=
  mkFilled (fills_hnevent st)
           (fills_hDijetMass st ++ [(dijet_mass_of leading_jet subleading_jet, sigma)])
           (fills_hPartonicX st ++ [(info_x1 ev, info_x2 ev)])
           (rows_dijetNtuple st ++ [dijet_row ievt ev leading_jet subleading_jet])
           (printed st).

(** The state after the count of a generated event, and its progress
    line every 10000 events. *)
Definition with_event (ievt : Z) (st : Filled) : Filled :=
  mkFilled (fills_hnevent st ++ [dbl_lit 1 2]) (fills_hDijetMass st)
           (fills_hPartonicX st) (rows_dijetNtuple st)
           (printed st ++ (if Z.rem ievt 10000 =? 0 then [dec ievt] else [])).

End Generator.

(** The sign of a value is set (never for a NaN). *)
Definition signbit (x : spec_float) : bool :=
  match x with
  | S754_zero s | S754_infinity s | S754_finite s _ _ => s
  | S754_nan => false
  end.

(** ** A small event, for the examples *)

Definition jet_at (pt eta phi : Double_t) : PseudoJet := mkPseudoJet pt eta phi.

(** Four jets in the order of the jet finder: one outside [|eta| < 0.5],
    the leading central jet, a central jet close to it in azimuth, and a
    central jet opposite to it. *)
Definition example_jets : list PseudoJet :=
  [jet_at (dbl 60) (dbl_lit 12 10) (dbl_lit 3 10);
   jet_at (dbl 50) (dbl_lit 1 10) (dbl_lit 5 10);
   jet_at (dbl 40) (dbl_lit (-2) 10) (dbl 1);
   jet_at (dbl 30) (dbl_lit 3 10) (dbl_lit 35 10)].

Definition example_event : Event :=
  mkEvent [] (dbl_lit 2 1000) (dbl_lit 5 10) 21 (-1).

Definition example_pass : Pass := mkPass (dbl_lit 1 100) (Some example_event).

Definition minus_sign : Ascii.ascii := Ascii.ascii_of_nat 45.

(** ** Histograms of counts *)

(** A histogram of counts: the cells and the entry count hold integers,
    as after [Fill] calls without weights. *)
Definition count_histogram (class : string) (axes : list (list Double_t))
    (counts : list Z) (entries : Z) : TH1 :=
  mkTH1 class axes (dbl <$> counts) (dbl entries).

(** The cell-wise totals of lists of counts, and the counts of a list of
    count histograms given by their cells and entries. *)
Definition add_counts (c1 c2 : list Z) : list Z := zip_with Z.add c1 c2.

Definition total_counts (c0 : list Z) (cs : list (list Z)) : list Z :=
  foldl add_counts c0 cs.

Definition total_entries (n0 : Z) (ns : list Z) : Z := foldl Z.add n0 ns.


(** ** The bin-wise sum, written out bin by bin *)

(** Addition in the storage of a histogram class: in single precision
    for [TH1F], in double precision for the other classes. *)
Definition sum_in (class : string) (x y : Double_t) : Double_t :=
  if String.eqb class "TH1F" then SFadd 24 128 x (to_Float_t y)
  else SFadd 53 1024 x y.

(** Cell [j] of the sum: the content [c] of cell [j] of the first
    histogram, to which cell [j] of each of the others is added in turn. *)
Definition summed_cell (class : string) (others : list TH1) (j : nat) (c : Double_t)
    : Double_t :=
  foldl (fun acc h => sum_in class acc (default (S754_zero false) (h_cells h !! j)))
        c others.

Definition summed_cells (h0 : TH1) (others : list TH1) : list Double_t :=
  imap (summed_cell (h_class h0) others) (h_cells h0).

(** The entry counts are added, in double precision. *)
Definition summed_entries (h0 : TH1) (others : list TH1) : Double_t :=
  foldl (fun acc h => SFabs (SFadd 53 1024 acc (h_entries h))) (h_entries h0) others.

(** The bin-wise sum of [h0] and [others]: the class and the axes of
    [h0], every cell the sum of the cells of that index, the entry count
    the sum of the entry counts. *)
Definition bin_wise_sum (h0 : TH1) (others : list TH1) : TH1 :=
  mkTH1 (h_class h0) (h_axes h0) (summed_cells h0 others) (summed_entries h0 others).

(** ** The histogram kinds *)

(** The three classes the specification names. *)
Definition histogram_kinds : list string := ["TH1F"; "TH1D"; "TH2D"].

Definition is_histogram_kind (class : string) : bool :=
  bool_decide (class ∈ histogram_kinds).

(** What the merge of one entry of a histogram kind should log: the
    lines of the sources that could not contribute, or, when the entry
    itself cannot be read, one line for it. *)
Definition kind_diagnostics (fs : gmap string (list TKey)) (names : list string)
    (name0 : string) (k : TKey) : list string :=
  if key_readable k then add_diagnostics fs names (key_name k)
  else ["Error loading histogram " +:+ key_name k +:+ " from file " +:+ name0].

(** A run output with entries of the three histogram kinds, a string, a
    table, and a histogram that cannot be read back. *)
Definition hist_key (name class : string) (content : Z) : TKey :=
  mkKey name class
        (ObjTH1 (mkTH1 class [[dbl 0; dbl 1]] [dbl 0; dbl content; dbl 0] (dbl content)))
        true.

Definition mixed_output : list TKey :=
  [hist_key "hTrackPt" "TH1F" 3;
   hnevent_key 5;
   mkKey "config" "TObjString" ObjOther true;
   hist_key "hPartonicX" "TH2D" 4;
   dijetNtuple_key [example_row];
   unreadable_key].

Definition world_mixed_kinds : World :=
  world_of [Some mixed_output; Some mixed_output].

(** ** Sources without a table *)

(** The file of run [j] cannot be opened, or it holds no readable object
    named [dijetNtuple]. *)
Definition no_table (w : World) (j : Z) : Prop :=
  match source w j with
  | None => True
  | Some keys => lookup_obj keys "dijetNtuple" = None
  end.

(** Three runs: the file of the second can be opened and has its
    histogram, but no table. *)
Definition world_absent_table : World :=
  world_of [Some (run_output 5 [example_row]); Some (histogram_only 6);
            Some (run_output 7 [])].

(** Three runs that hold counts only, in two orders. *)
Definition world_counts_ABC : World :=
  world_of [Some (histogram_only 5); Some (histogram_only 7); Some (histogram_only 2)].

Definition world_counts_CAB : World :=
  world_of [Some (histogram_only 2); Some (histogram_only 5); Some (histogram_only 7)].

(** ** Rows without a not-a-number *)

Definition is_nan (x : spec_float) : bool :=
  match x with
  | S754_nan => true
  | _ => false
  end.

(** None of the seven fields exported as floats is a not-a-number.  (For
    a not-a-number the export writes [nan] or [-nan] after its sign bit,
    which [spec_float] does not hold.) *)
Definition no_nan (r : Row) : bool :=
  forallb (fun x => negb (is_nan x)) (float_fields r).

(* ===================================================================== *)
(** * Properties of the tuple merger *)
(* ===================================================================== *)

Lemma AnalysisResults_not_merged_tuple (i : Z) :
  "merged_tuple.root" ≠ AnalysisResults i.
Proof. unfold AnalysisResults. simpl. discriminate. Qed.

Lemma AnalysisResults_not_merged_hists (i : Z) :
  "merged_AnalysisResults.root" ≠ AnalysisResults i.
Proof. unfold AnalysisResults. simpl. discriminate. Qed.

Lemma TFile_Get_fresh (keys : list TKey) (name : string) :
  fst (TFile_Get (mkTFile keys ∅) name) = lookup_obj keys name.
Proof.
  unfold TFile_Get, lookup_obj. simpl. rewrite lookup_empty.
  destruct (find_key name keys) as [k|]; [|reflexivity].
  destruct (key_readable k); reflexivity.
Qed.

Lemma Row_eta (r : Row) :
  mkRow (eventNum r) (dijetMass r) (leadingJetPt r) (subleadingJetPt r)
        (deltaPhi r) (deltaEta r) (x1 r) (x2 r) (parton1Id r) (parton2Id r) = r.
Proof. destruct r; reflexivity. Qed.

(** The row loop appends the rows [j], [j+1], ... of the source. *)
Lemma fill_entries_spec (n j : nat) (src merged : list Row) :
  fill_entries n j src merged = merged ++ take n (drop j src).
Proof.
  revert j merged. induction n as [|n IH]; intros j merged; simpl.
  - rewrite take_0, app_nil_r. reflexivity.
  - destruct (src !! j) as [r|] eqn:Hj.
    + rewrite IH. unfold TNtuple_Fill. rewrite Row_eta.
      rewrite (drop_S _ _ _ Hj). simpl. rewrite <- app_assoc. reflexivity.
    + rewrite IH. apply lookup_ge_None in Hj.
      rewrite !drop_ge by lia. rewrite !take_nil. reflexivity.
Qed.

Lemma fill_entries_all (src merged : list Row) :
  fill_entries (length src) 0 src merged = merged ++ src.
Proof. rewrite fill_entries_spec, drop_0, firstn_all. reflexivity. Qed.

Lemma source_table_recreate (name : string) (keys : list TKey) (w : World) (i : Z) :
  name ≠ AnalysisResults i ->
  source_table (with_root_file name keys w) i = source_table w i.
Proof.
  intros Hne. unfold source_table, with_root_file. simpl.
  rewrite lookup_insert_ne by exact Hne. reflexivity.
Qed.

(** One pass of the file loop on a run that has its table. *)
Lemma mergetuple_file_ok (w : World) (i : Z) (rows merged : list Row) :
  source_table w i = Some rows ->
  mergetuple_file i merged w = (w, Done (merged ++ rows)).
Proof.
  unfold source_table, table_of, mergetuple_file, TFile_new, bind. intros H.
  destruct (root_files w !! AnalysisResults i) as [keys|]; [|discriminate].
  simpl. rewrite TFile_Get_fresh.
  destruct (lookup_obj keys "dijetNtuple") as [[| rows' |]|]; try discriminate.
  injection H as ->. unfold ret. rewrite fill_entries_all. reflexivity.
Qed.

(** One pass of the file loop on a run without a table: the macro stops. *)
Lemma mergetuple_file_fatal (w : World) (i : Z) (merged : list Row) :
  source_table w i = None ->
  exists f, mergetuple_file i merged w = (w, Abort f).
Proof.
  unfold source_table, table_of, mergetuple_file, TFile_new, bind. intros H.
  simpl. rewrite TFile_Get_fresh.
  destruct (root_files w !! AnalysisResults i) as [keys|]; simpl.
  - destruct (lookup_obj keys "dijetNtuple") as [[| rows' |]|];
      try discriminate; eexists; reflexivity.
  - eexists; reflexivity.
Qed.

Lemma for_int_mergetuple (w : World) (tables : list (list Row)) :
  forall (i : Z) (merged : list Row),
  (tables <> [] -> i + Z.of_nat (length tables) - 1 < INT_MAX) ->
  (forall (k : nat) rows, tables !! k = Some rows ->
     source_table w (i + Z.of_nat k) = Some rows) ->
  for_int (length tables) i mergetuple_file merged w
  = (w, Done (merged ++ concat tables)).
Proof.
  induction tables as [|rows tables IH]; intros i merged Hmax Hsrc; simpl.
  - rewrite app_nil_r. reflexivity.
  - unfold bind at 1.
    rewrite (mergetuple_file_ok w i rows merged).
    2:{ specialize (Hsrc O rows eq_refl). rewrite Z.add_0_r in Hsrc. exact Hsrc. }
    assert (Hlt : i < INT_MAX).
    { assert (Hne : rows :: tables <> []) by discriminate.
      specialize (Hmax Hne). simpl length in Hmax. lia. }
    destruct (Z.eqb_spec i INT_MAX) as [->|_]; [lia|].
    rewrite IH.
    + rewrite <- app_assoc. reflexivity.
    + intros _. assert (Hne : rows :: tables <> []) by discriminate.
      specialize (Hmax Hne). simpl length in Hmax. lia.
    + intros k rows' Hk. specialize (Hsrc (S k) rows' Hk).
      replace (i + 1 + Z.of_nat k) with (i + Z.of_nat (S k)) by lia. exact Hsrc.
Qed.

Lemma with_root_file_twice (name : string) (k1 k2 : list TKey) (w : World) :
  with_root_file name k2 (with_root_file name k1 w) = with_root_file name k2 w.
Proof. unfold with_root_file. simpl. rewrite insert_insert_eq. reflexivity. Qed.

(** The tuple merge of runs that all have their table. *)
Lemma mergetuple_from_spec (w : World) (start : Z) (tables : list (list Row)) :
  (tables <> [] -> start + Z.of_nat (length tables) - 1 < INT_MAX) ->
  (forall (k : nat) rows, tables !! k = Some rows ->
     source_table w (start + Z.of_nat k) = Some rows) ->
  mergetuple_from start (start + Z.of_nat (length tables) - 1) w
  = (with_root_file "merged_tuple.root" [merged_table_key (concat tables)] w, Done tt).
Proof.
  intros Hmax Hsrc.
  unfold mergetuple_from, for_range, bind at 1, TFile_recreate.
  replace (Z.to_nat (start + Z.of_nat (length tables) - 1 + 1 - start))
    with (length tables) by lia.
  unfold bind at 1.
  rewrite (for_int_mergetuple _ tables start []).
  - unfold TFile_commit. rewrite with_root_file_twice. reflexivity.
  - exact Hmax.
  - intros k rows Hk. rewrite source_table_recreate.
    + apply Hsrc, Hk.
    + apply AnalysisResults_not_merged_tuple.
Qed.

(** The file loop stops at the first run without a table. *)
Lemma for_int_mergetuple_fatal (w : World) (n : nat) :
  forall (i j : Z) (merged : list Row),
  i <= j < i + Z.of_nat n ->
  source_table w j = None ->
  exists w' f, for_int n i mergetuple_file merged w = (w', Abort f).
Proof.
  induction n as [|n IH]; intros i j merged Hj Hnone; [lia|].
  cbn [for_int]. unfold bind at 1.
  destruct (source_table w i) as [rows|] eqn:Hi.
  - rewrite (mergetuple_file_ok w i rows merged Hi).
    destruct (Z.eqb_spec i INT_MAX) as [_|_].
    + eexists _, _. reflexivity.
    + apply (IH (i + 1) j). 2: exact Hnone.
      assert (i <> j) by congruence. lia.
  - destruct (mergetuple_file_fatal w i merged Hi) as [f Hf]. rewrite Hf.
    eexists _, _. reflexivity.
Qed.

Lemma mergetuple_from_fatal (w : World) (start end_ j : Z) :
  start <= j <= end_ ->
  source_table w j = None ->
  exists f, snd (mergetuple_from start end_ w) = Abort f.
Proof.
  intros Hj Hnone. unfold mergetuple_from, for_range, bind at 1, TFile_recreate.
  unfold bind at 1.
  destruct (for_int_mergetuple_fatal
              (with_root_file "merged_tuple.root" [] w)
              (Z.to_nat (end_ + 1 - start)) start j []) as (w' & f & Hrun).
  - lia.
  - rewrite source_table_recreate; [exact Hnone|].
    apply AnalysisResults_not_merged_tuple.
  - rewrite Hrun. exists f. reflexivity.
Qed.

(** C1.  Tuple-merging N sources whose tables have r0, ..., r(N-1) rows
    gives a table of exactly r0 + ... + r(N-1) rows: the sources' rows,
    source after source in ascending index order, each source's rows in
    their own order and with their ten values unchanged (the
    concatenation of the tables). *)
Theorem mergetuple_concatenates (w : World) (start : Z) (tables : list (list Row)) :
  start + Z.of_nat (length tables) - 1 < INT_MAX ->
  (forall (k : nat) rows, tables !! k = Some rows ->
     source_table w (start + Z.of_nat k) = Some rows) ->
  mergetuple_from start (start + Z.of_nat (length tables) - 1) w
  = (with_root_file "merged_tuple.root" [merged_table_key (concat tables)] w, Done tt)
  /\ length (concat tables) = sum_list (length <$> tables).
Proof.
  intros Hmax Hsrc. split.
  - apply mergetuple_from_spec; [intros _; exact Hmax | exact Hsrc].
  - clear. induction tables as [|t ts IH]; simpl; [reflexivity|].
    rewrite length_app, IH. reflexivity.
Qed.

Lemma mergetuple_concatenates_witness :
  mergetuple_from 0 (0 + Z.of_nat (length [[example_row]; [example_row; example_row]; []]) - 1)
    world_missing_histogram
  = (with_root_file "merged_tuple.root"
       [merged_table_key (concat [[example_row]; [example_row; example_row]; []])]
       world_missing_histogram, Done tt)
  /\ length (concat [[example_row]; [example_row; example_row]; []])
     = sum_list (length <$> [[example_row]; [example_row; example_row]; []]).
Proof.
  apply (mergetuple_concatenates world_missing_histogram 0
           [[example_row]; [example_row; example_row]; []]).
  - vm_compute. reflexivity.
  - intros [|[|[|k]]] rows Hk; try discriminate;
      injection Hk as <-; vm_compute; reflexivity.
Defined.

(* ===================================================================== *)
(** * Properties of the export *)
(* ===================================================================== *)

(** The single nearest to 123.456 is 16181625 * 2^-17 (0x42F6E979),
    50.1 is 13133414 * 2^-18 (0x42486666): just above and just below the
    decimals they stand for. *)
Example float_lit_mass : float_lit 123456 1000 = S754_finite false 16181625 (-17).
Proof. reflexivity. Qed.

Example float_lit_leadPt : float_lit 501 10 = S754_finite false 13133414 (-18).
Proof. reflexivity. Qed.

Example put_fixed2_ties_to_even :
  put_fixed2 (float_lit 1 8) = "0.12" /\ put_fixed2 (float_lit 3 8) = "0.38".
Proof. split; reflexivity. Qed.

Example int_of_float_truncates :
  int_of_float (float_lit 79 10) = 7 /\ int_of_float (float_lit (-79) 10) = -7.
Proof. split; reflexivity. Qed.

Lemma append_assoc (a b c : string) : (a +:+ b) +:+ c = a +:+ (b +:+ c).
Proof.
  induction a as [|ch a IH]; [reflexivity|].
  change (String ch ((a +:+ b) +:+ c) = String ch (a +:+ (b +:+ c))).
  rewrite IH. reflexivity.
Qed.

Lemma append_empty_r (a : string) : a +:+ "" = a.
Proof.
  induction a as [|ch a IH]; [reflexivity|].
  change (String ch (a +:+ "") = String ch a). rewrite IH. reflexivity.
Qed.

Lemma newlines_append (a b : string) :
  newlines (a +:+ b) = (newlines a + newlines b)%nat.
Proof.
  induction a as [|ch a IH]; [reflexivity|].
  change (((if Ascii.eqb ch (Ascii.ascii_of_nat 10) then 1 else 0)
           + newlines (a +:+ b))%nat
          = ((if Ascii.eqb ch (Ascii.ascii_of_nat 10) then 1 else 0)
             + newlines a + newlines b)%nat).
  rewrite IH. lia.
Qed.

Lemma newlines_uint (d : Decimal.uint) : newlines (NilEmpty.string_of_uint d) = O.
Proof. induction d; simpl; auto. Qed.

Lemma newlines_dec (z : Z) : newlines (dec z) = O.
Proof.
  unfold dec, NilZero.string_of_int, NilZero.string_of_uint.
  destruct (Z.to_int z) as [d|d]; destruct d; simpl; auto using newlines_uint.
Qed.

Lemma newlines_put_fixed2 (x : spec_float) : newlines (put_fixed2 x) = O.
Proof.
  destruct x as [s|s| |s m e]; try (destruct s; reflexivity); [reflexivity|].
  unfold put_fixed2. cbv zeta.
  rewrite !newlines_append, !newlines_dec. destruct s; reflexivity.
Qed.

Lemma newlines_streamed (r : Row) : newlines (streamed r) = 1%nat.
Proof.
  unfold streamed, csv_row.
  rewrite !newlines_append, !newlines_dec, !newlines_put_fixed2. reflexivity.
Qed.

Lemma newlines_concat_streamed (rows : list Row) :
  newlines (concat_strings (streamed <$> rows)) = length rows.
Proof.
  induction rows as [|r rows IH]; [reflexivity|].
  rewrite fmap_cons. cbn [concat_strings length].
  rewrite newlines_append, newlines_streamed, IH. reflexivity.
Qed.

(** The row loop streams the rows [i], [i+1], ... one after the other. *)
Lemma write_entries_spec (n i : nat) (rows : list Row) (csv : string) :
  write_entries n i rows csv
  = csv +:+ concat_strings (streamed <$> take n (drop i rows)).
Proof.
  revert i csv. induction n as [|n IH]; intros i csv; cbn [write_entries].
  - rewrite take_0. cbn [fmap list_fmap concat_strings].
    rewrite append_empty_r. reflexivity.
  - destruct (rows !! i) as [r|] eqn:Hi.
    + rewrite IH, (drop_S _ _ _ Hi). rewrite firstn_cons, fmap_cons.
      cbn [concat_strings]. rewrite append_assoc. reflexivity.
    + rewrite IH. apply lookup_ge_None in Hi.
      rewrite !drop_ge by lia. rewrite !take_nil. reflexivity.
Qed.

(** What the export leaves in the CSV file, for a readable merged table. *)
Lemma drawTuple_spec (w : World) (rows : list Row) :
  merged_table w = Some rows ->
  drawTuple w
  = (with_cout ["Data has been saved to dijet_data.csv"]
       (with_text_file "dijet_data.csv"
          (csv_header +:+ endl +:+ concat_strings (streamed <$> rows))
          (with_text_file "dijet_data.csv" ""
             (with_cout ["Total number of entries: " +:+ dec (Z.of_nat (length rows))] w))),
     Done tt).
Proof.
  unfold merged_table, table_of, drawTuple, TFile_new, bind. intros H.
  destruct (root_files w !! "merged_tuple.root") as [keys|]; [|discriminate].
  simpl. rewrite TFile_Get_fresh.
  destruct (lookup_obj keys "mergedNtuple") as [[| rows' |]|]; try discriminate.
  injection H as ->. cbv beta iota.
  rewrite write_entries_spec, drop_0, firstn_all, append_assoc. reflexivity.
Qed.

Lemma drawTuple_csv (w : World) (rows : list Row) :
  merged_table w = Some rows ->
  text_files (fst (drawTuple w)) !! "dijet_data.csv"
  = Some (csv_header +:+ endl +:+ concat_strings (streamed <$> rows))
  /\ snd (drawTuple w) = Done tt.
Proof.
  intros H. rewrite (drawTuple_spec w rows H). simpl.
  split; [apply lookup_insert_eq | reflexivity].
Qed.

Lemma int_of_float_fits (x : Float_t) :
  fits_int x = true -> int_of_float x = truncated x.
Proof.
  unfold fits_int, int_of_float, truncated.
  destruct (Ztrunc x) as [z|]; [|discriminate]. intros ->. reflexivity.
Qed.

Lemma streamed_spec_line (r : Row) :
  int_fields_fit r = true -> streamed r = spec_line r +:+ endl.
Proof.
  unfold int_fields_fit. intros H.
  apply andb_prop in H as [H H3]. apply andb_prop in H as [H1 H2].
  unfold streamed, csv_row, spec_line.
  rewrite !int_of_float_fits by assumption.
  rewrite !append_assoc. reflexivity.
Qed.

Lemma forallb_pointwise_le {A : Type} (f g : A -> bool) (l : list A) :
  (forall x, f x = true -> g x = true) -> forallb f l = true -> forallb g l = true.
Proof.
  intros Hfg. induction l as [|x l IH]; [reflexivity|].
  cbn [forallb]. intros H. apply andb_prop in H as [Hx H].
  rewrite (Hfg x Hx), (IH H). reflexivity.
Qed.

Lemma concat_streamed_spec (rows : list Row) :
  forallb int_fields_fit rows = true ->
  concat_strings (streamed <$> rows)
  = concat_strings ((fun l => l +:+ endl) <$> (spec_line <$> rows)).
Proof.
  induction rows as [|r rows IH]; [reflexivity|].
  rewrite !fmap_cons. cbn [concat_strings forallb].
  intros H. apply andb_prop in H as [Hr Hrows].
  rewrite streamed_spec_line, IH by assumption. reflexivity.
Qed.

Lemma round_half_even_nearest (num den : Z) :
  0 <= num -> 0 < den ->
  0 <= round_half_even num den
  /\ Z.abs (2 * (num - round_half_even num den * den)) <= den.
Proof.
  intros Hnum Hden. unfold round_half_even.
  pose proof (Z.div_mod num den ltac:(lia)) as Hdm.
  pose proof (Z.mod_pos_bound num den Hden) as Hr.
  pose proof (Z.div_pos num den Hnum Hden) as Hq.
  destruct (Z.compare_spec (2 * (num mod den)) den) as [Heq|Hlt|Hgt].
  - destruct (Z.even (num / den)); split; nia.
  - split; nia.
  - split; nia.
Qed.

(** What [put_fixed2] writes for a finite value is its fixed-point
    notation with two decimals. *)
Lemma put_fixed2_two_decimals (x : spec_float) :
  is_finite x = true -> two_decimals x (put_fixed2 x).
Proof.
  destruct x as [s|s| |s m e]; try discriminate; intros _.
  - apply two_decimals_zero.
  - unfold put_fixed2. cbv zeta. apply two_decimals_finite.
    + unfold hundredths. destruct e as [|p|p].
      * lia.
      * pose proof (Z.pow_pos_nonneg 2 (Zpos p)). lia.
      * apply round_half_even_nearest; [lia|]. apply Z.pow_pos_nonneg; lia.
    + unfold nearest_hundredths, hundredths. destruct e as [|p|p]; try reflexivity.
      apply round_half_even_nearest; [lia|]. apply Z.pow_pos_nonneg; lia.
Qed.

Lemma exportable_floats (r : Row) :
  exportable r = true ->
  Forall (fun x => two_decimals x (put_fixed2 x)) (float_fields r).
Proof.
  unfold exportable. intros H. apply andb_prop in H as [_ H].
  apply Forall_forall. intros x Hx. apply put_fixed2_two_decimals.
  rewrite forallb_forall in H. apply H, list_elem_of_In, Hx.
Qed.

(** C2 (amended).  For every merged table whose fields are finite and
    whose event-index and parton-identifier fields have an integer part
    that fits a 32-bit [int], the export writes the header line
    [Event,Mass,LeadPt,SubleadPt,DeltaPhi,DeltaEta,x1,x2,Parton1,Parton2]
    and then one line per row in stored order, the seven float fields in
    fixed-point notation with two decimals and the three integer fields as
    integers with the fractional part truncated; the example row is
    exported as [7,123.46,50.10,30.20,3.14,0.01,0.00,0.50,21,-1]. *)
Theorem drawTuple_exports_rows (w : World) (rows : list Row) :
  merged_table w = Some rows ->
  forallb exportable rows = true ->
  text_files (fst (drawTuple w)) !! "dijet_data.csv" = Some (spec_csv rows)
  /\ snd (drawTuple w) = Done tt
  /\ Forall (fun r => Forall (fun x => two_decimals x (put_fixed2 x)) (float_fields r)) rows
  /\ spec_line example_row = "7,123.46,50.10,30.20,3.14,0.01,0.00,0.50,21,-1".
Proof.
  intros Htab Hfit.
  destruct (drawTuple_csv w rows Htab) as [Hcsv Hdone].
  split; [|split; [exact Hdone|split; [|vm_compute; reflexivity]]].
  - rewrite Hcsv. f_equal. unfold spec_csv, lines_text.
    rewrite fmap_cons. cbn [concat_strings].
    rewrite concat_streamed_spec.
    + rewrite append_assoc. reflexivity.
    + revert Hfit. apply forallb_pointwise_le.
      intros r Hr. unfold exportable in Hr. apply andb_prop in Hr as [Hr _]. exact Hr.
  - apply Forall_forall. intros r Hr. apply exportable_floats.
    rewrite forallb_forall in Hfit. apply Hfit, list_elem_of_In, Hr.
Qed.

Lemma drawTuple_exports_rows_witness :
  text_files (fst (drawTuple (world_with_merged [example_row]))) !! "dijet_data.csv"
  = Some (spec_csv [example_row])
  /\ snd (drawTuple (world_with_merged [example_row])) = Done tt
  /\ Forall (fun r => Forall (fun x => two_decimals x (put_fixed2 x)) (float_fields r))
            [example_row]
  /\ spec_line example_row = "7,123.46,50.10,30.20,3.14,0.01,0.00,0.50,21,-1".
Proof.
  apply (drawTuple_exports_rows (world_with_merged [example_row]) [example_row]);
    vm_compute; reflexivity.
Defined.

(** C2, as stated, fails on a row whose event index is past the [int]
    range: the export does not write the truncated value 3000000000.  It
    also fails on a row with a field that is not finite: an infinite mass
    is written as [inf], which is not fixed-point notation. *)
Lemma drawTuple_big_event_counterexample :
  (merged_table (world_with_merged [big_event_row]) = Some [big_event_row]
   /\ spec_line big_event_row = "3000000000,0.50,0.50,0.50,0.50,0.50,0.50,0.50,21,-1"
   /\ text_files (fst (drawTuple (world_with_merged [big_event_row]))) !! "dijet_data.csv"
      = Some (lines_text [csv_header;
                          "-2147483648,0.50,0.50,0.50,0.50,0.50,0.50,0.50,21,-1"])
   /\ text_files (fst (drawTuple (world_with_merged [big_event_row]))) !! "dijet_data.csv"
      <> Some (spec_csv [big_event_row]))
  /\ (text_files (fst (drawTuple (world_with_merged [infinite_mass_row]))) !! "dijet_data.csv"
      = Some (lines_text [csv_header; "7,inf,0.50,0.50,0.50,0.50,0.50,0.50,21,-1"])
      /\ ~ two_decimals (dijetMass infinite_mass_row)
                        (put_fixed2 (dijetMass infinite_mass_row))).
Proof.
  split; [split; [|split; [|split]]|split]; try (vm_compute; reflexivity).
  - vm_compute. discriminate.
  - intros H. inversion H.
Qed.

(** C10.  The header line is written before the rows whatever the table
    holds: the CSV starts with the header line, has exactly one line more
    than the table has rows, and is the header line alone for a table
    without rows. *)
Theorem drawTuple_header_and_line_count (w : World) (rows : list Row) :
  merged_table w = Some rows ->
  exists body,
    text_files (fst (drawTuple w)) !! "dijet_data.csv"
    = Some (csv_header +:+ endl +:+ body)
    /\ newlines (csv_header +:+ endl +:+ body) = S (length rows)
    /\ (rows = [] -> body = "")
    /\ snd (drawTuple w) = Done tt.
Proof.
  intros Htab. destruct (drawTuple_csv w rows Htab) as [Hcsv Hdone].
  exists (concat_strings (streamed <$> rows)).
  split; [exact Hcsv|]. split; [|split; [|exact Hdone]].
  - rewrite !newlines_append, newlines_concat_streamed. reflexivity.
  - intros ->. reflexivity.
Qed.

Lemma drawTuple_header_and_line_count_witness :
  exists body,
    text_files (fst (drawTuple (world_with_merged []))) !! "dijet_data.csv"
    = Some (csv_header +:+ endl +:+ body)
    /\ newlines (csv_header +:+ endl +:+ body) = 1%nat
    /\ ([] = @nil Row -> body = "")
    /\ snd (drawTuple (world_with_merged [])) = Done tt.
Proof.
  apply (drawTuple_header_and_line_count (world_with_merged []) []).
  vm_compute; reflexivity.
Defined.

(* ===================================================================== *)
(** * Properties of the histogram merger *)
(* ===================================================================== *)

Lemma with_cerr_twice (l1 l2 : list string) (w : World) :
  with_cerr l2 (with_cerr l1 w) = with_cerr (l1 ++ l2) w.
Proof. unfold with_cerr. simpl. rewrite app_assoc. reflexivity. Qed.

Lemma with_cerr_nil (w : World) : with_cerr [] w = w.
Proof. unfold with_cerr. rewrite app_nil_r. destruct w; reflexivity. Qed.

(** Adding keeps the class, the axes and the cell count of the
    accumulator, hence what can be added to it. *)
Lemma addable_TH1_sum (acc h h' : TH1) :
  addable acc h = true -> addable (TH1_sum acc h) h' = addable acc h'.
Proof.
  unfold addable. intros H.
  apply andb_prop in H as [H Hlen]. apply andb_prop in H as [Hcls Hax].
  simpl. rewrite length_zip_with.
  apply Nat.eqb_eq in Hlen. rewrite <- Hlen, Nat.min_id. reflexivity.
Qed.

Lemma same_binning_TH1_sum (acc h : TH1) (name : string) (src : option (list TKey)) :
  addable acc h = true ->
  same_binning (TH1_sum acc h) name src = same_binning acc name src.
Proof.
  intros H. unfold same_binning. destruct src as [keys|]; [|reflexivity].
  destruct (lookup_obj keys name) as [[h'| |]|]; try reflexivity.
  apply addable_TH1_sum, H.
Qed.

Lemma forallb_pointwise {A : Type} (f g : A -> bool) (l : list A) :
  (forall x, f x = g x) -> forallb f l = forallb g l.
Proof.
  intros Hfg. induction l as [|x l IH]; [reflexivity|].
  cbn [forallb]. rewrite Hfg, IH. reflexivity.
Qed.

(** One pass of the loop over the other files. *)
Lemma add_files_cons (n : string) (names : list string) (className histName : string)
    (h0 : TH1) (w : World) :
  add_files (n :: names) className histName h0 w
  = match root_files w !! n with
    | None => add_files names className histName h0 (with_cerr [open_error_line n] w)
    | Some keys =>
        match lookup_obj keys histName with
        | None =>
            add_files names className histName h0
              (with_cerr [not_found_line histName n] w)
        | Some (ObjTH1 h) =>
            match TH1_Add h0 h with
            | Some acc => add_files names className histName acc w
            | None => (w, Abort Inconsistent)
            end
        | Some _ => (w, Abort BadCast)
        end
    end.
Proof.
  cbn [add_files]. unfold bind at 1, TFile_Open.
  destruct (root_files w !! n) as [keys|]; cbn [fmap option_fmap option_map];
    [|reflexivity].
  rewrite TFile_Get_fresh.
  destruct (lookup_obj keys histName) as [[h| |]|];
    destruct (String.eqb className "TH2D"); cbn [cast_TH1]; try reflexivity;
    unfold bind, ret, abort, call_Add; destruct (TH1_Add h0 h); reflexivity.
Qed.

(** The loop over the other files adds the contributions of those that
    have the histogram, in enumeration order, and logs one line for each
    of the others. *)
Lemma add_files_spec (names : list string) (className histName : string) :
  forall (h0 : TH1) (w : World),
  forallb (same_binning h0 histName) ((fun n => root_files w !! n) <$> names) = true ->
  add_files names className histName h0 w
  = (with_cerr (add_diagnostics (root_files w) names histName) w,
     Done (merged_hist h0 ((fun n => root_files w !! n) <$> names) histName)).
Proof.
  induction names as [|n names IH]; intros h0 w Hsame.
  - cbn [add_files]. unfold ret, add_diagnostics. cbn. rewrite with_cerr_nil. reflexivity.
  - rewrite fmap_cons in Hsame. cbn [forallb] in Hsame.
    apply andb_prop in Hsame as [Hn Hrest].
    rewrite add_files_cons.
    unfold add_diagnostics, merged_hist, contributions.
    rewrite !fmap_cons. cbn [concat omap list_omap].
    unfold file_diagnostics at 1. unfold same_binning in Hn.
    unfold contribution at 1, hist_of at 1.
    destruct (root_files w !! n) as [keys|] eqn:Hfile.
    + destruct (lookup_obj keys histName) as [[h| |]|] eqn:Hobj; try discriminate.
      * unfold TH1_Add. rewrite Hn. rewrite IH.
        2:{ rewrite <- Hrest. apply forallb_pointwise.
            intros src. apply same_binning_TH1_sum, Hn. }
        reflexivity.
      * rewrite IH by (exact Hrest). rewrite with_cerr_twice. reflexivity.
    + rewrite IH by (exact Hrest). rewrite with_cerr_twice. reflexivity.
Qed.

Lemma AppendKey_fresh (k : TKey) (keys : list TKey) :
  key_name k ∉ key_name <$> keys -> AppendKey k keys = keys ++ [k].
Proof.
  induction keys as [|k' keys IH]; intros Hfresh; [reflexivity|].
  rewrite fmap_cons in Hfresh. apply not_elem_of_cons in Hfresh as [Hne Hfresh].
  cbn [AppendKey].
  destruct (String.eqb_spec (key_name k') (key_name k)) as [Heq|_].
  - congruence.
  - rewrite IH by exact Hfresh. reflexivity.
Qed.

(** Among uniquely named keys, a name finds its own key. *)
Lemma find_key_NoDup (keys : list TKey) (k : TKey) :
  NoDup (key_name <$> keys) -> k ∈ keys -> find_key (key_name k) keys = Some k.
Proof.
  unfold find_key. induction keys as [|k' keys IH]; intros Hnd Hin.
  - apply elem_of_nil in Hin. contradiction.
  - rewrite fmap_cons in Hnd. apply NoDup_cons in Hnd as [Hfresh Hnd].
    cbn [find]. apply elem_of_cons in Hin as [->|Hin].
    + rewrite String.eqb_refl. reflexivity.
    + destruct (String.eqb_spec (key_name k') (key_name k)) as [Heq|_].
      * exfalso. apply Hfresh. rewrite Heq. apply list_elem_of_fmap_2, Hin.
      * apply IH; assumption.
Qed.

(** A well-typed key of a histogram class stores a histogram of that class. *)
Lemma typed_histogram_key (k : TKey) :
  typed_key k = true -> not_histogram (key_class k) = false ->
  exists h, key_obj k = ObjTH1 h /\ key_class k = h_class h.
Proof.
  unfold typed_key. intros Ht Hc. destruct (key_obj k) as [h| |].
  - exists h. split; [reflexivity|]. apply String.eqb_eq, Ht.
  - apply String.eqb_eq in Ht. rewrite Ht in Hc. discriminate.
  - congruence.
Qed.

Lemma h_class_foldl_TH1_sum (hs : list TH1) (h0 : TH1) :
  h_class (foldl TH1_sum h0 hs) = h_class h0.
Proof.
  revert h0. induction hs as [|h hs IH]; intros h0; [reflexivity|].
  cbn [foldl]. rewrite IH. reflexivity.
Qed.

(** One pass of the loop over the keys of the first file. *)
Lemma merge_keys_cons (k : TKey) (rest : list TKey) (names : list string)
    (name0 : string) (firstFile : TFile) (out : list TKey) (w : World) :
  merge_keys (k :: rest) names name0 firstFile out w
  = if not_histogram (key_class k) then merge_keys rest names name0 firstFile out w
    else
      match fst (TFile_Get firstFile (key_name k)) with
      | None =>
          merge_keys rest names name0 (snd (TFile_Get firstFile (key_name k))) out
            (with_cerr ["Error loading histogram " +:+ key_name k +:+
                        " from file " +:+ name0] w)
      | Some (ObjTH1 h0) =>
          match add_files (tail names) (key_class k) (key_name k) h0 w with
          | (w', Done h) =>
              merge_keys rest names name0
                (mkTFile (fKeys (snd (TFile_Get firstFile (key_name k))))
                         (<[key_name k := ObjTH1 h]>
                            (fList (snd (TFile_Get firstFile (key_name k))))))
                (AppendKey (mkKey (key_name k) (h_class h) (ObjTH1 h) true) out) w'
          | (w', Abort f) => (w', Abort f)
          end
      | Some _ => (w, Abort BadCast)
      end.
Proof.
  cbn [merge_keys].
  destruct (not_histogram (key_class k)); [reflexivity|].
  destruct (fst (TFile_Get firstFile (key_name k))) as [[h0| |]|];
    destruct (String.eqb (key_class k) "TH2D"); reflexivity.
Qed.

(** The loop over the keys of the first file, for uniquely named and
    well-typed keys none of which has been read yet: every selected key
    gives one merged key, in the order of the first file. *)
Lemma merge_keys_spec (keys0 : list TKey) (names : list string) (name0 : string) :
  forall (rest : list TKey) (mem : gmap string TObject) (out : list TKey) (w : World),
  NoDup (key_name <$> rest) ->
  (forall k, k ∈ rest ->
     mem !! key_name k = None /\ find_key (key_name k) keys0 = Some k
     /\ key_name k ∉ key_name <$> out) ->
  forallb typed_key rest = true ->
  sources_share_binning rest ((fun n => root_files w !! n) <$> tail names) = true ->
  exists mem',
    merge_keys rest names name0 (mkTFile keys0 mem) out w
    = (with_cerr (concat (key_diagnostics (root_files w) (tail names) name0 <$> rest)) w,
       Done (mkTFile keys0 mem',
             out ++ merged_keys rest ((fun n => root_files w !! n) <$> tail names))).
Proof.
  induction rest as [|k rest IH]; intros mem out w Hnd Hinv Htyped Hshare.
  - exists mem. cbn. rewrite with_cerr_nil, app_nil_r. reflexivity.
  - rewrite fmap_cons in Hnd. apply NoDup_cons in Hnd as [Hfresh Hnd].
    cbn [forallb] in Htyped. apply andb_prop in Htyped as [Hk Htyped].
    unfold sources_share_binning in Hshare. cbn [forallb] in Hshare.
    apply andb_prop in Hshare as [Hshare_k Hshare].
    destruct (Hinv k) as (Hmem & Hfind & Hout); [apply elem_of_cons; left; reflexivity|].
    assert (Hinv_rest : forall (m' : gmap string TObject) (o' : list TKey),
              (forall k', k' ∈ rest -> m' !! key_name k' = None
                          /\ key_name k' ∉ key_name <$> o') ->
              forall x, x ∈ rest ->
              m' !! key_name x = None /\ find_key (key_name x) keys0 = Some x
              /\ key_name x ∉ key_name <$> o').
    { intros m' o' Hm x Hx. destruct (Hm x Hx) as [H1 H2].
      split; [exact H1|]. split; [|exact H2].
      apply Hinv. apply elem_of_cons. right. exact Hx. }
    rewrite merge_keys_cons. rewrite fmap_cons. cbn [concat].
    unfold merged_keys. cbn [omap list_omap].
    unfold key_diagnostics at 1, merged_key at 1, selected at 1.
    unfold selected in Hshare_k.
    destruct (not_histogram (key_class k)) eqn:Hcls.
    + (* a key of another class is passed over *)
      destruct (IH mem out w) as [mem' Hrun]; try assumption.
      { intros x Hx. apply Hinv. apply elem_of_cons. right. exact Hx. }
      exists mem'. exact Hrun.
    + unfold TFile_Get. cbn [fList fKeys]. rewrite Hmem, Hfind.
      destruct (key_readable k) eqn:Hread.
      * (* the histogram is read and the other files are added to it *)
        destruct (typed_histogram_key k Hk Hcls) as (h0 & Hobj & Hclass).
        rewrite Hobj in *. cbn [auto_add fst snd fList fKeys].
        rewrite add_files_spec by exact Hshare_k.
        set (h := merged_hist h0 ((fun n => root_files w !! n) <$> tail names) (key_name k)).
        assert (Hh : h_class h = h_class h0) by apply h_class_foldl_TH1_sum.
        rewrite AppendKey_fresh by exact Hout.
        destruct (IH (<[key_name k := ObjTH1 h]> (<[key_name k := ObjTH1 h0]> mem))
                     (out ++ [mkKey (key_name k) (h_class h) (ObjTH1 h) true])
                     (with_cerr (add_diagnostics (root_files w) (tail names) (key_name k)) w))
          as [mem' Hrun]; try assumption.
        { apply Hinv_rest. intros k' Hk'.
          assert (Hne : key_name k <> key_name k').
          { intros Heq. apply Hfresh. rewrite Heq. apply list_elem_of_fmap_2, Hk'. }
          split.
          - rewrite !lookup_insert_ne by exact Hne.
            apply (Hinv k'). apply elem_of_cons. right. exact Hk'.
          - rewrite fmap_app. apply not_elem_of_app. split.
            + apply (Hinv k'). apply elem_of_cons. right. exact Hk'.
            + cbn. apply not_elem_of_cons. split; [congruence | apply not_elem_of_nil]. }
        exists mem'. rewrite Hrun. cbn [root_files with_cerr].
        rewrite with_cerr_twice, Hh, <- app_assoc. reflexivity.
      * (* the histogram cannot be read: one line, and on to the next key *)
        cbn [fst snd].
        destruct (IH mem out
                     (with_cerr ["Error loading histogram " +:+ key_name k +:+
                                 " from file " +:+ name0] w))
          as [mem' Hrun]; try assumption.
        { intros x Hx. apply Hinv. apply elem_of_cons. right. exact Hx. }
        exists mem'. rewrite Hrun. cbn [root_files with_cerr].
        rewrite with_cerr_twice. reflexivity.
Qed.

(** The loop that builds [fileNames]. *)
Lemma for_int_names (n : nat) :
  forall (i : Z) (acc : list string) (w : World),
  (n <> O -> i + Z.of_nat n - 1 < INT_MAX) ->
  for_int n i (fun i names => ret (names ++ [AnalysisResults i])) acc w
  = (w, Done (acc ++ (AnalysisResults <$> seqZ i (Z.of_nat n)))).
Proof.
  induction n as [|n IH]; intros i acc w Hmax.
  - cbn. rewrite app_nil_r. reflexivity.
  - cbn [for_int]. unfold bind, ret.
    assert (Hlt : i < INT_MAX) by (specialize (Hmax ltac:(discriminate)); lia).
    destruct (Z.eqb_spec i INT_MAX) as [->|_]; [lia|].
    rewrite IH by (intros _; specialize (Hmax ltac:(discriminate)); lia).
    rewrite (seqZ_cons i (Z.of_nat (S n))) by lia.
    rewrite fmap_cons, <- app_assoc.
    replace (Z.pred (Z.of_nat (S n))) with (Z.of_nat n) by lia.
    replace (Z.succ i) with (i + 1) by lia. reflexivity.
Qed.

Lemma lookups_recreate (name : string) (v : list TKey) (fs : gmap string (list TKey))
    (l : list Z) :
  (forall i, name <> AnalysisResults i) ->
  (fun n => <[name := v]> fs !! n) <$> (AnalysisResults <$> l)
  = (fun i => fs !! AnalysisResults i) <$> l.
Proof.
  intros Hne. induction l as [|i l IH]; [reflexivity|].
  rewrite !fmap_cons, IH, lookup_insert_ne by apply Hne. reflexivity.
Qed.

Lemma add_diagnostics_recreate (name : string) (v : list TKey)
    (fs : gmap string (list TKey)) (l : list Z) (histName : string) :
  (forall i, name <> AnalysisResults i) ->
  add_diagnostics (<[name := v]> fs) (AnalysisResults <$> l) histName
  = add_diagnostics fs (AnalysisResults <$> l) histName.
Proof.
  intros Hne. unfold add_diagnostics. f_equal.
  induction l as [|i l IH]; [reflexivity|].
  rewrite !fmap_cons, IH. unfold file_diagnostics at 1 3.
  rewrite lookup_insert_ne by apply Hne. reflexivity.
Qed.

Lemma key_diagnostics_recreate (name : string) (v : list TKey)
    (fs : gmap string (list TKey)) (l : list Z) (name0 : string) (keys : list TKey) :
  (forall i, name <> AnalysisResults i) ->
  key_diagnostics (<[name := v]> fs) (AnalysisResults <$> l) name0 <$> keys
  = key_diagnostics fs (AnalysisResults <$> l) name0 <$> keys.
Proof.
  intros Hne. induction keys as [|k keys IH]; [reflexivity|].
  rewrite !fmap_cons, IH. unfold key_diagnostics at 1 3.
  rewrite add_diagnostics_recreate by exact Hne. reflexivity.
Qed.

(** The first loop of the macro gives the names of the files of the range. *)
Lemma mergemacro_from_names (w : World) (start end_ : Z) :
  end_ < INT_MAX ->
  mergemacro_from start end_ w
  = mergemacro_files (AnalysisResults <$> seqZ start (end_ + 1 - start)) w.
Proof.
  intros Hmax. unfold mergemacro_from, for_range, bind at 1.
  rewrite for_int_names by lia. rewrite app_nil_l.
  destruct (Z.le_gt_cases start end_) as [Hle|Hgt].
  - replace (Z.of_nat (Z.to_nat (end_ + 1 - start))) with (end_ + 1 - start) by lia.
    reflexivity.
  - replace (Z.to_nat (end_ + 1 - start)) with O by lia.
    rewrite (seqZ_nil start (end_ + 1 - start)) by lia. reflexivity.
Qed.

(** Unpacking the well-formedness of a run output into its two parts. *)
Ltac unpack_ok H Hnd Htyped :=
  unfold run_output_ok in H; apply andb_prop in H as [Hnd Htyped];
  apply bool_decide_eq_true in Hnd.

(** The merge of well-formed run outputs, in full: the merged file holds
    one histogram for each selected key of the first source, the sum of
    that histogram and the same-named ones of the other sources, and one
    line is logged for each source that could not contribute. *)
Lemma mergemacro_spec (w : World) (start end_ : Z) (keys0 : list TKey) :
  start <= end_ -> end_ < INT_MAX ->
  source w start = Some keys0 ->
  run_output_ok keys0 = true ->
  sources_share_binning keys0 (other_sources w start end_) = true ->
  mergemacro_from start end_ w
  = (with_root_file "merged_AnalysisResults.root"
       (merged_keys keys0 (other_sources w start end_))
       (with_cerr (concat (key_diagnostics (root_files w) (other_names start end_)
                             (AnalysisResults start) <$> keys0)) w),
     Done tt).
Proof.
  intros Hle Hmax Hsrc Hok Hshare.
  unpack_ok Hok Hnd Htyped.
  rewrite mergemacro_from_names by exact Hmax. unfold mergemacro_files.
  rewrite (seqZ_cons start) by lia. rewrite fmap_cons.
  replace (Z.succ start) with (start + 1) by lia.
  replace (Z.pred (end_ + 1 - start)) with (end_ - start) by lia.
  fold (other_names start end_).
  unfold bind at 1, TFile_recreate.
  unfold bind at 1, vector_at. cbn [lookup list_lookup]. unfold ret at 1.
  unfold bind at 1, TFile_Open.
  unfold source in Hsrc.
  assert (Hopen : root_files (with_root_file "merged_AnalysisResults.root" [] w)
                    !! AnalysisResults start = Some keys0).
  { unfold with_root_file. cbn [root_files].
    rewrite lookup_insert_ne by apply AnalysisResults_not_merged_hists. exact Hsrc. }
  rewrite Hopen. cbn [fmap option_fmap option_map].
  unfold bind at 1, ret at 1. unfold bind at 1. cbn [fKeys].
  destruct (merge_keys_spec keys0 (AnalysisResults start :: other_names start end_)
              (AnalysisResults start) keys0 ∅ []
              (with_root_file "merged_AnalysisResults.root" [] w))
    as [mem' Hrun].
  - exact Hnd.
  - intros k Hk. split; [apply lookup_empty|]. split.
    + apply find_key_NoDup; assumption.
    + apply not_elem_of_nil.
  - exact Htyped.
  - cbn [tail]. unfold with_root_file. cbn [root_files]. unfold other_names.
    rewrite lookups_recreate by apply AnalysisResults_not_merged_hists.
    exact Hshare.
  - rewrite Hrun. cbn [tail snd]. unfold TFile_commit.
    unfold with_root_file at 2 3 5. cbn [root_files]. unfold other_names.
    rewrite lookups_recreate by apply AnalysisResults_not_merged_hists.
    rewrite key_diagnostics_recreate by apply AnalysisResults_not_merged_hists.
    f_equal. unfold with_root_file, with_cerr. cbn.
    rewrite insert_insert_eq. reflexivity.
Qed.

Lemma merged_key_name (others : list (option (list TKey))) (k mk : TKey) :
  merged_key others k = Some mk -> key_name mk = key_name k.
Proof.
  unfold merged_key. destruct (selected k); [|discriminate].
  intros [= <-]. reflexivity.
Qed.

Lemma merged_keys_names (keys0 : list TKey) (others : list (option (list TKey))) (name : string) :
  name ∈ key_name <$> merged_keys keys0 others -> name ∈ key_name <$> keys0.
Proof.
  intros H. apply list_elem_of_fmap in H as (mk & -> & Hmk).
  apply list_elem_of_omap in Hmk as (k & Hk & Hmerged).
  rewrite (merged_key_name _ _ _ Hmerged). apply list_elem_of_fmap_2, Hk.
Qed.

Lemma merged_keys_NoDup (keys0 : list TKey) (others : list (option (list TKey))) :
  NoDup (key_name <$> keys0) -> NoDup (key_name <$> merged_keys keys0 others).
Proof.
  induction keys0 as [|k keys0 IH]; intros Hnd; [constructor|].
  rewrite fmap_cons in Hnd. apply NoDup_cons in Hnd as [Hfresh Hnd].
  unfold merged_keys. cbn [omap list_omap].
  destruct (merged_key others k) as [mk|] eqn:Hmk; [|apply IH, Hnd].
  rewrite fmap_cons. apply NoDup_cons. split; [|apply IH, Hnd].
  rewrite (merged_key_name _ _ _ Hmk). intros Hin. apply Hfresh.
  eapply merged_keys_names, Hin.
Qed.

(** The merged file holds, under the name of a selected key, the sum of
    its histogram and the contributions. *)
Lemma hist_of_merged_keys (keys0 : list TKey) (others : list (option (list TKey)))
    (k0 : TKey) (h0 : TH1) :
  NoDup (key_name <$> keys0) -> k0 ∈ keys0 -> selected k0 = Some h0 ->
  hist_of (merged_keys keys0 others) (key_name k0)
  = Some (merged_hist h0 others (key_name k0)).
Proof.
  intros Hnd Hin Hsel.
  set (mk := mkKey (key_name k0) (h_class h0)
                   (ObjTH1 (merged_hist h0 others (key_name k0))) true).
  assert (Hmk : mk ∈ merged_keys keys0 others).
  { apply list_elem_of_omap. exists k0. split; [exact Hin|].
    unfold merged_key. rewrite Hsel. reflexivity. }
  unfold hist_of, lookup_obj.
  change (key_name k0) with (key_name mk) at 1.
  rewrite (find_key_NoDup _ mk (merged_keys_NoDup _ _ Hnd) Hmk). reflexivity.
Qed.

(** A source without the histogram can be left out of the sum. *)
Lemma contributions_skip (name : string) (before after : list (option (list TKey)))
    (src : option (list TKey)) :
  contribution name src = None ->
  contributions (before ++ src :: after) name = contributions (before ++ after) name.
Proof.
  intros Hnone. unfold contributions. rewrite !omap_app. cbn [omap list_omap].
  rewrite Hnone. reflexivity.
Qed.

Lemma seqZ_split (start end_ i : Z) :
  start < i <= end_ ->
  seqZ (start + 1) (end_ - start)
  = seqZ (start + 1) (i - start - 1) ++ i :: seqZ (i + 1) (end_ - i).
Proof.
  intros Hi.
  replace (end_ - start) with ((i - start - 1) + (end_ - i + 1)) by lia.
  rewrite seqZ_app by lia.
  replace (start + 1 + (i - start - 1)) with i by lia.
  rewrite (seqZ_cons i) by lia.
  replace (Z.succ i) with (i + 1) by lia.
  replace (Z.pred (end_ - i + 1)) with (end_ - i) by lia. reflexivity.
Qed.

Lemma elem_of_concat_fmap {A B : Type} (f : A -> list B) (l : list A) (a : A) (b : B) :
  a ∈ l -> b ∈ f a -> b ∈ concat (f <$> l).
Proof.
  intros Ha Hb. induction l as [|x l IH].
  - apply elem_of_nil in Ha. contradiction.
  - rewrite fmap_cons. cbn [concat]. apply elem_of_app.
    apply elem_of_cons in Ha as [->|Ha]; [left; exact Hb | right; apply IH, Ha].
Qed.

Lemma selected_recognized (k : TKey) (h0 : TH1) :
  selected k = Some h0 ->
  not_histogram (key_class k) = false /\ key_readable k = true
  /\ key_obj k = ObjTH1 h0.
Proof.
  unfold selected. destruct (not_histogram (key_class k)); [discriminate|].
  destruct (key_readable k); [|discriminate].
  destruct (key_obj k); try discriminate. intros [= ->]. auto.
Qed.

(** The line a source logs for a selected histogram it cannot give. *)
Lemma diagnostic_logged (fs : gmap string (list TKey)) (start end_ i : Z)
    (name0 line : string) (keys0 : list TKey) (k0 : TKey) (h0 : TH1) :
  start < i <= end_ -> k0 ∈ keys0 -> selected k0 = Some h0 ->
  file_diagnostics fs (key_name k0) (AnalysisResults i) = [line] ->
  line ∈ concat (key_diagnostics fs (other_names start end_) name0 <$> keys0).
Proof.
  intros Hi Hin Hsel Hline.
  apply (elem_of_concat_fmap _ _ k0); [exact Hin|].
  destruct (selected_recognized _ _ Hsel) as (Hcls & Hread & _).
  unfold key_diagnostics. rewrite Hcls, Hread.
  unfold add_diagnostics.
  apply (elem_of_concat_fmap _ _ (AnalysisResults i)).
  - unfold other_names. apply list_elem_of_fmap_2. apply elem_of_seqZ. lia.
  - rewrite Hline. apply elem_of_cons. left. reflexivity.
Qed.

(** The merged histogram of a selected key when source [i] gives nothing
    for it: the sum over the other sources. *)
Lemma merged_hist_without (w : World) (start end_ i : Z) (name : string) (h0 : TH1) :
  start < i <= end_ ->
  contribution name (source w i) = None ->
  merged_hist h0 (other_sources w start end_) name
  = foldl TH1_sum h0
      (contributions (source w <$> (seqZ (start + 1) (i - start - 1)
                                    ++ seqZ (i + 1) (end_ - i))) name).
Proof.
  intros Hi Hnone. unfold merged_hist, other_sources.
  rewrite (seqZ_split start end_ i Hi), !fmap_app, fmap_cons.
  rewrite contributions_skip by exact Hnone. reflexivity.
Qed.

Lemma NoDup_fmap_same {A B : Type} (f : A -> B) (l : list A) (x y : A) :
  NoDup (f <$> l) -> x ∈ l -> y ∈ l -> f x = f y -> x = y.
Proof.
  induction l as [|a l IH]; intros Hnd Hx Hy Hxy.
  - apply elem_of_nil in Hx. contradiction.
  - rewrite fmap_cons in Hnd. apply NoDup_cons in Hnd as [Hfresh Hnd].
    apply elem_of_cons in Hx as [->|Hx]; apply elem_of_cons in Hy as [->|Hy].
    + reflexivity.
    + exfalso. apply Hfresh. rewrite Hxy. apply list_elem_of_fmap_2, Hy.
    + exfalso. apply Hfresh. rewrite <- Hxy. apply list_elem_of_fmap_2, Hx.
    + apply IH; assumption.
Qed.

(** The merged keys are those of the recognized, readable keys of the
    first source, under the same names and classes and in the same order. *)
Lemma merged_keys_filter (keys0 : list TKey) (others : list (option (list TKey))) :
  forallb typed_key keys0 = true ->
  (fun k => (key_name k, key_class k)) <$> merged_keys keys0 others
  = (fun k => (key_name k, key_class k)) <$> List.filter recognized_and_readable keys0.
Proof.
  induction keys0 as [|k keys0 IH]; intros Htyped; [reflexivity|].
  cbn [forallb] in Htyped. apply andb_prop in Htyped as [Hk Htyped].
  unfold merged_keys. cbn [omap list_omap List.filter].
  fold (merged_keys keys0 others).
  unfold merged_key, selected, recognized_and_readable.
  destruct (not_histogram (key_class k)) eqn:Hcls; cbn [negb andb]; [apply IH, Htyped|].
  destruct (key_readable k); [|apply IH, Htyped].
  destruct (typed_histogram_key k Hk Hcls) as (h0 & Hobj & Hclass).
  rewrite Hobj, !fmap_cons, IH by exact Htyped. cbn [key_name key_class].
  rewrite Hclass. reflexivity.
Qed.

(** The keys of other classes add nothing to the log. *)
Lemma key_diagnostics_filter (fs : gmap string (list TKey)) (names : list string)
    (name0 : string) (keys0 : list TKey) :
  concat (key_diagnostics fs names name0 <$> keys0)
  = concat (key_diagnostics fs names name0
              <$> List.filter (fun k => negb (not_histogram (key_class k))) keys0).
Proof.
  induction keys0 as [|k keys0 IH]; [reflexivity|].
  rewrite fmap_cons. cbn [concat List.filter].
  destruct (not_histogram (key_class k)) eqn:Hcls; cbn [negb].
  - unfold key_diagnostics at 1. rewrite Hcls. exact IH.
  - rewrite fmap_cons. cbn [concat]. rewrite IH. reflexivity.
Qed.

(** ** The sum of the merge is the bin-wise sum *)

Lemma bin_wise_sum_nil (h0 : TH1) : bin_wise_sum h0 [] = h0.
Proof.
  destruct h0 as [class axes cells entries].
  unfold bin_wise_sum, summed_cells, summed_entries, summed_cell.
  cbn [h_class h_axes h_cells h_entries foldl]. f_equal.
  apply list_eq. intros j. rewrite list_lookup_imap.
  destruct (cells !! j); reflexivity.
Qed.

(** One [Add] more is one histogram more in every bin. *)
Lemma bin_wise_sum_cons (h0 h : TH1) (hs : list TH1) :
  length (h_cells h) = length (h_cells h0) ->
  bin_wise_sum (TH1_sum h0 h) hs = bin_wise_sum h0 (h :: hs).
Proof.
  intros Hlen. unfold bin_wise_sum, summed_cells, summed_entries.
  cbn [TH1_sum h_class h_axes h_cells h_entries foldl]. f_equal.
  apply list_eq. intros j. rewrite !list_lookup_imap, lookup_zip_with.
  destruct (h_cells h0 !! j) as [x|] eqn:Hx; [|reflexivity].
  destruct (h_cells h !! j) as [y|] eqn:Hy.
  - cbn. unfold summed_cell. cbn [foldl]. rewrite Hy. reflexivity.
  - apply lookup_lt_Some in Hx. apply lookup_ge_None in Hy. lia.
Qed.

Lemma foldl_TH1_sum_bin_wise (hs : list TH1) :
  forall h0 : TH1,
  Forall (fun h => length (h_cells h) = length (h_cells h0)) hs ->
  foldl TH1_sum h0 hs = bin_wise_sum h0 hs.
Proof.
  induction hs as [|h hs IH]; intros h0 Hlen; cbn [foldl].
  - symmetry. apply bin_wise_sum_nil.
  - apply Forall_cons in Hlen as [Hh Hlen].
    rewrite IH.
    + apply bin_wise_sum_cons, Hh.
    + eapply Forall_impl; [exact Hlen|]. intros h' Hh'. cbv beta in Hh'.
      unfold TH1_sum. cbn [h_cells]. rewrite length_zip_with. lia.
Qed.

(** What the other sources contribute has the cells of the histogram of
    the first source, when the binning is shared. *)
Lemma contributions_same_cells (others : list (option (list TKey))) (name : string)
    (h0 : TH1) :
  forallb (same_binning h0 name) others = true ->
  Forall (fun h => length (h_cells h) = length (h_cells h0)) (contributions others name).
Proof.
  unfold contributions. induction others as [|src others IH]; intros Hsame; [constructor|].
  cbn [forallb] in Hsame. apply andb_prop in Hsame as [Hs Hsame].
  cbn [omap list_omap].
  destruct (contribution name src) as [h|] eqn:Hcontr; [|apply IH, Hsame].
  constructor; [|apply IH, Hsame].
  unfold same_binning in Hs. unfold contribution, hist_of in Hcontr.
  destruct src as [keys|]; [|discriminate].
  destruct (lookup_obj keys name) as [[h'| |]|]; try discriminate.
  injection Hcontr as <-. unfold addable in Hs.
  apply andb_prop in Hs as [_ Hlen]. apply Nat.eqb_eq in Hlen. lia.
Qed.

Lemma sources_share_binning_elem (keys0 : list TKey)
    (others : list (option (list TKey))) (k0 : TKey) (h0 : TH1) :
  sources_share_binning keys0 others = true ->
  k0 ∈ keys0 -> selected k0 = Some h0 ->
  forallb (same_binning h0 (key_name k0)) others = true.
Proof.
  unfold sources_share_binning. intros Hshare Hin Hsel.
  rewrite forallb_forall in Hshare.
  specialize (Hshare k0 (proj1 (list_elem_of_In _ _) Hin)).
  rewrite Hsel in Hshare. exact Hshare.
Qed.

(** ** The class test is the test for the three kinds *)

Lemma not_histogram_kind (class : string) :
  not_histogram class = negb (is_histogram_kind class).
Proof.
  unfold not_histogram, is_histogram_kind, histogram_kinds.
  destruct (String.eqb_spec class "TH1F") as [->|H1]; [reflexivity|].
  destruct (String.eqb_spec class "TH1D") as [->|H2]; [reflexivity|].
  destruct (String.eqb_spec class "TH2D") as [->|H3]; [reflexivity|].
  rewrite bool_decide_eq_false_2; [reflexivity|].
  intros Hin. repeat (apply elem_of_cons in Hin as [Hin|Hin]; [congruence|]).
  apply elem_of_nil in Hin. exact Hin.
Qed.

Lemma key_diagnostics_kinds (fs : gmap string (list TKey)) (names : list string)
    (name0 : string) (keys0 : list TKey) :
  concat (key_diagnostics fs names name0 <$> keys0)
  = concat (kind_diagnostics fs names name0
              <$> List.filter (fun k => is_histogram_kind (key_class k)) keys0).
Proof.
  induction keys0 as [|k keys0 IH]; [reflexivity|].
  rewrite fmap_cons. cbn [concat List.filter]. unfold key_diagnostics at 1.
  rewrite not_histogram_kind.
  destruct (is_histogram_kind (key_class k)); cbn [negb].
  - rewrite fmap_cons. cbn [concat]. rewrite IH. reflexivity.
  - exact IH.
Qed.

(** ** The tuple merge stops at the first source without a table *)

(** One pass of a counted loop. *)
Lemma for_int_step {S : Type} (n : nat) (i : Z) (body : Z -> S -> M S) (s : S)
    (w : World) :
  for_int (Datatypes.S n) i body s w
  = match body i s w with
    | (w', Done s') =>
        if i =? INT_MAX then (w', Abort SignedOverflow)
        else for_int n (i + 1) body s' w'
    | (w', Abort f) => (w', Abort f)
    end.
Proof.
  cbn [for_int]. unfold bind. destruct (body i s w) as [w' [s'|f]]; [|reflexivity].
  destruct (i =? INT_MAX); reflexivity.
Qed.

Lemma mergetuple_from_unfold (w : World) (start end_ : Z) :
  mergetuple_from start end_ w
  = match for_int (Z.to_nat (end_ + 1 - start)) start mergetuple_file []
            (with_root_file "merged_tuple.root" [] w) with
    | (w', Done rows) =>
        (with_root_file "merged_tuple.root" [merged_table_key rows] w', Done tt)
    | (w', Abort f) => (w', Abort f)
    end.
Proof. reflexivity. Qed.

Lemma mergetuple_file_null (w : World) (j : Z) (merged : list Row) :
  no_table w j -> mergetuple_file j merged w = (w, Abort NullDeref).
Proof.
  unfold no_table, source, mergetuple_file, TFile_new, bind. intros H. cbn [fst snd].
  destruct (root_files w !! AnalysisResults j) as [keys|]; cbn [default];
    rewrite TFile_Get_fresh.
  - change (id keys) with keys. rewrite H. reflexivity.
  - reflexivity.
Qed.

Lemma for_int_mergetuple_stops (w : World) (j : Z) (n : nat) :
  forall (i : Z) (merged : list Row),
  i <= j < i + Z.of_nat n -> j <= INT_MAX ->
  (forall j', i <= j' < j -> exists rows, source_table w j' = Some rows) ->
  no_table w j ->
  for_int n i mergetuple_file merged w = (w, Abort NullDeref).
Proof.
  induction n as [|n IH]; intros i merged Hj Hmax Hbefore Hnone; [lia|].
  rewrite for_int_step.
  destruct (Z.eq_dec i j) as [->|Hne].
  - rewrite (mergetuple_file_null w j merged Hnone). reflexivity.
  - destruct (Hbefore i) as [rows Hrows]; [lia|].
    rewrite (mergetuple_file_ok w i rows merged Hrows).
    destruct (Z.eqb_spec i INT_MAX) as [->|_]; [lia|].
    apply IH; try assumption; [lia|].
    intros j' Hj'. apply Hbefore. lia.
Qed.

Section WellFormedSources.

(** A merge over a range [start .. end_] within [int], whose first source
    can be opened and is a well-formed run output, the other sources
    holding, under the names of its histograms, histograms of the same
    binning if anything. *)
Variables (w : World) (start end_ : Z) (keys0 : list TKey).
Hypothesis range_ok : start <= end_ < INT_MAX.
Hypothesis first_opens : source w start = Some keys0.
Hypothesis first_ok : run_output_ok keys0 = true.
Hypothesis binning_ok :
  sources_share_binning keys0 (other_sources w start end_) = true.

Lemma merge_completes : snd (mergemacro_from start end_ w) = Done tt.
Proof.
  rewrite (mergemacro_spec w start end_ keys0); try assumption; try lia.
  reflexivity.
Qed.

Lemma merged_file :
  merged_hists (fst (mergemacro_from start end_ w))
  = Some (merged_keys keys0 (other_sources w start end_)).
Proof.
  rewrite (mergemacro_spec w start end_ keys0); try assumption; try lia.
  unfold merged_hists, with_root_file. cbn [fst root_files]. apply lookup_insert_eq.
Qed.

Lemma merge_log :
  cerr (fst (mergemacro_from start end_ w))
  = cerr w ++ concat (key_diagnostics (root_files w) (other_names start end_)
                        (AnalysisResults start) <$> keys0).
Proof.
  rewrite (mergemacro_spec w start end_ keys0); try assumption; try lia.
  reflexivity.
Qed.

(** The merged histogram of a selected key, when source [i] gives nothing
    for it. *)
Lemma merged_histogram_without (i : Z) (k0 : TKey) (h0 : TH1) :
  k0 ∈ keys0 -> selected k0 = Some h0 ->
  start < i <= end_ ->
  contribution (key_name k0) (source w i) = None ->
  exists out,
    merged_hists (fst (mergemacro_from start end_ w)) = Some out
    /\ hist_of out (key_name k0)
       = Some (foldl TH1_sum h0
                 (contributions
                    (source w <$> (seqZ (start + 1) (i - start - 1)
                                   ++ seqZ (i + 1) (end_ - i)))
                    (key_name k0))).
Proof.
  intros Hin Hsel Hi Hnone.
  exists (merged_keys keys0 (other_sources w start end_)). split; [apply merged_file|].
  pose proof first_ok as Hok. unpack_ok Hok Hnd Htyped.
  rewrite (hist_of_merged_keys _ _ k0 h0 Hnd Hin Hsel). f_equal.
  apply merged_hist_without; assumption.
Qed.

(** The merged histogram of a selected key, when source [i] gives nothing
    for it, bin by bin. *)
Lemma merged_histogram_is_the_sum_without (i : Z) (k0 : TKey) (h0 : TH1) :
  k0 ∈ keys0 -> selected k0 = Some h0 ->
  start < i <= end_ ->
  contribution (key_name k0) (source w i) = None ->
  exists out,
    merged_hists (fst (mergemacro_from start end_ w)) = Some out
    /\ hist_of out (key_name k0)
       = Some (bin_wise_sum h0
                 (contributions
                    (source w <$> (seqZ (start + 1) (i - start - 1)
                                   ++ seqZ (i + 1) (end_ - i)))
                    (key_name k0))).
Proof.
  intros Hin Hsel Hi Hnone.
  destruct (merged_histogram_without i k0 h0 Hin Hsel Hi Hnone) as (out & Hout & Hh).
  exists out. split; [exact Hout|]. rewrite Hh. f_equal.
  apply foldl_TH1_sum_bin_wise.
  pose proof (contributions_same_cells (other_sources w start end_) (key_name k0) h0
                (sources_share_binning_elem _ _ k0 h0 binning_ok Hin Hsel)) as Hcells.
  unfold other_sources in Hcells.
  rewrite (seqZ_split start end_ i Hi), !fmap_app, fmap_cons in Hcells.
  rewrite contributions_skip in Hcells by exact Hnone.
  rewrite fmap_app. exact Hcells.
Qed.

(** C3.  When source [i >= 1] can be opened but has no entry named as a
    histogram [H] that the merge takes from source 0, the merge still
    completes, the merged [H] is the bin-wise sum over source 0 and the
    other sources that have [H] (class and axes of source 0's, each cell
    the sum of the cells of its index, the entry count the sum of the
    entry counts), source [i] adding nothing, and the line
    [Histogram H not found in file AnalysisResults<i>.root] is logged. *)
Theorem missing_histogram_is_tolerated (i : Z) (keys_i : list TKey)
    (k0 : TKey) (h0 : TH1) :
  k0 ∈ keys0 -> selected k0 = Some h0 ->
  start < i <= end_ ->
  source w i = Some keys_i -> lookup_obj keys_i (key_name k0) = None ->
  snd (mergemacro_from start end_ w) = Done tt
  /\ (exists out,
        merged_hists (fst (mergemacro_from start end_ w)) = Some out
        /\ hist_of out (key_name k0)
           = Some (bin_wise_sum h0
                     (contributions
                        (source w <$> (seqZ (start + 1) (i - start - 1)
                                       ++ seqZ (i + 1) (end_ - i)))
                        (key_name k0))))
  /\ ("Histogram " +:+ key_name k0 +:+ " not found in file AnalysisResults"
      +:+ dec i +:+ ".root") ∈ cerr (fst (mergemacro_from start end_ w)).
Proof.
  intros Hin Hsel Hi Hsrc_i Hmissing.
  split; [apply merge_completes|]. split.
  - apply merged_histogram_is_the_sum_without; try assumption.
    rewrite Hsrc_i. unfold contribution, hist_of. rewrite Hmissing. reflexivity.
  - rewrite merge_log. apply elem_of_app. right.
    apply (diagnostic_logged _ start end_ i _ _ keys0 k0 h0 Hi Hin Hsel).
    unfold file_diagnostics. unfold source in Hsrc_i. rewrite Hsrc_i, Hmissing.
    reflexivity.
Qed.

(** What the merge takes up, in terms of the class test of the macro. *)
Lemma merge_takes_recognized_keys :
  exists out,
    merged_hists (fst (mergemacro_from start end_ w)) = Some out
    /\ (fun k => (key_name k, key_class k)) <$> out
       = (fun k => (key_name k, key_class k))
           <$> List.filter recognized_and_readable keys0
    /\ Forall (fun k => not_histogram (key_class k) = false) out
    /\ Forall (fun k => not_histogram (key_class k) = true ->
                        key_name k ∉ key_name <$> out) keys0.
Proof.
  pose proof first_ok as Hok. unpack_ok Hok Hnd Htyped.
  exists (merged_keys keys0 (other_sources w start end_)).
  pose proof (merged_keys_filter keys0 (other_sources w start end_) Htyped) as Hpairs.
  split; [apply merged_file|]. split; [exact Hpairs|]. split.
  - apply Forall_forall. intros mk Hmk.
    assert (Hp : (key_name mk, key_class mk)
                 ∈ (fun k => (key_name k, key_class k))
                     <$> List.filter recognized_and_readable keys0).
    { rewrite <- Hpairs.
      apply (list_elem_of_fmap_2 (fun k => (key_name k, key_class k))), Hmk. }
    apply list_elem_of_fmap in Hp as (k & Heq & Hk).
    apply list_elem_of_In, filter_In in Hk as [_ Hk].
    injection Heq as _ ->. unfold recognized_and_readable in Hk.
    apply andb_prop in Hk as [Hk _]. apply negb_true_iff in Hk. exact Hk.
  - apply Forall_forall. intros k Hk Hcls Hname.
    assert (Hp : key_name k ∈ (fun p : string * string => fst p)
                   <$> ((fun k => (key_name k, key_class k))
                          <$> merged_keys keys0 (other_sources w start end_))).
    { rewrite <- list_fmap_compose. exact Hname. }
    rewrite Hpairs, <- list_fmap_compose in Hp.
    apply list_elem_of_fmap in Hp as (k' & Heq & Hk'). cbn in Heq.
    apply list_elem_of_In, filter_In in Hk' as [Hk' Hrec].
    apply list_elem_of_In in Hk'.
    assert (k = k') by (eapply (NoDup_fmap_same key_name); eassumption).
    subst k'. unfold recognized_and_readable in Hrec. rewrite Hcls in Hrec. discriminate.
Qed.

(** C5.  The merge takes up exactly the entries of source 0 whose class is
    [TH1F], [TH1D] or [TH2D]: the merged file holds one entry, of the same
    name and class, for each such entry that can be read, in the order of
    source 0, and every entry of the merged file has one of the three
    classes; an entry of any other class gives no entry in the output,
    and no line in the log. *)
Theorem only_histogram_kinds_are_merged :
  snd (mergemacro_from start end_ w) = Done tt
  /\ cerr (fst (mergemacro_from start end_ w))
     = cerr w ++ concat (kind_diagnostics (root_files w) (other_names start end_)
                           ("AnalysisResults" +:+ dec start +:+ ".root")
                           <$> List.filter
                                 (fun k => bool_decide
                                             (key_class k ∈ ["TH1F"; "TH1D"; "TH2D"]))
                                 keys0)
  /\ exists out,
       merged_hists (fst (mergemacro_from start end_ w)) = Some out
       /\ (fun k => (key_name k, key_class k)) <$> out
          = (fun k => (key_name k, key_class k))
              <$> List.filter
                    (fun k => bool_decide (key_class k ∈ ["TH1F"; "TH1D"; "TH2D"])
                              && key_readable k)
                    keys0
       /\ Forall (fun k => key_class k ∈ ["TH1F"; "TH1D"; "TH2D"]) out
       /\ Forall (fun k => key_class k ∉ ["TH1F"; "TH1D"; "TH2D"] ->
                           key_name k ∉ key_name <$> out) keys0.
Proof.
  split; [apply merge_completes|].
  split; [rewrite merge_log, key_diagnostics_kinds; reflexivity|].
  destruct merge_takes_recognized_keys as (out & Hout & Hpairs & Hkinds & Hothers).
  exists out. split; [exact Hout|]. split; [|split].
  - rewrite Hpairs. f_equal. apply List.filter_ext. intros k.
    unfold recognized_and_readable. rewrite not_histogram_kind, negb_involutive.
    reflexivity.
  - eapply Forall_impl; [exact Hkinds|]. intros k Hk. cbv beta in Hk.
    rewrite not_histogram_kind in Hk. apply negb_false_iff in Hk.
    apply bool_decide_eq_true in Hk. exact Hk.
  - eapply Forall_impl; [exact Hothers|]. intros k Hk Hcls. apply Hk.
    rewrite not_histogram_kind. apply negb_true_iff.
    apply bool_decide_eq_false. exact Hcls.
Qed.

End WellFormedSources.

(** C7 (amended).  When the file of a source other than the first cannot
    be opened, the histogram merge logs the line
    [Error opening file AnalysisResults<i>.root] and goes on: it
    completes, and each merged histogram is the bin-wise sum over the
    remaining sources.  For the tuple merge a source whose file cannot
    be opened, or that has no table, is fatal, whichever source it is:
    the macro stops at the first such source, on the null table, and no
    merged table is written. *)
Theorem unopenable_source_handling :
  (forall (w : World) (start end_ : Z) (keys0 : list TKey) (i : Z) (k0 : TKey) (h0 : TH1),
     start <= end_ < INT_MAX ->
     source w start = Some keys0 ->
     run_output_ok keys0 = true ->
     sources_share_binning keys0 (other_sources w start end_) = true ->
     k0 ∈ keys0 -> selected k0 = Some h0 ->
     start < i <= end_ -> source w i = None ->
     snd (mergemacro_from start end_ w) = Done tt
     /\ ("Error opening file AnalysisResults" +:+ dec i +:+ ".root")
        ∈ cerr (fst (mergemacro_from start end_ w))
     /\ exists out,
          merged_hists (fst (mergemacro_from start end_ w)) = Some out
          /\ hist_of out (key_name k0)
             = Some (bin_wise_sum h0
                       (contributions
                          (source w <$> (seqZ (start + 1) (i - start - 1)
                                         ++ seqZ (i + 1) (end_ - i)))
                          (key_name k0))))
  /\ (forall (w : World) (start end_ j : Z),
        start <= j <= end_ -> end_ <= INT_MAX ->
        (forall j', start <= j' < j -> exists rows, source_table w j' = Some rows) ->
        no_table w j ->
        mergetuple_from start end_ w
        = (with_root_file "merged_tuple.root" [] w, Abort NullDeref)).
Proof.
  split.
  - intros w start end_ keys0 i k0 h0 Hrange Hfirst Hok Hshare Hin Hsel Hi Hsrc_i.
    split; [apply (merge_completes w start end_ keys0); assumption|]. split.
    + rewrite (merge_log w start end_ keys0) by assumption. apply elem_of_app. right.
      apply (diagnostic_logged _ start end_ i _ _ keys0 k0 h0 Hi Hin Hsel).
      unfold file_diagnostics. unfold source in Hsrc_i. rewrite Hsrc_i. reflexivity.
    + apply (merged_histogram_is_the_sum_without w start end_ keys0); try assumption.
      rewrite Hsrc_i. reflexivity.
  - intros w start end_ j Hj Hmax Hbefore Hnone.
    rewrite mergetuple_from_unfold.
    rewrite (for_int_mergetuple_stops (with_root_file "merged_tuple.root" [] w) j).
    + reflexivity.
    + lia.
    + lia.
    + intros j' Hj'. destruct (Hbefore j' Hj') as [rows Hrows]. exists rows.
      rewrite source_table_recreate; [exact Hrows|apply AnalysisResults_not_merged_tuple].
    + unfold no_table, source, with_root_file in *. cbn [root_files].
      rewrite lookup_insert_ne by apply AnalysisResults_not_merged_tuple. exact Hnone.
Qed.

Lemma missing_histogram_is_tolerated_witness :
  snd (mergemacro_from 0 2 world_missing_histogram) = Done tt
  /\ (exists out merged,
        merged_hists (fst (mergemacro_from 0 2 world_missing_histogram)) = Some out
        /\ hist_of out "hnevent" = Some merged
        /\ h_class merged = "TH1D"
        /\ h_cells merged = [dbl 0; dbl 12; dbl 0]
        /\ h_entries merged = dbl 12)
  /\ "Histogram hnevent not found in file AnalysisResults1.root"
     ∈ cerr (fst (mergemacro_from 0 2 world_missing_histogram)).
Proof.
  destruct (missing_histogram_is_tolerated world_missing_histogram 0 2
              (run_output 5 [example_row]) ltac:(unfold INT_MAX; lia)
              ltac:(vm_compute; reflexivity) ltac:(vm_compute; reflexivity)
              ltac:(vm_compute; reflexivity)
              1 (run_without_histogram [example_row; example_row])
              (hnevent_key 5) (one_bin 5 5)
              ltac:(left) ltac:(reflexivity) ltac:(lia)
              ltac:(vm_compute; reflexivity) ltac:(vm_compute; reflexivity))
    as (Hdone & (out & Hout & Hhist) & Hlog).
  split; [exact Hdone|]. split; [|exact Hlog].
  exists out. eexists. split; [exact Hout|]. split; [exact Hhist|].
  split; [|split]; vm_compute; reflexivity.
Defined.

Lemma only_histogram_kinds_are_merged_witness :
  snd (mergemacro_from 0 1 world_mixed_kinds) = Done tt
  /\ cerr (fst (mergemacro_from 0 1 world_mixed_kinds))
     = ["Error loading histogram hDijetMass from file AnalysisResults0.root"]
  /\ exists out,
       merged_hists (fst (mergemacro_from 0 1 world_mixed_kinds)) = Some out
       /\ (fun k => (key_name k, key_class k)) <$> out
          = [("hTrackPt", "TH1F"); ("hnevent", "TH1D"); ("hPartonicX", "TH2D")].
Proof.
  destruct (only_histogram_kinds_are_merged world_mixed_kinds 0 1 mixed_output
              ltac:(unfold INT_MAX; lia) ltac:(vm_compute; reflexivity)
              ltac:(vm_compute; reflexivity) ltac:(vm_compute; reflexivity))
    as (Hdone & Hlog & out & Hout & Hpairs & _).
  split; [exact Hdone|]. split.
  - rewrite Hlog. vm_compute. reflexivity.
  - exists out. split; [exact Hout|]. rewrite Hpairs. vm_compute. reflexivity.
Defined.

(** C7, as stated, fails for source 0: when its file cannot be opened the
    merge logs the line and then stops on the null [firstFile], without
    going on to the other sources. *)
Lemma unopenable_first_source_counterexample :
  source world_unopenable_first 0 = None
  /\ cerr (fst (mergemacro_from 0 1 world_unopenable_first))
     = [open_error_line (AnalysisResults 0)]
  /\ snd (mergemacro_from 0 1 world_unopenable_first) = Abort NullDeref
  /\ snd (mergemacro_from 0 1 world_unopenable_first) <> Done tt.
Proof.
  split; [vm_compute; reflexivity|].
  split; [vm_compute; reflexivity|].
  split; [vm_compute; reflexivity|].
  vm_compute. discriminate.
Qed.

Lemma unopenable_source_handling_witness :
  (snd (mergemacro_from 0 2 world_unopenable_source) = Done tt
   /\ "Error opening file AnalysisResults1.root"
      ∈ cerr (fst (mergemacro_from 0 2 world_unopenable_source))
   /\ exists out merged,
        merged_hists (fst (mergemacro_from 0 2 world_unopenable_source)) = Some out
        /\ hist_of out "hnevent" = Some merged
        /\ h_cells merged = [dbl 0; dbl 12; dbl 0]
        /\ h_entries merged = dbl 12)
  /\ mergetuple_from 0 2 world_unopenable_source
     = (with_root_file "merged_tuple.root" [] world_unopenable_source, Abort NullDeref)
  /\ mergetuple_from 0 2 world_absent_table
     = (with_root_file "merged_tuple.root" [] world_absent_table, Abort NullDeref)
  /\ mergetuple_from 0 1 world_unopenable_first
     = (with_root_file "merged_tuple.root" [] world_unopenable_first, Abort NullDeref).
Proof.
  destruct unopenable_source_handling as [Hhist Htuple].
  destruct (Hhist world_unopenable_source 0 2 (run_output 5 [example_row]) 1
              (hnevent_key 5) (one_bin 5 5)
              ltac:(unfold INT_MAX; lia) ltac:(vm_compute; reflexivity)
              ltac:(vm_compute; reflexivity) ltac:(vm_compute; reflexivity)
              ltac:(left) ltac:(reflexivity) ltac:(lia)
              ltac:(vm_compute; reflexivity))
    as (Hdone & Hlog & out & Hout & Hmerged).
  split; [|split; [|split]].
  - split; [exact Hdone|]. split; [exact Hlog|].
    exists out. eexists. split; [exact Hout|]. split; [exact Hmerged|].
    split; vm_compute; reflexivity.
  - apply (Htuple world_unopenable_source 0 2 1); [lia|unfold INT_MAX; lia| |exact I].
    intros j' Hj'. assert (j' = 0) as -> by lia.
    eexists. vm_compute. reflexivity.
  - apply (Htuple world_absent_table 0 2 1);
      [lia|unfold INT_MAX; lia| |vm_compute; reflexivity].
    intros j' Hj'. assert (j' = 0) as -> by lia.
    eexists. vm_compute. reflexivity.
  - apply (Htuple world_unopenable_first 0 1 0); [lia|unfold INT_MAX; lia| |exact I].
    intros j' Hj'. lia.
Defined.

Lemma sources_share_binning_nil (keys0 : list TKey) :
  sources_share_binning keys0 [] = true.
Proof.
  unfold sources_share_binning. induction keys0 as [|k keys0 IH]; [reflexivity|].
  cbn [forallb]. destruct (selected k); cbn [andb]; exact IH.
Qed.

(** With no other source, the merged keys are the recognized, readable
    keys of the source themselves. *)
Lemma merged_keys_alone (keys0 : list TKey) :
  forallb typed_key keys0 = true ->
  merged_keys keys0 [] = List.filter recognized_and_readable keys0.
Proof.
  induction keys0 as [|k keys0 IH]; intros Htyped; [reflexivity|].
  cbn [forallb] in Htyped. apply andb_prop in Htyped as [Hk Htyped].
  unfold merged_keys. cbn [omap list_omap List.filter].
  fold (merged_keys keys0 []). rewrite IH by exact Htyped.
  unfold merged_key, selected, recognized_and_readable.
  destruct (not_histogram (key_class k)) eqn:Hcls; cbn [negb andb]; [reflexivity|].
  destruct (key_readable k) eqn:Hread; [|reflexivity].
  destruct (typed_histogram_key k Hk Hcls) as (h0 & Hobj & Hclass).
  rewrite Hobj. f_equal.
  destruct k as [name class obj readable]. cbn in *. subst. reflexivity.
Qed.

(** C6.  Merging a single source is a round trip: the merged table holds
    that source's rows, same values in the same order, and the merged
    file holds that source's own histograms, cells and entry counts
    untouched. *)
Theorem single_source_round_trip (w : World) (start : Z) (keys0 : list TKey)
    (rows : list Row) :
  start < INT_MAX ->
  source w start = Some keys0 ->
  table_of keys0 "dijetNtuple" = Some rows ->
  run_output_ok keys0 = true ->
  mergetuple_from start start w
  = (with_root_file "merged_tuple.root" [merged_table_key rows] w, Done tt)
  /\ merged_hists (fst (mergemacro_from start start w))
     = Some (List.filter recognized_and_readable keys0)
  /\ snd (mergemacro_from start start w) = Done tt.
Proof.
  intros Hmax Hsrc Htab Hok. split.
  - pose proof (mergetuple_from_spec w start [rows]) as Hspec.
    cbn [length concat] in Hspec. rewrite app_nil_r in Hspec.
    replace (start + Z.of_nat 1 - 1) with start in Hspec by lia.
    apply Hspec; [intros _; exact Hmax|].
    intros [|k] rows' Hk; [|destruct k; discriminate].
    injection Hk as <-. rewrite Z.add_0_r.
    unfold source_table. unfold source in Hsrc. rewrite Hsrc. exact Htab.
  - assert (Hothers : other_sources w start start = []).
    { unfold other_sources. rewrite Z.sub_diag. reflexivity. }
    rewrite (mergemacro_spec w start start keys0); try assumption; try lia.
    2:{ rewrite Hothers. apply sources_share_binning_nil. }
    cbn [fst snd]. split; [|reflexivity].
    unfold merged_hists, with_root_file. cbn [root_files].
    rewrite lookup_insert_eq, Hothers. f_equal.
    unpack_ok Hok Hnd Htyped. apply merged_keys_alone, Htyped.
Qed.

Lemma single_source_round_trip_witness :
  mergetuple_from 0 0 world_single_run
  = (with_root_file "merged_tuple.root"
       [merged_table_key [example_row; example_row]] world_single_run, Done tt)
  /\ merged_hists (fst (mergemacro_from 0 0 world_single_run))
     = Some (List.filter recognized_and_readable
               (run_output 5 [example_row; example_row]))
  /\ snd (mergemacro_from 0 0 world_single_run) = Done tt.
Proof.
  apply (single_source_round_trip world_single_run 0
           (run_output 5 [example_row; example_row]) [example_row; example_row]);
    try (vm_compute; reflexivity).
Defined.

(** C8, as stated, fails for the histogram merge: over an empty range it
    reads [fileNames[0]] of an empty vector and stops there. *)
Lemma empty_range_histogram_counterexample :
  snd (mergemacro_from 1 0 (world_of [])) = Abort OutOfBounds
  /\ snd (mergemacro_from 1 0 (world_of [])) <> Done tt.
Proof.
  split; [vm_compute; reflexivity|]. vm_compute. discriminate.
Qed.

(** C8 (amended).  Tuple-merging an empty index range completes and
    leaves a merged table without rows. *)
Theorem empty_range_tuple_merge (w : World) (start end_ : Z) :
  end_ < start ->
  mergetuple_from start end_ w
  = (with_root_file "merged_tuple.root" [merged_table_key []] w, Done tt).
Proof.
  intros Hlt. unfold mergetuple_from, for_range, bind at 1, TFile_recreate.
  replace (Z.to_nat (end_ + 1 - start)) with O by lia.
  cbn [for_int]. unfold bind, ret, TFile_commit.
  rewrite with_root_file_twice. reflexivity.
Qed.

Lemma empty_range_tuple_merge_witness :
  mergetuple_from 1 0 world_single_run
  = (with_root_file "merged_tuple.root" [merged_table_key []] world_single_run, Done tt).
Proof. apply (empty_range_tuple_merge world_single_run 1 0). lia. Defined.

Lemma recreate_forgets (name : string) (prior : list TKey) (w : World) :
  with_root_file name [] (with_root_file name prior w)
  = with_root_file name [] (without_root_file name w).
Proof.
  unfold with_root_file, without_root_file. cbn.
  rewrite insert_insert_eq, insert_delete_eq. reflexivity.
Qed.

(** C9.  Both mergers replace what their destination held: whatever the
    output file contained before the run, the run ends as it does when
    the file did not exist, with the same world, hence the same output
    file, in which nothing of the earlier content is left. *)
Theorem outputs_replace_prior_content (w : World) (start end_ : Z) (prior : list TKey) :
  end_ < INT_MAX ->
  mergetuple_from start end_ (with_root_file "merged_tuple.root" prior w)
  = mergetuple_from start end_ (without_root_file "merged_tuple.root" w)
  /\ mergemacro_from start end_ (with_root_file "merged_AnalysisResults.root" prior w)
     = mergemacro_from start end_ (without_root_file "merged_AnalysisResults.root" w).
Proof.
  intros Hmax. split.
  - unfold mergetuple_from, bind at 1 3, TFile_recreate.
    rewrite recreate_forgets. reflexivity.
  - rewrite !mergemacro_from_names by exact Hmax.
    unfold mergemacro_files, bind at 1 7, TFile_recreate.
    rewrite recreate_forgets. reflexivity.
Qed.

Lemma outputs_replace_prior_content_witness :
  mergetuple_from 0 2
    (with_root_file "merged_tuple.root" (run_output 5 []) world_missing_histogram)
  = mergetuple_from 0 2 (without_root_file "merged_tuple.root" world_missing_histogram)
  /\ mergemacro_from 0 2
       (with_root_file "merged_AnalysisResults.root" (run_output 5 [])
          world_missing_histogram)
     = mergemacro_from 0 2
         (without_root_file "merged_AnalysisResults.root" world_missing_histogram).
Proof.
  apply (outputs_replace_prior_content world_missing_histogram 0 2 (run_output 5 [])).
  unfold INT_MAX. lia.
Defined.

(* ===================================================================== *)
(** * Order of enumeration *)
(* ===================================================================== *)

(** C4, as stated, fails in two ways.  The cells are added in enumeration
    order in floating point: with bin contents 0.1, 0.2 and 0.3 the order
    A, B, C gives (0.1 + 0.2) + 0.3 = 0.6000000000000001 and the order
    B, C, A gives (0.2 + 0.3) + 0.1 = 0.6.  And the histograms merged are
    those of the first source: when B has no histogram, the order A, B, C
    gives the sum of A and C while the order B, A, C gives no histogram
    at all. *)
Lemma enumeration_order_counterexample :
  (snd (mergemacro_from 0 2 world_weights_ABC) = Done tt
   /\ snd (mergemacro_from 0 2 world_weights_BCA) = Done tt
   /\ merged_cells world_weights_ABC 0 2 "hDijetMass"
      = Some [dbl 0; S754_finite false 5404319552844596 (-53); dbl 0]
   /\ merged_cells world_weights_BCA 0 2 "hDijetMass"
      = Some [dbl 0; S754_finite false 5404319552844595 (-53); dbl 0]
   /\ merged_cells world_weights_ABC 0 2 "hDijetMass"
      <> merged_cells world_weights_BCA 0 2 "hDijetMass")
  /\ (snd (mergemacro_from 0 2 world_hists_ABC) = Done tt
      /\ snd (mergemacro_from 0 2 world_hists_BAC) = Done tt
      /\ merged_cells world_hists_ABC 0 2 "hnevent" = Some [dbl 0; dbl 12; dbl 0]
      /\ merged_hists (fst (mergemacro_from 0 2 world_hists_BAC)) = Some []).
Proof.
  repeat split; try (vm_compute; reflexivity).
  vm_compute. discriminate.
Qed.

Lemma contributions_app (o1 o2 : list (option (list TKey))) (name : string) :
  contributions (o1 ++ o2) name = contributions o1 name ++ contributions o2 name.
Proof. unfold contributions. apply omap_app. Qed.

(** Merging in two steps adds the same histograms in the same order. *)
Lemma merged_hist_app (h0 : TH1) (o1 o2 : list (option (list TKey))) (name : string) :
  merged_hist (merged_hist h0 o1 name) o2 name = merged_hist h0 (o1 ++ o2) name.
Proof. unfold merged_hist. rewrite contributions_app, foldl_app. reflexivity. Qed.

Lemma same_binning_merged_hist (o1 : list (option (list TKey))) (name : string) :
  forall (h0 : TH1) (name' : string) (src : option (list TKey)),
  forallb (same_binning h0 name) o1 = true ->
  same_binning (merged_hist h0 o1 name) name' src = same_binning h0 name' src.
Proof.
  unfold merged_hist, contributions.
  induction o1 as [|s o1 IH]; intros h0 name' src Hsame; [reflexivity|].
  cbn [forallb] in Hsame. apply andb_prop in Hsame as [Hs Hsame].
  cbn [omap list_omap]. unfold same_binning in Hs. unfold contribution at 1, hist_of.
  destruct s as [keys|]; [|apply IH, Hsame].
  destruct (lookup_obj keys name) as [[h| |]|]; try discriminate.
  - cbn [foldl]. rewrite IH.
    + apply same_binning_TH1_sum, Hs.
    + rewrite <- Hsame. apply forallb_pointwise.
      intros s. apply same_binning_TH1_sum, Hs.
  - apply IH, Hsame.
Qed.

Lemma forallb_app_true {A : Type} (f : A -> bool) (l1 l2 : list A) :
  forallb f (l1 ++ l2) = true -> forallb f l1 = true /\ forallb f l2 = true.
Proof.
  induction l1 as [|x l1 IH]; cbn [app forallb]; [auto|].
  intros H. apply andb_prop in H as [Hx H]. destruct (IH H) as [H1 H2].
  rewrite Hx, H1. auto.
Qed.

(** The merged key of a selected key is itself a selected key. *)
Lemma selected_merged_key (others : list (option (list TKey))) (k : TKey) (h0 : TH1) :
  typed_key k = true -> selected k = Some h0 ->
  merged_key others k
  = Some (mkKey (key_name k) (h_class h0)
                (ObjTH1 (merged_hist h0 others (key_name k))) true)
  /\ not_histogram (h_class h0) = false.
Proof.
  intros Htyped Hsel. unfold merged_key. rewrite Hsel. split; [reflexivity|].
  destruct (selected_recognized _ _ Hsel) as (Hcls & _ & Hobj).
  destruct (typed_histogram_key k Htyped Hcls) as (h & Hobj' & Hclass).
  rewrite Hobj in Hobj'. injection Hobj' as <-. rewrite <- Hclass. exact Hcls.
Qed.

Lemma merged_keys_cons (k : TKey) (keys0 : list TKey) (others : list (option (list TKey))) :
  merged_keys (k :: keys0) others
  = match merged_key others k with
    | Some mk => mk :: merged_keys keys0 others
    | None => merged_keys keys0 others
    end.
Proof. reflexivity. Qed.

Lemma merged_keys_app (keys0 : list TKey) (o1 o2 : list (option (list TKey))) :
  forallb typed_key keys0 = true ->
  merged_keys (merged_keys keys0 o1) o2 = merged_keys keys0 (o1 ++ o2).
Proof.
  induction keys0 as [|k keys0 IH]; intros Htyped; [reflexivity|].
  cbn [forallb] in Htyped. apply andb_prop in Htyped as [Hk Htyped].
  rewrite !(merged_keys_cons k).
  destruct (selected k) as [h0|] eqn:Hsel.
  - destruct (selected_merged_key o1 k h0 Hk Hsel) as [H1 Hcls].
    destruct (selected_merged_key (o1 ++ o2) k h0 Hk Hsel) as [H12 _].
    rewrite H1, H12, merged_keys_cons, IH by exact Htyped.
    unfold merged_key at 1, selected. cbn [key_class key_readable key_obj key_name].
    rewrite Hcls, merged_hist_app.
    unfold merged_hist at 1. rewrite h_class_foldl_TH1_sum. reflexivity.
  - unfold merged_key at 1 2. rewrite Hsel. apply IH, Htyped.
Qed.

Lemma merged_keys_ok (keys0 : list TKey) (others : list (option (list TKey))) :
  run_output_ok keys0 = true -> run_output_ok (merged_keys keys0 others) = true.
Proof.
  unfold run_output_ok. intros Hok. apply andb_prop in Hok as [Hnd Htyped].
  apply bool_decide_eq_true in Hnd. apply andb_true_intro. split.
  - apply bool_decide_eq_true, merged_keys_NoDup, Hnd.
  - clear Hnd. induction keys0 as [|k keys0 IH]; [reflexivity|].
    cbn [forallb] in Htyped. apply andb_prop in Htyped as [Hk Htyped].
    rewrite merged_keys_cons.
    unfold merged_key. destruct (selected k) as [h0|]; [|apply IH, Htyped].
    cbn [forallb]. rewrite IH by exact Htyped.
    unfold typed_key. cbn [key_obj key_class].
    unfold merged_hist. rewrite h_class_foldl_TH1_sum, String.eqb_refl. reflexivity.
Qed.

Lemma merged_keys_share (keys0 : list TKey) (o1 o2 : list (option (list TKey))) :
  forallb typed_key keys0 = true ->
  sources_share_binning keys0 (o1 ++ o2) = true ->
  sources_share_binning keys0 o1 = true
  /\ sources_share_binning (merged_keys keys0 o1) o2 = true.
Proof.
  unfold sources_share_binning.
  induction keys0 as [|k keys0 IH]; intros Htyped Hshare; [auto|].
  cbn [forallb] in Htyped, Hshare.
  apply andb_prop in Htyped as [Hk Htyped]. apply andb_prop in Hshare as [Hshare_k Hshare].
  destruct (IH Htyped Hshare) as [IH1 IH2].
  rewrite merged_keys_cons. cbn [forallb].
  destruct (selected k) as [h0|] eqn:Hsel.
  - destruct (selected_merged_key o1 k h0 Hk Hsel) as [H1 Hcls]. rewrite H1.
    apply forallb_app_true in Hshare_k as [Hk1 Hk2].
    cbn [forallb]. rewrite Hk1, IH1, IH2.
    unfold selected at 1. cbn [key_class key_readable key_obj key_name].
    rewrite Hcls.
    rewrite (forallb_pointwise _ (same_binning h0 (key_name k))).
    + rewrite Hk2. auto.
    + intros src. apply same_binning_merged_hist, Hk1.
  - unfold merged_key. rewrite Hsel, IH1. auto.
Qed.

Lemma other_sources_two (w : World) (start : Z) :
  other_sources w start (start + 2) = [source w (start + 1); source w (start + 2)].
Proof.
  unfold other_sources.
  replace (start + 2 - start) with 2 by lia.
  rewrite (seqZ_cons (start + 1) 2) by lia.
  rewrite (seqZ_cons (Z.succ (start + 1))) by lia.
  rewrite seqZ_nil by lia.
  replace (Z.succ (start + 1)) with (start + 2) by lia. reflexivity.
Qed.

Lemma other_sources_one (w : World) (start : Z) :
  other_sources w start (start + 1) = [source w (start + 1)].
Proof.
  unfold other_sources. replace (start + 1 - start) with 1 by lia.
  rewrite (seqZ_cons (start + 1) 1) by lia. rewrite seqZ_nil by lia. reflexivity.
Qed.

(** C4 (amended).  Merging sources A and B, and then merging the result
    with source C, gives the same merged histograms (names, classes,
    cells and entry counts) as merging A, B, C directly: in both ways the
    histograms are those of A, and B and then C are added to each in this
    order. *)
Theorem merge_in_two_steps (w w_ab w_c : World) (start : Z) (A merged : list TKey) :
  start + 2 < INT_MAX ->
  source w start = Some A ->
  run_output_ok A = true ->
  sources_share_binning A (other_sources w start (start + 2)) = true ->
  source w_ab start = Some A ->
  source w_ab (start + 1) = source w (start + 1) ->
  merged_hists (fst (mergemacro_from start (start + 1) w_ab)) = Some merged ->
  source w_c start = Some merged ->
  source w_c (start + 1) = source w (start + 2) ->
  snd (mergemacro_from start (start + 2) w) = Done tt
  /\ snd (mergemacro_from start (start + 1) w_c) = Done tt
  /\ merged_hists (fst (mergemacro_from start (start + 1) w_c))
     = merged_hists (fst (mergemacro_from start (start + 2) w)).
Proof.
  intros Hmax HA Hok Hshare HA' HB Hmerged Hm HC.
  rewrite other_sources_two in Hshare.
  assert (Htyped : forallb typed_key A = true).
  { unfold run_output_ok in Hok. apply andb_prop in Hok as [_ H]. exact H. }
  destruct (merged_keys_share A [source w (start + 1)] [source w (start + 2)]
              Htyped Hshare) as [Hshare1 Hshare2].
  (* the first step *)
  rewrite (mergemacro_spec w_ab start (start + 1) A) in Hmerged;
    try assumption; try lia.
  2:{ rewrite other_sources_one, HB. exact Hshare1. }
  cbn [fst] in Hmerged. unfold merged_hists, with_root_file in Hmerged.
  cbn [root_files] in Hmerged. rewrite lookup_insert_eq in Hmerged.
  injection Hmerged as <-. rewrite other_sources_one, HB in *.
  (* the second step and the direct merge *)
  rewrite (mergemacro_spec w start (start + 2) A); try assumption; try lia.
  2:{ rewrite other_sources_two. exact Hshare. }
  rewrite (mergemacro_spec w_c start (start + 1)
             (merged_keys A [source w (start + 1)])); try assumption; try lia.
  2:{ apply merged_keys_ok, Hok. }
  2:{ rewrite other_sources_one, HC. exact Hshare2. }
  cbn [fst snd]. split; [reflexivity|]. split; [reflexivity|].
  unfold merged_hists, with_root_file. cbn [root_files].
  rewrite !lookup_insert_eq, other_sources_one, other_sources_two, HC.
  rewrite merged_keys_app by exact Htyped. reflexivity.
Qed.

Lemma merge_in_two_steps_witness :
  snd (mergemacro_from 0 (0 + 2) world_ABC) = Done tt
  /\ snd (mergemacro_from 0 (0 + 1) world_AB_then_C) = Done tt
  /\ merged_hists (fst (mergemacro_from 0 (0 + 1) world_AB_then_C))
     = merged_hists (fst (mergemacro_from 0 (0 + 2) world_ABC)).
Proof.
  apply (merge_in_two_steps world_ABC world_AB world_AB_then_C 0
           (histogram_only 5) merged_AB);
    try (vm_compute; reflexivity).
Defined.

(* ===================================================================== *)
(** * Further properties of the tuple merger and of the export *)
(* ===================================================================== *)

Lemma merged_table_written (rows : list Row) (w : World) :
  merged_table (with_root_file "merged_tuple.root" [merged_table_key rows] w) = Some rows.
Proof.
  unfold merged_table, with_root_file. cbn [root_files].
  rewrite lookup_insert_eq. reflexivity.
Qed.

(** X1.  Merge, then export: after a tuple merge of runs that all have
    their table, the export completes and the CSV is the header line
    followed by the lines of all the rows of all the runs, run after run,
    which makes one line more than the runs have rows together. *)
Theorem merge_then_export (w : World) (start : Z) (tables : list (list Row)) :
  start + Z.of_nat (length tables) - 1 < INT_MAX ->
  (forall (k : nat) rows, tables !! k = Some rows ->
     source_table w (start + Z.of_nat k) = Some rows) ->
  let merged := fst (mergetuple_from start (start + Z.of_nat (length tables) - 1) w) in
  snd (drawTuple merged) = Done tt
  /\ text_files (fst (drawTuple merged)) !! "dijet_data.csv"
     = Some (csv_header +:+ endl +:+ concat_strings (streamed <$> concat tables))
  /\ newlines (csv_header +:+ endl +:+ concat_strings (streamed <$> concat tables))
     = S (sum_list (length <$> tables)).
Proof.
  intros Hmax Hsrc merged. subst merged.
  rewrite (mergetuple_from_spec w start tables); [|intros _; exact Hmax|exact Hsrc].
  cbn [fst].
  destruct (drawTuple_csv _ (concat tables) (merged_table_written (concat tables) w))
    as [Hcsv Hdone].
  split; [exact Hdone|]. split; [exact Hcsv|].
  assert (Hlen : length (concat tables) = sum_list (length <$> tables)).
  { clear. induction tables as [|t ts IH]; [reflexivity|].
    rewrite fmap_cons. cbn [concat sum_list sum_list_with].
    rewrite length_app, IH. reflexivity. }
  rewrite !newlines_append, newlines_concat_streamed, Hlen. reflexivity.
Qed.

Lemma merge_then_export_witness :
  let merged := fst (mergetuple_from 0 (0 + Z.of_nat (length [[example_row]; [example_row; example_row]; []]) - 1)
                       world_missing_histogram) in
  snd (drawTuple merged) = Done tt
  /\ text_files (fst (drawTuple merged)) !! "dijet_data.csv"
     = Some (csv_header +:+ endl
             +:+ concat_strings (streamed <$> concat [[example_row]; [example_row; example_row]; []]))
  /\ newlines (csv_header +:+ endl
               +:+ concat_strings (streamed <$> concat [[example_row]; [example_row; example_row]; []]))
     = S (sum_list (length <$> [[example_row]; [example_row; example_row]; []])).
Proof.
  apply (merge_then_export world_missing_histogram 0
           [[example_row]; [example_row; example_row]; []]).
  - vm_compute. reflexivity.
  - intros [|[|[|k]]] rows Hk; try discriminate;
      injection Hk as <-; vm_compute; reflexivity.
Defined.

(** One pass of the file loop of [mergetuple] leaves the world as it is. *)
Lemma mergetuple_file_world (i : Z) (merged : list Row) (w : World) :
  fst (mergetuple_file i merged w) = w.
Proof.
  unfold mergetuple_file, TFile_new, bind.
  destruct (fst (TFile_Get _ "dijetNtuple")) as [[| |]|]; reflexivity.
Qed.

Lemma for_int_mergetuple_world (n : nat) :
  forall (i : Z) (merged : list Row) (w : World),
  fst (for_int n i mergetuple_file merged w) = w.
Proof.
  induction n as [|n IH]; intros i merged w; [reflexivity|].
  cbn [for_int]. unfold bind at 1.
  pose proof (mergetuple_file_world i merged w) as Hw.
  destruct (mergetuple_file i merged w) as [w' [rows|f]]; cbn [fst] in Hw; subst w'.
  - destruct (i =? INT_MAX); [reflexivity|]. apply IH.
  - reflexivity.
Qed.

(** The world after a tuple merge is the world of before but for the
    output file, whether the macro completes or stops. *)
Lemma mergetuple_from_world (w : World) (start end_ : Z) :
  exists keys,
    fst (mergetuple_from start end_ w) = with_root_file "merged_tuple.root" keys w.
Proof.
  unfold mergetuple_from, for_range, bind at 1, TFile_recreate. unfold bind at 1.
  pose proof (for_int_mergetuple_world (Z.to_nat (end_ + 1 - start)) start []
                (with_root_file "merged_tuple.root" [] w)) as Hw.
  destruct (for_int _ start mergetuple_file [] _) as [w' [rows|f]];
    cbn [fst] in Hw; subst w'.
  - eexists. unfold TFile_commit. cbn [fst]. apply with_root_file_twice.
  - exists []. reflexivity.
Qed.

(** X2.  The tuple merger writes to [merged_tuple.root] and to nothing
    else: for every world and every index range, whether it completes or
    stops at a run without a table, every other ROOT file (the sources
    included) and every text file is as before, and nothing is printed
    on either standard stream. *)
Theorem mergetuple_touches_only_its_output (w : World) (start end_ : Z) :
  writes_only "merged_tuple.root" w (fst (mergetuple_from start end_ w))
  /\ cerr (fst (mergetuple_from start end_ w)) = cerr w.
Proof.
  destruct (mergetuple_from_world w start end_) as [keys ->].
  split; [|reflexivity]. repeat split.
  - intros other Hne. unfold with_root_file. cbn [root_files].
    apply lookup_insert_ne. congruence.
  - exists []. cbn. rewrite app_nil_r. reflexivity.
Qed.

(** The tuple merger reads the files of the runs and nothing else. *)
Lemma mergetuple_file_sources (i : Z) (merged : list Row) (w w' : World) :
  source w' i = source w i ->
  snd (mergetuple_file i merged w') = snd (mergetuple_file i merged w).
Proof.
  unfold source, mergetuple_file, TFile_new, bind. intros ->. cbn [fst snd].
  destruct (fst (TFile_Get _ "dijetNtuple")) as [[| |]|]; reflexivity.
Qed.

Lemma for_int_mergetuple_sources (w w' : World) (n : nat) :
  same_sources w w' ->
  forall (i : Z) (merged : list Row),
  snd (for_int n i mergetuple_file merged w')
  = snd (for_int n i mergetuple_file merged w).
Proof.
  intros Hsame. induction n as [|n IH]; intros i merged; [reflexivity|].
  rewrite !for_int_step.
  pose proof (mergetuple_file_world i merged w) as Hw.
  pose proof (mergetuple_file_world i merged w') as Hw'.
  pose proof (mergetuple_file_sources i merged w w' (Hsame i)) as Hout.
  destruct (mergetuple_file i merged w) as [v [rows|f]];
    destruct (mergetuple_file i merged w') as [v' [rows'|f']];
    cbn [fst snd] in Hw, Hw', Hout; subst v v'; try discriminate.
  - injection Hout as ->. destruct (i =? INT_MAX); [reflexivity|]. apply IH.
  - exact Hout.
Qed.

Lemma same_sources_recreate (name : string) (k k' : list TKey) (w w' : World) :
  (forall i, name <> AnalysisResults i) ->
  same_sources w w' ->
  same_sources (with_root_file name k w) (with_root_file name k' w').
Proof.
  intros Hne Hsame i. unfold source, with_root_file. cbn [root_files].
  rewrite !lookup_insert_ne by apply Hne. apply Hsame.
Qed.

(** X3.  The tuple merge is determined by the files of the runs: two
    worlds that agree on every [AnalysisResults<i>.root], whatever else
    they hold (an earlier [merged_tuple.root] included), end with the
    same outcome and the same merged file. *)
Theorem mergetuple_reads_only_the_sources (w w' : World) (start end_ : Z) :
  same_sources w w' ->
  snd (mergetuple_from start end_ w') = snd (mergetuple_from start end_ w)
  /\ root_files (fst (mergetuple_from start end_ w')) !! "merged_tuple.root"
     = root_files (fst (mergetuple_from start end_ w)) !! "merged_tuple.root".
Proof.
  intros Hsame. rewrite !mergetuple_from_unfold.
  set (n := Z.to_nat (end_ + 1 - start)).
  set (w1 := with_root_file "merged_tuple.root" [] w).
  set (w1' := with_root_file "merged_tuple.root" [] w').
  assert (Hsame1 : same_sources w1 w1')
    by (apply same_sources_recreate;
        [apply AnalysisResults_not_merged_tuple|exact Hsame]).
  pose proof (for_int_mergetuple_sources w1 w1' n Hsame1 start []) as Hout.
  pose proof (for_int_mergetuple_world n start [] w1) as Hw.
  pose proof (for_int_mergetuple_world n start [] w1') as Hw'.
  destruct (for_int n start mergetuple_file [] w1) as [v [rows|f]];
    destruct (for_int n start mergetuple_file [] w1') as [v' [rows'|f']];
    cbn [fst snd] in Hw, Hw', Hout; subst v v'; try discriminate.
  - injection Hout as ->. unfold w1, w1', with_root_file.
    cbn [fst snd root_files]. split; [reflexivity|].
    rewrite !lookup_insert_eq. reflexivity.
  - injection Hout as ->. cbn [fst snd]. split; [reflexivity|].
    unfold w1, w1', with_root_file. cbn [root_files].
    rewrite !lookup_insert_eq. reflexivity.
Qed.

Lemma mergetuple_reads_only_the_sources_witness :
  snd (mergetuple_from 0 2
         (with_text_file "notes.txt" "x"
            (with_root_file "merged_tuple.root" (run_output 5 []) world_missing_histogram)))
  = snd (mergetuple_from 0 2 world_missing_histogram)
  /\ root_files (fst (mergetuple_from 0 2
         (with_text_file "notes.txt" "x"
            (with_root_file "merged_tuple.root" (run_output 5 []) world_missing_histogram))))
       !! "merged_tuple.root"
     = root_files (fst (mergetuple_from 0 2 world_missing_histogram)) !! "merged_tuple.root".
Proof.
  apply (mergetuple_reads_only_the_sources world_missing_histogram
           (with_text_file "notes.txt" "x"
              (with_root_file "merged_tuple.root" (run_output 5 []) world_missing_histogram))
           0 2).
  intros i. unfold source, with_text_file, with_root_file. cbn [root_files].
  apply lookup_insert_ne, AnalysisResults_not_merged_tuple.
Defined.

(** X4.  Running the tuple merge again does not count anything twice: a
    second run, over the world the first one left, ends as the first one
    did, with the same world, for every world and index range. *)
Theorem mergetuple_rerun (w : World) (start end_ : Z) :
  mergetuple_from start end_ (fst (mergetuple_from start end_ w))
  = mergetuple_from start end_ w.
Proof.
  destruct (mergetuple_from_world w start end_) as [keys ->].
  unfold mergetuple_from, bind at 1 3, TFile_recreate.
  rewrite with_root_file_twice. reflexivity.
Qed.

(** X5.  When [merged_tuple.root] cannot be opened, or holds no readable
    entry named [mergedNtuple], the export stops on the null table before
    it prints anything or opens the CSV file: the world is left as it
    was, [dijet_data.csv] neither created nor truncated. *)
Theorem drawTuple_without_table (w : World) :
  merged_object w = None ->
  drawTuple w = (w, Abort NullDeref).
Proof.
  unfold merged_object, drawTuple, TFile_new, bind. intros H.
  cbn [fst snd].
  destruct (root_files w !! "merged_tuple.root") as [keys|]; cbn [default];
    rewrite TFile_Get_fresh.
  - change (id keys) with keys. rewrite H. reflexivity.
  - reflexivity.
Qed.

Lemma drawTuple_without_table_witness :
  drawTuple (with_text_file "dijet_data.csv" "kept" world_single_run)
  = (with_text_file "dijet_data.csv" "kept" world_single_run, Abort NullDeref).
Proof.
  apply (drawTuple_without_table (with_text_file "dijet_data.csv" "kept" world_single_run)).
  vm_compute. reflexivity.
Defined.

Lemma count_char_append (c : Ascii.ascii) (a b : string) :
  count_char c (a +:+ b) = (count_char c a + count_char c b)%nat.
Proof.
  induction a as [|ch a IH]; [reflexivity|].
  change (((if Ascii.eqb ch c then 1 else 0) + count_char c (a +:+ b))%nat
          = ((if Ascii.eqb ch c then 1 else 0) + count_char c a + count_char c b)%nat).
  rewrite IH. lia.
Qed.

Lemma commas_uint (d : Decimal.uint) : count_char comma (NilEmpty.string_of_uint d) = O.
Proof. induction d; simpl; auto. Qed.

Lemma commas_dec (z : Z) : count_char comma (dec z) = O.
Proof.
  unfold dec, NilZero.string_of_int, NilZero.string_of_uint.
  destruct (Z.to_int z) as [d|d]; destruct d; simpl; auto using commas_uint.
Qed.

Lemma commas_put_fixed2 (x : spec_float) : count_char comma (put_fixed2 x) = O.
Proof.
  destruct x as [s|s| |s m e]; try (destruct s; reflexivity); [reflexivity|].
  unfold put_fixed2. cbv zeta.
  rewrite !count_char_append, !commas_dec. destruct s; reflexivity.
Qed.

Lemma commas_streamed (r : Row) : count_char comma (streamed r) = 9%nat.
Proof.
  unfold streamed, csv_row.
  rewrite !count_char_append, !commas_dec, !commas_put_fixed2. reflexivity.
Qed.

(** X6.  Every line of the exported CSV has ten fields: for a table in
    whose rows none of the seven fields exported as floats is a
    not-a-number (infinite values and out-of-range integers included),
    the file is the header followed by the lines of the rows, the header
    has nine commas, and the line of every row has exactly nine commas
    and ends with its only newline. *)
Theorem drawTuple_lines_have_ten_fields (w : World) (rows : list Row) :
  merged_table w = Some rows ->
  forallb no_nan rows = true ->
  text_files (fst (drawTuple w)) !! "dijet_data.csv"
  = Some (csv_header +:+ endl +:+ concat_strings (streamed <$> rows))
  /\ count_char comma csv_header = 9%nat
  /\ Forall (fun r => count_char comma (streamed r) = 9%nat
                      /\ newlines (streamed r) = 1%nat
                      /\ exists line, streamed r = line +:+ endl) rows.
Proof.
  intros Htab _. destruct (drawTuple_csv w rows Htab) as [Hcsv _].
  split; [exact Hcsv|]. split; [reflexivity|].
  apply Forall_forall. intros r _.
  split; [apply commas_streamed|]. split; [apply newlines_streamed|].
  unfold streamed, csv_row. eexists. rewrite <- !append_assoc. reflexivity.
Qed.

Lemma drawTuple_lines_have_ten_fields_witness :
  text_files (fst (drawTuple (world_with_merged [infinite_mass_row; big_event_row;
                                                  example_row])))
    !! "dijet_data.csv"
  = Some (csv_header +:+ endl
          +:+ concat_strings (streamed <$> [infinite_mass_row; big_event_row;
                                            example_row]))
  /\ count_char comma csv_header = 9%nat
  /\ Forall (fun r => count_char comma (streamed r) = 9%nat
                      /\ newlines (streamed r) = 1%nat
                      /\ exists line, streamed r = line +:+ endl)
            [infinite_mass_row; big_event_row; example_row].
Proof.
  apply (drawTuple_lines_have_ten_fields
           (world_with_merged [infinite_mass_row; big_event_row; example_row])
           [infinite_mass_row; big_event_row; example_row]).
  - vm_compute. reflexivity.
  - vm_compute. reflexivity.
Defined.

(** X7.  The export replaces what [dijet_data.csv] held and changes no
    other file: with a readable merged table, the run over a world whose
    CSV file has any earlier content ends in the same world as the run
    over the world as it is, the ROOT files are those of before, nothing
    goes to [cerr], and [cout] gets the two lines of the macro, the first
    with the number of rows. *)
Theorem drawTuple_replaces_the_csv (w : World) (rows : list Row) (prior : string) :
  merged_table w = Some rows ->
  drawTuple (with_text_file "dijet_data.csv" prior w) = drawTuple w
  /\ root_files (fst (drawTuple w)) = root_files w
  /\ (forall name, name <> "dijet_data.csv" ->
        text_files (fst (drawTuple w)) !! name = text_files w !! name)
  /\ cerr (fst (drawTuple w)) = cerr w
  /\ cout (fst (drawTuple w))
     = cout w ++ ["Total number of entries: " +:+ dec (Z.of_nat (length rows));
                  "Data has been saved to dijet_data.csv"].
Proof.
  intros Htab.
  assert (Htab' : merged_table (with_text_file "dijet_data.csv" prior w) = Some rows)
    by exact Htab.
  rewrite (drawTuple_spec _ rows Htab'), (drawTuple_spec w rows Htab). cbn [fst].
  split; [|split; [reflexivity|split; [|split]]].
  - f_equal. unfold with_cout, with_text_file. cbn. f_equal.
    rewrite !insert_insert_eq. reflexivity.
  - intros name Hne. unfold with_cout, with_text_file. cbn.
    rewrite !lookup_insert_ne by congruence. reflexivity.
  - reflexivity.
  - unfold with_cout, with_text_file. cbn. rewrite <- app_assoc. reflexivity.
Qed.

Lemma drawTuple_replaces_the_csv_witness :
  drawTuple (with_text_file "dijet_data.csv" "old" (world_with_merged [example_row]))
  = drawTuple (world_with_merged [example_row])
  /\ root_files (fst (drawTuple (world_with_merged [example_row])))
     = root_files (world_with_merged [example_row])
  /\ (forall name, name <> "dijet_data.csv" ->
        text_files (fst (drawTuple (world_with_merged [example_row]))) !! name
        = text_files (world_with_merged [example_row]) !! name)
  /\ cerr (fst (drawTuple (world_with_merged [example_row])))
     = cerr (world_with_merged [example_row])
  /\ cout (fst (drawTuple (world_with_merged [example_row])))
     = cout (world_with_merged [example_row])
       ++ ["Total number of entries: " +:+ dec (Z.of_nat (length [example_row]));
           "Data has been saved to dijet_data.csv"].
Proof.
  apply (drawTuple_replaces_the_csv (world_with_merged [example_row]) [example_row] "old").
  vm_compute. reflexivity.
Defined.

(* ===================================================================== *)
(** * Further properties of the histogram merger *)
(* ===================================================================== *)

Lemma logs_only_refl (w : World) : logs_only w w.
Proof.
  repeat split. exists []. rewrite app_nil_r. reflexivity.
Qed.

Lemma logs_only_trans (w1 w2 w3 : World) :
  logs_only w1 w2 -> logs_only w2 w3 -> logs_only w1 w3.
Proof.
  intros (Hr & Ht & Ho & l & He) (Hr' & Ht' & Ho' & l' & He').
  repeat split; try congruence.
  exists (l ++ l'). rewrite He', He, app_assoc. reflexivity.
Qed.

Lemma logs_only_cerr (lines : list string) (w : World) :
  logs_only w (with_cerr lines w).
Proof. repeat split. exists lines. reflexivity. Qed.

(** The loop over the other files changes nothing but the log, also when
    it stops early. *)
Lemma add_files_logs (names : list string) (className histName : string) :
  forall (h0 : TH1) (w : World),
  logs_only w (fst (add_files names className histName h0 w)).
Proof.
  induction names as [|n names IH]; intros h0 w; [apply logs_only_refl|].
  rewrite add_files_cons.
  destruct (root_files w !! n) as [keys|].
  - destruct (lookup_obj keys histName) as [[h| |]|].
    + destruct (TH1_Add h0 h); [apply IH|apply logs_only_refl].
    + apply logs_only_refl.
    + apply logs_only_refl.
    + eapply logs_only_trans; [apply logs_only_cerr|apply IH].
  - eapply logs_only_trans; [apply logs_only_cerr|apply IH].
Qed.

(** So does the loop over the keys of the first file. *)
Lemma merge_keys_logs (keys : list TKey) (names : list string) (name0 : string) :
  forall (firstFile : TFile) (out : list TKey) (w : World),
  logs_only w (fst (merge_keys keys names name0 firstFile out w)).
Proof.
  induction keys as [|k rest IH]; intros firstFile out w; [apply logs_only_refl|].
  rewrite merge_keys_cons.
  destruct (not_histogram (key_class k)); [apply IH|].
  destruct (fst (TFile_Get firstFile (key_name k))) as [[h0| |]|].
  - pose proof (add_files_logs (tail names) (key_class k) (key_name k) h0 w) as Hadd.
    destruct (add_files (tail names) (key_class k) (key_name k) h0 w) as [w' [h|f]];
      cbn [fst] in Hadd.
    + eapply logs_only_trans; [exact Hadd|apply IH].
    + exact Hadd.
  - apply logs_only_refl.
  - apply logs_only_refl.
  - eapply logs_only_trans; [apply logs_only_cerr|apply IH].
Qed.

(** The loop that builds the vector of file names leaves the world as it
    is, whether it ends or runs into the overflow of its counter. *)
Lemma for_int_names_world (n : nat) :
  forall (i : Z) (acc : list string) (w : World),
  fst (for_int n i (fun i names => ret (names ++ [AnalysisResults i])) acc w) = w.
Proof.
  induction n as [|n IH]; intros i acc w; [reflexivity|].
  cbn [for_int]. unfold bind at 1, ret at 1.
  destruct (i =? INT_MAX); [reflexivity|]. apply IH.
Qed.

Lemma writes_only_refl (name : string) (w : World) : writes_only name w w.
Proof.
  repeat split. exists []. rewrite app_nil_r. reflexivity.
Qed.

Lemma writes_only_logged (name : string) (keys : list TKey) (w w' : World) :
  logs_only (with_root_file name keys w) w' -> writes_only name w w'.
Proof.
  intros (Hr & Ht & Ho & l & He). repeat split; try assumption.
  - intros other Hne. rewrite Hr. unfold with_root_file. cbn [root_files].
    apply lookup_insert_ne. congruence.
  - exists l. exact He.
Qed.

Lemma writes_only_committed (name : string) (keys : list TKey) (w w' : World) :
  writes_only name w w' -> writes_only name w (with_root_file name keys w').
Proof.
  intros (Hr & Ht & Ho & l & He). repeat split; try assumption.
  - intros other Hne. unfold with_root_file. cbn [root_files].
    rewrite lookup_insert_ne by congruence. apply Hr, Hne.
  - exists l. exact He.
Qed.

Lemma mergemacro_files_writes (names : list string) (w : World) :
  writes_only "merged_AnalysisResults.root" w (fst (mergemacro_files names w)).
Proof.
  unfold mergemacro_files, TFile_recreate, vector_at. unfold bind at 1.
  destruct (names !! O) as [name0|]; unfold bind at 1, ret at 1, abort;
    [|apply (writes_only_logged _ []), logs_only_refl].
  unfold bind at 1, TFile_Open.
  set (w1 := with_root_file "merged_AnalysisResults.root" [] w).
  destruct (root_files w1 !! name0) as [keys0|]; cbn [fmap option_fmap option_map].
  - unfold bind at 1, ret at 1. unfold bind at 1. cbn [fKeys].
    pose proof (merge_keys_logs keys0 names name0 (mkTFile keys0 ∅) [] w1) as Hlog.
    destruct (merge_keys keys0 names name0 (mkTFile keys0 ∅) [] w1) as [w2 [r|f]];
      cbn [fst] in Hlog.
    + unfold TFile_commit. cbn [fst].
      apply writes_only_committed, (writes_only_logged _ []), Hlog.
    + apply (writes_only_logged _ []), Hlog.
  - unfold bind at 1, cerr_line. cbn [fst].
    apply (writes_only_logged _ []), logs_only_cerr.
Qed.

(** X8.  The histogram merger writes to [merged_AnalysisResults.root] and
    to the log, and to nothing else: for every world and every index
    range, whether the macro completes or stops, every other ROOT file
    (the sources included) and every text file is as before, nothing is
    printed on [cout], and the log keeps its earlier lines. *)
Theorem mergemacro_touches_only_its_output (w : World) (start end_ : Z) :
  writes_only "merged_AnalysisResults.root" w (fst (mergemacro_from start end_ w)).
Proof.
  unfold mergemacro_from, for_range. unfold bind at 1.
  pose proof (for_int_names_world (Z.to_nat (end_ + 1 - start)) start [] w) as Hw.
  destruct (for_int _ start _ [] w) as [w' [names|f]]; cbn [fst] in Hw; subst w'.
  - apply mergemacro_files_writes.
  - apply writes_only_refl.
Qed.

(** The loop over the other files reads the files it is given and nothing
    else: in two worlds that agree on them it ends with the same outcome
    and logs the same lines. *)
Lemma add_files_frame (names : list string) (className histName : string) :
  forall (h0 : TH1) (w w' : World),
  (forall n, n ∈ names -> root_files w' !! n = root_files w !! n) ->
  exists lines o,
    add_files names className histName h0 w = (with_cerr lines w, o)
    /\ add_files names className histName h0 w' = (with_cerr lines w', o).
Proof.
  induction names as [|n names IH]; intros h0 w w' Hagree.
  - exists [], (Done h0). rewrite !with_cerr_nil. split; reflexivity.
  - assert (Hrest : forall l m, m ∈ names ->
                      root_files (with_cerr l w') !! m = root_files (with_cerr l w) !! m).
    { intros l m Hm. apply Hagree. right. exact Hm. }
    rewrite !add_files_cons, (Hagree n) by left.
    destruct (root_files w !! n) as [keys|].
    + destruct (lookup_obj keys histName) as [[h| |]|].
      * destruct (TH1_Add h0 h) as [acc|].
        -- apply IH. intros m Hm. apply Hagree. right. exact Hm.
        -- exists [], (Abort Inconsistent). rewrite !with_cerr_nil. split; reflexivity.
      * exists [], (Abort BadCast). rewrite !with_cerr_nil. split; reflexivity.
      * exists [], (Abort BadCast). rewrite !with_cerr_nil. split; reflexivity.
      * destruct (IH h0 _ _ (Hrest [not_found_line histName n])) as (l & o & H1 & H2).
        exists ([not_found_line histName n] ++ l), o.
        rewrite H1, H2, !with_cerr_twice. split; reflexivity.
    + destruct (IH h0 _ _ (Hrest [open_error_line n])) as (l & o & H1 & H2).
      exists ([open_error_line n] ++ l), o.
      rewrite H1, H2, !with_cerr_twice. split; reflexivity.
Qed.

Lemma merge_keys_frame (keys : list TKey) (names : list string) (name0 : string) :
  forall (firstFile : TFile) (out : list TKey) (w w' : World),
  (forall n, n ∈ tail names -> root_files w' !! n = root_files w !! n) ->
  exists lines o,
    merge_keys keys names name0 firstFile out w = (with_cerr lines w, o)
    /\ merge_keys keys names name0 firstFile out w' = (with_cerr lines w', o).
Proof.
  induction keys as [|k rest IH]; intros firstFile out w w' Hagree.
  - exists [], (Done (firstFile, out)). rewrite !with_cerr_nil. split; reflexivity.
  - assert (Hrest : forall l m, m ∈ tail names ->
                      root_files (with_cerr l w') !! m = root_files (with_cerr l w) !! m).
    { intros l m Hm. apply Hagree, Hm. }
    rewrite !merge_keys_cons.
    destruct (not_histogram (key_class k)); [apply IH, Hagree|].
    destruct (fst (TFile_Get firstFile (key_name k))) as [[h0| |]|].
    + destruct (add_files_frame (tail names) (key_class k) (key_name k) h0 w w' Hagree)
        as (l & o & H1 & H2).
      rewrite H1, H2. destruct o as [h|f].
      * destruct (IH (mkTFile (fKeys (snd (TFile_Get firstFile (key_name k))))
                        (<[key_name k := ObjTH1 h]>
                           (fList (snd (TFile_Get firstFile (key_name k))))))
                     (AppendKey (mkKey (key_name k) (h_class h) (ObjTH1 h) true) out)
                     _ _ (Hrest l)) as (l' & o' & H1' & H2').
        exists (l ++ l'), o'. rewrite H1', H2', !with_cerr_twice. split; reflexivity.
      * exists l, (Abort f). split; reflexivity.
    + exists [], (Abort BadCast). rewrite !with_cerr_nil. split; reflexivity.
    + exists [], (Abort BadCast). rewrite !with_cerr_nil. split; reflexivity.
    + destruct (IH (snd (TFile_Get firstFile (key_name k))) out _ _
                  (Hrest ["Error loading histogram " +:+ key_name k +:+
                          " from file " +:+ name0])) as (l & o & H1 & H2).
      eexists (_ ++ l), o. rewrite H1, H2, !with_cerr_twice. split; reflexivity.
Qed.

Lemma with_cerr_root_file (name : string) (keys : list TKey) (lines : list string)
    (w : World) :
  with_cerr lines (with_root_file name keys w)
  = with_root_file name keys (with_cerr lines w).
Proof. reflexivity. Qed.

Lemma mergemacro_files_unfold (names : list string) (w : World) :
  mergemacro_files names w
  = let w1 := with_root_file "merged_AnalysisResults.root" [] w in
    match names !! O with
    | None => (w1, Abort OutOfBounds)
    | Some name0 =>
        match root_files w1 !! name0 with
        | None => (with_cerr ["Error opening file " +:+ name0] w1, Abort NullDeref)
        | Some keys0 =>
            match merge_keys keys0 names name0 (mkTFile keys0 ∅) [] w1 with
            | (w2, Done r) =>
                (with_root_file "merged_AnalysisResults.root" (snd r) w2, Done tt)
            | (w2, Abort f) => (w2, Abort f)
            end
        end
    end.
Proof.
  unfold mergemacro_files, TFile_recreate, vector_at, TFile_Open, cerr_line,
    TFile_commit, bind, ret, abort.
  destruct (names !! O) as [name0|]; [|reflexivity].
  destruct (root_files _ !! name0) as [keys0|];
    cbn [fmap option_fmap option_map fKeys]; [|reflexivity].
  destruct (merge_keys keys0 names name0 _ [] _) as [w2 [r|f]]; reflexivity.
Qed.

(** The macro from the creation of its output on: what it leaves in the
    output file, what it logs and how it ends are the same in two worlds
    that agree on the files named in the vector, the output file apart. *)
Lemma mergemacro_files_frame (names : list string) (w w' : World) :
  (forall n, n ∈ names -> n <> "merged_AnalysisResults.root" ->
             root_files w' !! n = root_files w !! n) ->
  exists keys lines o,
    mergemacro_files names w
    = (with_root_file "merged_AnalysisResults.root" keys (with_cerr lines w), o)
    /\ mergemacro_files names w'
       = (with_root_file "merged_AnalysisResults.root" keys (with_cerr lines w'), o).
Proof.
  intros Hagree.
  set (w1 := with_root_file "merged_AnalysisResults.root" [] w).
  set (w1' := with_root_file "merged_AnalysisResults.root" [] w').
  assert (Hagree1 : forall l n, n ∈ names ->
            root_files (with_cerr l w1') !! n = root_files (with_cerr l w1) !! n).
  { intros l n Hn. unfold w1, w1', with_root_file. cbn [with_cerr root_files].
    destruct (decide (n = "merged_AnalysisResults.root")) as [->|Hne].
    - rewrite !lookup_insert_eq. reflexivity.
    - rewrite !lookup_insert_ne by congruence. apply Hagree; assumption. }
  rewrite !mergemacro_files_unfold. cbv zeta. fold w1 w1'.
  destruct (names !! O) as [name0|] eqn:Hname0.
  2:{ exists [], [], (Abort OutOfBounds). rewrite !with_cerr_nil. split; reflexivity. }
  assert (Hin0 : name0 ∈ names) by (eapply list_elem_of_lookup_2; exact Hname0).
  pose proof (Hagree1 [] name0 Hin0) as H0. cbn [with_cerr root_files] in H0.
  rewrite H0.
  destruct (root_files w1 !! name0) as [keys0|].
  - destruct (merge_keys_frame keys0 names name0 (mkTFile keys0 ∅) [] w1 w1')
      as (l & o & H1 & H2).
    { intros n Hn. apply (Hagree1 []). destruct names; [inversion Hn|right; exact Hn]. }
    rewrite H1, H2. destruct o as [r|f].
    + exists (snd r), l, (Done tt). unfold w1, w1'.
      rewrite !with_cerr_root_file, !with_root_file_twice. split; reflexivity.
    + exists [], l, (Abort f). unfold w1, w1'.
      rewrite !with_cerr_root_file. split; reflexivity.
  - exists [], ["Error opening file " +:+ name0], (Abort NullDeref). unfold w1, w1'.
    rewrite !with_cerr_root_file. split; reflexivity.
Qed.

(** The vector of file names does not depend on the world. *)
Lemma for_int_names_outcome (n : nat) :
  forall (i : Z) (acc : list string) (w w' : World),
  snd (for_int n i (fun i names => ret (names ++ [AnalysisResults i])) acc w')
  = snd (for_int n i (fun i names => ret (names ++ [AnalysisResults i])) acc w).
Proof.
  induction n as [|n IH]; intros i acc w w'; [reflexivity|].
  rewrite !for_int_step. unfold ret at 1 3.
  destruct (i =? INT_MAX); [reflexivity|]. apply IH.
Qed.

Lemma mergemacro_from_unfold (w : World) (start end_ : Z) :
  mergemacro_from start end_ w
  = match snd (for_int (Z.to_nat (end_ + 1 - start)) start
                 (fun i names => ret (names ++ [AnalysisResults i])) [] w) with
    | Done names => mergemacro_files names w
    | Abort f => (w, Abort f)
    end.
Proof.
  unfold mergemacro_from, for_range. unfold bind at 1.
  pose proof (for_int_names_world (Z.to_nat (end_ + 1 - start)) start [] w) as Hw.
  destruct (for_int _ start _ [] w) as [w' [names|f]]; cbn [fst snd] in *; subst w';
    reflexivity.
Qed.

(** X9.  Running the histogram merge again gives the same merged file:
    for every world and index range, a second run over the world the
    first one left ends as the first did, leaves every ROOT file (the
    merged one included) and text file as the first run left it, and
    repeats in the log the lines the first run added. *)
Theorem mergemacro_rerun (w : World) (start end_ : Z) :
  let once := mergemacro_from start end_ w in
  let twice := mergemacro_from start end_ (fst once) in
  snd twice = snd once
  /\ root_files (fst twice) = root_files (fst once)
  /\ text_files (fst twice) = text_files (fst once)
  /\ cout (fst twice) = cout (fst once)
  /\ exists lines, cerr (fst once) = cerr w ++ lines
                   /\ cerr (fst twice) = cerr (fst once) ++ lines.
Proof.
  cbv zeta. rewrite (mergemacro_from_unfold w).
  set (n := Z.to_nat (end_ + 1 - start)).
  destruct (snd (for_int n start _ [] w)) as [names|f] eqn:Hnames.
  - destruct (mergemacro_files_frame names w (fst (mergemacro_files names w)))
      as (keys & l & o & H1 & H2).
    { intros m _ Hne.
      destruct (mergemacro_files_writes names w) as (Hr & _). apply Hr, Hne. }
    rewrite mergemacro_from_unfold. fold n.
    rewrite (for_int_names_outcome n start [] w), Hnames, H2, H1. cbn [fst snd].
    repeat split.
    + unfold with_root_file, with_cerr. cbn. rewrite insert_insert_eq. reflexivity.
    + exists l. split; reflexivity.
  - cbn [fst snd]. rewrite mergemacro_from_unfold. fold n. rewrite Hnames.
    repeat split. exists []. rewrite !app_nil_r. split; reflexivity.
Qed.

(** X10.  The histogram merge is determined by the files of the runs: for
    an index range within [int], two worlds that agree on every
    [AnalysisResults<i>.root], whatever else they hold (an earlier
    merged file included), end with the same outcome, the same merged
    file and the same lines added to the log. *)
Theorem mergemacro_reads_only_the_sources (w w' : World) (start end_ : Z) :
  end_ < INT_MAX ->
  same_sources w w' ->
  snd (mergemacro_from start end_ w') = snd (mergemacro_from start end_ w)
  /\ merged_hists (fst (mergemacro_from start end_ w'))
     = merged_hists (fst (mergemacro_from start end_ w))
  /\ exists lines,
       cerr (fst (mergemacro_from start end_ w)) = cerr w ++ lines
       /\ cerr (fst (mergemacro_from start end_ w')) = cerr w' ++ lines.
Proof.
  intros Hmax Hsame. rewrite !mergemacro_from_names by exact Hmax.
  destruct (mergemacro_files_frame (AnalysisResults <$> seqZ start (end_ + 1 - start)) w w')
    as (keys & l & o & H1 & H2).
  { intros n Hn _. apply list_elem_of_fmap in Hn as (i & -> & _). apply Hsame. }
  rewrite H1, H2. cbn [fst snd]. split; [reflexivity|]. split.
  - unfold merged_hists, with_root_file. cbn [root_files].
    rewrite !lookup_insert_eq. reflexivity.
  - exists l. split; reflexivity.
Qed.

Lemma mergemacro_reads_only_the_sources_witness :
  snd (mergemacro_from 0 2
         (with_text_file "notes.txt" "x"
            (with_root_file "merged_AnalysisResults.root" (run_output 5 [])
               world_missing_histogram)))
  = snd (mergemacro_from 0 2 world_missing_histogram)
  /\ merged_hists (fst (mergemacro_from 0 2
         (with_text_file "notes.txt" "x"
            (with_root_file "merged_AnalysisResults.root" (run_output 5 [])
               world_missing_histogram))))
     = merged_hists (fst (mergemacro_from 0 2 world_missing_histogram))
  /\ exists lines,
       cerr (fst (mergemacro_from 0 2 world_missing_histogram))
       = cerr world_missing_histogram ++ lines
       /\ cerr (fst (mergemacro_from 0 2
            (with_text_file "notes.txt" "x"
               (with_root_file "merged_AnalysisResults.root" (run_output 5 [])
                  world_missing_histogram))))
          = cerr (with_text_file "notes.txt" "x"
                    (with_root_file "merged_AnalysisResults.root" (run_output 5 [])
                       world_missing_histogram)) ++ lines.
Proof.
  apply (mergemacro_reads_only_the_sources world_missing_histogram
           (with_text_file "notes.txt" "x"
              (with_root_file "merged_AnalysisResults.root" (run_output 5 [])
                 world_missing_histogram))
           0 2).
  - unfold INT_MAX. lia.
  - intros i. unfold source, with_text_file, with_root_file. cbn [root_files].
    apply lookup_insert_ne, AnalysisResults_not_merged_hists.
Defined.

(** Adding histograms of the same binning keeps the class, the axes and
    the number of cells of the first one. *)
Lemma merged_hist_shape (others : list (option (list TKey))) (name : string) :
  forall (h0 : TH1),
  forallb (same_binning h0 name) others = true ->
  h_class (merged_hist h0 others name) = h_class h0
  /\ h_axes (merged_hist h0 others name) = h_axes h0
  /\ length (h_cells (merged_hist h0 others name)) = length (h_cells h0).
Proof.
  unfold merged_hist, contributions.
  induction others as [|s others IH]; intros h0 Hsame; [auto|].
  cbn [forallb] in Hsame. apply andb_prop in Hsame as [Hs Hsame].
  cbn [omap list_omap].
  destruct (contribution name s) as [h|] eqn:Hcontr; [|apply IH, Hsame].
  assert (Hadd : addable h0 h = true).
  { unfold same_binning in Hs. unfold contribution, hist_of in Hcontr.
    destruct s as [keys|]; [|discriminate].
    destruct (lookup_obj keys name) as [[h'| |]|]; try discriminate.
    injection Hcontr as <-. exact Hs. }
  cbn [foldl].
  destruct (IH (TH1_sum h0 h)) as (Hc & Ha & Hl).
  - rewrite <- Hsame. apply forallb_pointwise.
    intros s'. apply same_binning_TH1_sum, Hadd.
  - rewrite Hc, Ha, Hl. cbn [TH1_sum h_class h_axes h_cells].
    rewrite length_zip_with. unfold addable in Hadd.
    apply andb_prop in Hadd as [_ Hlen]. apply Nat.eqb_eq in Hlen.
    rewrite <- Hlen, Nat.min_id. auto.
Qed.

(** X11.  What the histogram merge writes is again a well-formed run
    output: its entries have different names, each is a readable
    histogram of one of the three classes, recorded under its own class,
    and the merged histogram of each histogram taken from source 0 has
    the class, the axes and the number of cells of that histogram.  *)
Theorem merged_output_is_a_run_output (w : World) (start end_ : Z) (keys0 : list TKey) :
  start <= end_ < INT_MAX ->
  source w start = Some keys0 ->
  run_output_ok keys0 = true ->
  sources_share_binning keys0 (other_sources w start end_) = true ->
  exists out,
    merged_hists (fst (mergemacro_from start end_ w)) = Some out
    /\ run_output_ok out = true
    /\ Forall (fun k => recognized_and_readable k = true) out
    /\ forall k0 h0, k0 ∈ keys0 -> selected k0 = Some h0 ->
         exists h, hist_of out (key_name k0) = Some h
                   /\ h_class h = h_class h0
                   /\ h_axes h = h_axes h0
                   /\ length (h_cells h) = length (h_cells h0).
Proof.
  intros Hrange Hfirst Hok Hshare.
  exists (merged_keys keys0 (other_sources w start end_)).
  split; [apply merged_file; assumption|].
  split; [apply merged_keys_ok, Hok|].
  pose proof Hok as Hok'. unpack_ok Hok' Hnd Htyped. split.
  - apply Forall_forall. intros mk Hmk.
    apply list_elem_of_omap in Hmk as (k & Hk & Hmerged).
    destruct (selected k) as [h0|] eqn:Hsel.
    + rewrite forallb_forall in Htyped.
      specialize (Htyped k (proj1 (list_elem_of_In _ _) Hk)).
      destruct (selected_merged_key (other_sources w start end_) k h0 Htyped Hsel)
        as [Heq Hcls].
      rewrite Heq in Hmerged. injection Hmerged as <-.
      unfold recognized_and_readable. cbn [key_class key_readable].
      rewrite Hcls. reflexivity.
    + unfold merged_key in Hmerged. rewrite Hsel in Hmerged. discriminate.
  - intros k0 h0 Hin Hsel. eexists. split.
    + apply hist_of_merged_keys; eassumption.
    + apply merged_hist_shape.
      eapply sources_share_binning_elem; eassumption.
Qed.

Lemma merged_output_is_a_run_output_witness :
  exists out,
    merged_hists (fst (mergemacro_from 0 2 world_missing_histogram)) = Some out
    /\ run_output_ok out = true
    /\ Forall (fun k => recognized_and_readable k = true) out
    /\ forall k0 h0, k0 ∈ run_output 5 [example_row] -> selected k0 = Some h0 ->
         exists h, hist_of out (key_name k0) = Some h
                   /\ h_class h = h_class h0
                   /\ h_axes h = h_axes h0
                   /\ length (h_cells h) = length (h_cells h0).
Proof.
  apply (merged_output_is_a_run_output world_missing_histogram 0 2
           (run_output 5 [example_row])).
  - unfold INT_MAX. lia.
  - vm_compute. reflexivity.
  - vm_compute. reflexivity.
  - vm_compute. reflexivity.
Defined.

Lemma add_diagnostics_nil (w : World) (name : string) (l : list Z) :
  add_diagnostics (root_files w) (AnalysisResults <$> l) name = []
  <-> forallb (provides w name) l = true.
Proof.
  unfold add_diagnostics. induction l as [|i l IH]; [split; reflexivity|].
  rewrite !fmap_cons. cbn [concat forallb].
  unfold file_diagnostics at 1, provides at 1, source.
  destruct (root_files w !! AnalysisResults i) as [keys|].
  - destruct (lookup_obj keys name) as [o|].
    + rewrite bool_decide_eq_true_2 by (eexists; reflexivity). exact IH.
    + split; discriminate.
  - split; discriminate.
Qed.

Lemma key_diagnostics_nil (w : World) (start end_ : Z) (keys0 : list TKey) :
  concat (key_diagnostics (root_files w) (other_names start end_)
            (AnalysisResults start) <$> keys0) = []
  <-> nothing_missing w start end_ keys0 = true.
Proof.
  unfold nothing_missing. induction keys0 as [|k keys0 IH]; [split; reflexivity|].
  rewrite fmap_cons. cbn [concat forallb].
  rewrite andb_true_iff, <- IH. unfold key_diagnostics at 1, other_names.
  destruct (not_histogram (key_class k)); cbn [orb app].
  - tauto.
  - destruct (key_readable k); cbn [andb].
    + rewrite <- add_diagnostics_nil. split.
      * intros H. apply app_eq_nil in H. exact H.
      * intros [-> ->]. reflexivity.
    + split; [discriminate|intros [? _]; discriminate].
Qed.

(** X12.  The log tells whether anything was missing: in a merge of
    well-formed run outputs, no line is added to [cerr] exactly when
    every histogram key of source 0 can be read and every other source
    can be opened and has an object under each of their names. *)
Theorem merge_is_silent_iff_nothing_is_missing (w : World) (start end_ : Z)
    (keys0 : list TKey) :
  start <= end_ < INT_MAX ->
  source w start = Some keys0 ->
  run_output_ok keys0 = true ->
  sources_share_binning keys0 (other_sources w start end_) = true ->
  (cerr (fst (mergemacro_from start end_ w)) = cerr w)
  <-> (nothing_missing w start end_ keys0 = true).
Proof.
  intros Hrange Hfirst Hok Hshare.
  rewrite (merge_log w start end_ keys0) by assumption.
  rewrite <- key_diagnostics_nil. split.
  - intros H. apply (app_inv_head (cerr w)). rewrite app_nil_r. exact H.
  - intros ->. apply app_nil_r.
Qed.

Lemma merge_is_silent_iff_nothing_is_missing_witness :
  (cerr (fst (mergemacro_from 0 2 world_missing_histogram)) = cerr world_missing_histogram)
  <-> (nothing_missing world_missing_histogram 0 2 (run_output 5 [example_row]) = true).
Proof.
  apply (merge_is_silent_iff_nothing_is_missing world_missing_histogram 0 2
           (run_output 5 [example_row])).
  - unfold INT_MAX. lia.
  - vm_compute. reflexivity.
  - vm_compute. reflexivity.
  - vm_compute. reflexivity.
Defined.

(** X13.  A histogram key of source 0 that cannot be read is reported
    and left out, and the merge goes on: in a merge of well-formed run
    outputs the macro completes, the line
    [Error loading histogram <name> from file <file of source 0>] is in
    the log, the merged file has no entry of that name, and every
    histogram of source 0 that can be read is still merged. *)
Theorem unreadable_histogram_is_reported (w : World) (start end_ : Z)
    (keys0 : list TKey) (k0 : TKey) :
  start <= end_ < INT_MAX ->
  source w start = Some keys0 ->
  run_output_ok keys0 = true ->
  sources_share_binning keys0 (other_sources w start end_) = true ->
  k0 ∈ keys0 -> not_histogram (key_class k0) = false -> key_readable k0 = false ->
  snd (mergemacro_from start end_ w) = Done tt
  /\ ("Error loading histogram " +:+ key_name k0 +:+ " from file "
      +:+ AnalysisResults start) ∈ cerr (fst (mergemacro_from start end_ w))
  /\ exists out,
       merged_hists (fst (mergemacro_from start end_ w)) = Some out
       /\ (key_name k0 ∉ key_name <$> out)
       /\ forall k h, k ∈ keys0 -> selected k = Some h ->
            hist_of out (key_name k)
            = Some (merged_hist h (other_sources w start end_) (key_name k)).
Proof.
  intros Hrange Hfirst Hok Hshare Hin Hcls Hunread.
  split; [apply (merge_completes w start end_ keys0); assumption|]. split.
  - rewrite (merge_log w start end_ keys0) by assumption.
    apply elem_of_app. right. apply (elem_of_concat_fmap _ _ k0); [exact Hin|].
    unfold key_diagnostics. rewrite Hcls, Hunread. left.
  - exists (merged_keys keys0 (other_sources w start end_)).
    split; [apply merged_file; assumption|].
    pose proof Hok as Hok'. unpack_ok Hok' Hnd Htyped. split.
    + intros Hname. apply list_elem_of_fmap in Hname as (mk & Heq & Hmk).
      apply list_elem_of_omap in Hmk as (k & Hk & Hmerged).
      rewrite (merged_key_name _ _ _ Hmerged) in Heq.
      assert (k0 = k) by (eapply (NoDup_fmap_same key_name); eassumption).
      subst k. unfold merged_key, selected in Hmerged.
      rewrite Hcls, Hunread in Hmerged. discriminate.
    + intros k h Hk Hsel. apply hist_of_merged_keys; assumption.
Qed.

Lemma unreadable_histogram_is_reported_witness :
  snd (mergemacro_from 0 1 world_unreadable_histogram) = Done tt
  /\ ("Error loading histogram " +:+ key_name unreadable_key +:+ " from file "
      +:+ AnalysisResults 0) ∈ cerr (fst (mergemacro_from 0 1 world_unreadable_histogram))
  /\ exists out,
       merged_hists (fst (mergemacro_from 0 1 world_unreadable_histogram)) = Some out
       /\ (key_name unreadable_key ∉ key_name <$> out)
       /\ forall k h, k ∈ unreadable_key :: run_output 5 [] -> selected k = Some h ->
            hist_of out (key_name k)
            = Some (merged_hist h (other_sources world_unreadable_histogram 0 1)
                      (key_name k)).
Proof.
  apply (unreadable_histogram_is_reported world_unreadable_histogram 0 1
           (unreadable_key :: run_output 5 []) unreadable_key).
  - unfold INT_MAX. lia.
  - vm_compute. reflexivity.
  - vm_compute. reflexivity.
  - vm_compute. reflexivity.
  - left.
  - reflexivity.
  - reflexivity.
Defined.

(* ===================================================================== *)
(** * Properties of the event loop of the generator *)
(* ===================================================================== *)

Section GeneratorProperties.

Variable inclusive_jets : list FourMomentum -> list PseudoJet.
Variables cosh cos : Double_t -> Double_t.

Lemma eta_cut_spec (jets : list PseudoJet) :
  forall acc, eta_cut jets acc = acc ++ List.filter central jets.
Proof.
  induction jets as [|jet jets IH]; intros acc; cbn [eta_cut List.filter].
  - rewrite app_nil_r. reflexivity.
  - unfold central at 1. destruct (SFltb (fabs (jet_eta jet)) (dbl_lit 1 2)).
    + rewrite IH, <- app_assoc. reflexivity.
    + apply IH.
Qed.

(** Once a pair is found the loop makes no further pass. *)
Lemma pair_loop_found (n i : nat) (cut : list PseudoJet) (leading_jet : PseudoJet)
    (ievt : Z) (sigma : Double_t) (ev : Event) (st : Filled) :
  pair_loop cosh cos n i cut leading_jet ievt sigma ev true st = st.
Proof.
  destruct n as [|n]; [reflexivity|]. cbn [pair_loop negb].
  rewrite andb_false_r. reflexivity.
Qed.

(** The loop with its flag fills for the first jet, from index [i] on,
    that is back to back with the leading jet, and for no other. *)
Lemma pair_loop_spec (cut : list PseudoJet) (leading_jet : PseudoJet)
    (ievt : Z) (sigma : Double_t) (ev : Event) :
  forall (n i : nat) (st : Filled),
  (length cut <= n + i)%nat ->
  pair_loop cosh cos n i cut leading_jet ievt sigma ev false st
  = match List.find (back_to_back leading_jet) (drop i cut) with
    | Some subleading_jet =>
        with_dijet cosh cos ievt sigma ev leading_jet subleading_jet st
    | None => st
    end.
Proof.
  induction n as [|n IH]; intros i st Hfuel.
  - rewrite drop_ge by lia. reflexivity.
  - cbn [pair_loop negb]. rewrite andb_true_r.
    destruct (Nat.ltb_spec i (length cut)) as [Hi|Hi].
    + destruct (lookup_lt_is_Some_2 cut i Hi) as [sub Hsub].
      rewrite Hsub, (drop_S cut sub i Hsub). cbn [List.find].
      unfold back_to_back at 1.
      destruct (SFltb _ (ddiv M_PI (dbl 2))).
      * rewrite pair_loop_found. reflexivity.
      * apply IH. lia.
    + rewrite drop_ge by lia. reflexivity.
Qed.

(** One pass of the event loop, with the two loops over the jets read
    as a filter and a search. *)
Lemma analyse_spec (ievt : Z) (pass : Pass) (st : Filled) :
  analyse inclusive_jets cosh cos ievt pass st
  = match next pass with
    | None => st
    | Some ev =>
        match dijet (jets_of inclusive_jets ev) with
        | Some (leading_jet, subleading_jet) =>
            with_dijet cosh cos ievt (sigmaGen pass) ev leading_jet subleading_jet
              (with_event ievt st)
        | None => with_event ievt st
        end
    end.
Proof.
  unfold analyse. destruct (next pass) as [ev|]; [|reflexivity]. cbv zeta.
  assert (Hst : (if Z.rem ievt 10000 =? 0
                 then mkFilled (fills_hnevent st ++ [dbl_lit 1 2]) (fills_hDijetMass st)
                        (fills_hPartonicX st) (rows_dijetNtuple st)
                        (printed st ++ [dec ievt])
                 else mkFilled (fills_hnevent st ++ [dbl_lit 1 2]) (fills_hDijetMass st)
                        (fills_hPartonicX st) (rows_dijetNtuple st) (printed st))
                = with_event ievt st).
  { unfold with_event. destruct (Z.rem ievt 10000 =? 0); [reflexivity|].
    rewrite app_nil_r. reflexivity. }
  cbn [fills_hnevent fills_hDijetMass fills_hPartonicX rows_dijetNtuple printed].
  rewrite Hst. clear Hst.
  rewrite eta_cut_spec, app_nil_l. unfold dijet, jets_of.
  destruct (List.filter central (inclusive_jets (select_tracks (event ev) [])))
    as [|leading_jet rest].
  - reflexivity.
  - destruct rest as [|second rest]; [reflexivity|].
    change (length (leading_jet :: second :: rest) <? 2)%nat with false.
    cbn [lookup list_lookup].
    rewrite pair_loop_spec by lia.
    change (drop 1 (leading_jet :: second :: rest)) with (second :: rest).
    destruct (List.find (back_to_back leading_jet) (second :: rest)); reflexivity.
Qed.

(** The first element kept by a filter, and what comes before it. *)
Lemma filter_first {A : Type} (P : A -> bool) (l : list A) (x : A) (rest : list A) :
  List.filter P l = x :: rest ->
  exists before after,
    l = before ++ x :: after
    /\ Forall (fun y => P y = false) before
    /\ P x = true
    /\ List.filter P after = rest.
Proof.
  induction l as [|y l IH]; cbn [List.filter]; [discriminate|].
  destruct (P y) eqn:Hy.
  - intros [= -> <-]. exists [], l. auto.
  - intros H. destruct (IH H) as (before & after & -> & Hb & Hx & Hrest).
    exists (y :: before), after. auto.
Qed.

Lemma filter_first_inv {A : Type} (P : A -> bool) (before after : list A) (x : A) :
  Forall (fun y => P y = false) before -> P x = true ->
  List.filter P (before ++ x :: after) = x :: List.filter P after.
Proof.
  intros Hb Hx. induction Hb as [|y before Hy Hb IH]; cbn [app List.filter].
  - rewrite Hx. reflexivity.
  - rewrite Hy. exact IH.
Qed.

(** What a search in the kept elements finds, in terms of the list. *)
Lemma find_filter_Some {A : Type} (P Q : A -> bool) (l : list A) (x : A) :
  List.find Q (List.filter P l) = Some x ->
  exists between after,
    l = between ++ x :: after
    /\ Forall (fun y => P y = true -> Q y = false) between
    /\ P x = true /\ Q x = true.
Proof.
  induction l as [|y l IH]; cbn [List.filter]; [discriminate|].
  destruct (P y) eqn:Hy; cbn [List.find].
  - destruct (Q y) eqn:Hq.
    + intros [= ->]. exists [], l. auto.
    + intros H. destruct (IH H) as (between & after & -> & Hb & Hp & Hqx).
      exists (y :: between), after. auto.
  - intros H. destruct (IH H) as (between & after & -> & Hb & Hp & Hqx).
    exists (y :: between), after. repeat split; auto.
    constructor; [congruence|exact Hb].
Qed.

Lemma find_filter_None {A : Type} (P Q : A -> bool) (l : list A) :
  List.find Q (List.filter P l) = None ->
  Forall (fun y => P y = true -> Q y = false) l.
Proof.
  induction l as [|y l IH]; cbn [List.filter]; [constructor|].
  destruct (P y) eqn:Hy; cbn [List.find].
  - destruct (Q y) eqn:Hq; [discriminate|]. auto.
  - intros H. constructor; [congruence|auto].
Qed.

(** X14.  The dijet of an event.  In a pass whose event is generated, the
    event is counted and either a dijet is filled, once, or nothing is.
    The dijet filled is made of the first jet with [|eta| < 0.5] of the
    jet finder's list and of the first jet after it that has
    [|eta| < 0.5] and is back to back with it (azimuthal distance within
    a quarter turn of a half turn); nothing is filled exactly when there
    is no jet with [|eta| < 0.5], or none after the first one is back to
    back with it. *)
Theorem pass_fills_the_first_back_to_back_pair (ievt : Z) (pass : Pass) (st : Filled)
    (ev : Event) :
  next pass = Some ev ->
  (exists before leading_jet between subleading_jet after,
      jets_of inclusive_jets ev
      = before ++ leading_jet :: between ++ subleading_jet :: after
      /\ Forall (fun jet => central jet = false) before
      /\ central leading_jet = true
      /\ Forall (fun jet => central jet = true -> back_to_back leading_jet jet = false)
           between
      /\ central subleading_jet = true
      /\ back_to_back leading_jet subleading_jet = true
      /\ analyse inclusive_jets cosh cos ievt pass st
         = with_dijet cosh cos ievt (sigmaGen pass) ev leading_jet subleading_jet
             (with_event ievt st))
  \/ (analyse inclusive_jets cosh cos ievt pass st = with_event ievt st
      /\ forall before leading_jet after,
           jets_of inclusive_jets ev = before ++ leading_jet :: after ->
           Forall (fun jet => central jet = false) before ->
           central leading_jet = true ->
           Forall (fun jet => central jet = true -> back_to_back leading_jet jet = false)
             after).
Proof.
  intros Hnext. rewrite analyse_spec, Hnext. unfold dijet.
  destruct (List.filter central (jets_of inclusive_jets ev)) as [|l rest] eqn:Hcut.
  - right. split; [reflexivity|]. intros before l after Hjets Hb Hl.
    rewrite Hjets, (filter_first_inv central before after l Hb Hl) in Hcut.
    discriminate.
  - destruct (filter_first central _ l rest Hcut)
      as (before & after & Hjets & Hb & Hl & Hrest).
    destruct (List.find (back_to_back l) rest) as [s|] eqn:Hfind.
    + left. rewrite <- Hrest in Hfind.
      destruct (find_filter_Some central (back_to_back l) after s Hfind)
        as (between & after' & -> & Hbetween & Hs & Hbb).
      exists before, l, between, s, after'. auto 10.
    + right. split; [reflexivity|]. intros before' l' after' Hjets' Hb' Hl'.
      rewrite Hjets', (filter_first_inv central before' after' l' Hb' Hl') in Hcut.
      injection Hcut as -> <-. apply find_filter_None, Hfind.
Qed.

(** The table after the passes, as what each pass adds. *)
Lemma event_loop_spec (passes : list Pass) :
  forall (ievt : Z) (st : Filled),
  let st' := event_loop inclusive_jets cosh cos ievt passes st in
  let added := concat (imap (fun k pass =>
                         rows_of_pass inclusive_jets cosh cos (ievt + Z.of_nat k) pass)
                         passes) in
  rows_dijetNtuple st' = rows_dijetNtuple st ++ added
  /\ length (fills_hDijetMass st') = (length (fills_hDijetMass st) + length added)%nat
  /\ length (fills_hPartonicX st') = (length (fills_hPartonicX st) + length added)%nat
  /\ length (fills_hnevent st')
     = (length (fills_hnevent st)
        + length (List.filter (fun pass => bool_decide (is_Some (next pass))) passes))%nat
  /\ (length added
      <= length (List.filter (fun pass => bool_decide (is_Some (next pass))) passes))%nat.
Proof.
  induction passes as [|pass passes IH]; intros ievt st; cbv zeta.
  - cbn. rewrite app_nil_r. repeat split; lia.
  - cbn [event_loop imap concat List.filter].
    destruct (IH (ievt + 1) (analyse inclusive_jets cosh cos ievt pass st))
      as (Hrows & Hmass & Hx & Hn & Hle).
    rewrite Hrows, Hmass, Hx, Hn. clear Hrows Hmass Hx Hn.
    assert (Hshift : imap ((fun k pass0 =>
                       rows_of_pass inclusive_jets cosh cos (ievt + Z.of_nat k) pass0) ∘ S)
                       passes
                     = imap (fun k pass0 =>
                         rows_of_pass inclusive_jets cosh cos (ievt + 1 + Z.of_nat k) pass0)
                         passes).
    { apply imap_ext. intros k p _. cbn. f_equal. lia. }
    rewrite Hshift. clear Hshift. rewrite Z.add_0_r.
    set (rest := concat (imap _ passes)) in *.
    set (n := length (List.filter _ passes)) in *.
    rewrite analyse_spec. unfold rows_of_pass at 1 2 3 4.
    destruct (next pass) as [ev|].
    + rewrite bool_decide_eq_true_2 by (eexists; reflexivity).
      destruct (dijet (jets_of inclusive_jets ev)) as [[l s]|];
        cbn [with_dijet with_event rows_dijetNtuple fills_hDijetMass fills_hPartonicX
             fills_hnevent length app];
        rewrite ?length_app, <- ?app_assoc; cbn [length app]; repeat split; lia.
    + rewrite bool_decide_eq_false_2 by (intros [? ?]; discriminate).
      cbn [app length]. repeat split; lia.
Qed.

(** X15.  The table of a run follows the events: it holds, in event
    order, one row for each generated event that has a dijet (its index
    in the first column) and no other row; the mass histogram and the
    histogram of the momentum fractions were filled once per row, and the
    event counter once per generated event, so that the table never has
    more rows than the counter has entries. *)
Theorem table_follows_the_events (passes : list Pass) :
  let st := analysis inclusive_jets cosh cos passes in
  rows_dijetNtuple st
  = concat (imap (fun k pass => rows_of_pass inclusive_jets cosh cos (Z.of_nat k) pass)
              passes)
  /\ length (fills_hDijetMass st) = length (rows_dijetNtuple st)
  /\ length (fills_hPartonicX st) = length (rows_dijetNtuple st)
  /\ length (fills_hnevent st)
     = length (List.filter (fun pass => bool_decide (is_Some (next pass))) passes)
  /\ (length (rows_dijetNtuple st) <= length (fills_hnevent st) <= length passes)%nat.
Proof.
  cbv zeta. unfold analysis.
  destruct (event_loop_spec passes 0 nothing_filled) as (Hrows & Hmass & Hx & Hn & Hle).
  cbn [nothing_filled rows_dijetNtuple fills_hDijetMass fills_hPartonicX fills_hnevent
       length app Nat.add] in *.
  rewrite Hrows, Hmass, Hx, Hn.
  pose proof (filter_length_le (fun pass => bool_decide (is_Some (next pass))) passes).
  split; [reflexivity|]. repeat split; try reflexivity; lia.
Qed.

End GeneratorProperties.

Lemma pass_fills_the_first_back_to_back_pair_witness :
  (exists before leading_jet between subleading_jet after,
      jets_of (fun _ => example_jets) example_event
      = before ++ leading_jet :: between ++ subleading_jet :: after
      /\ Forall (fun jet => central jet = false) before
      /\ central leading_jet = true
      /\ Forall (fun jet => central jet = true -> back_to_back leading_jet jet = false)
           between
      /\ central subleading_jet = true
      /\ back_to_back leading_jet subleading_jet = true
      /\ analyse (fun _ => example_jets) (fun x => x) (fun x => x) 7 example_pass
           nothing_filled
         = with_dijet (fun x => x) (fun x => x) 7 (sigmaGen example_pass) example_event
             leading_jet subleading_jet (with_event 7 nothing_filled))
  \/ (analyse (fun _ => example_jets) (fun x => x) (fun x => x) 7 example_pass
        nothing_filled
      = with_event 7 nothing_filled
      /\ forall before leading_jet after,
           jets_of (fun _ => example_jets) example_event
           = before ++ leading_jet :: after ->
           Forall (fun jet => central jet = false) before ->
           central leading_jet = true ->
           Forall (fun jet => central jet = true -> back_to_back leading_jet jet = false)
             after).
Proof.
  apply (pass_fills_the_first_back_to_back_pair (fun _ => example_jets)
           (fun x => x) (fun x => x) 7 example_pass nothing_filled example_event).
  reflexivity.
Defined.

(** ** Integers in the [float] columns *)

(** The number of binary digits of a positive number bounds it. *)
Lemma digits2_pos_bounds (p : positive) :
  2 ^ (Zpos (digits2_pos p) - 1) <= Zpos p < 2 ^ Zpos (digits2_pos p).
Proof.
  induction p as [p IH|p IH|]; cbn [digits2_pos].
  - rewrite Pos2Z.inj_succ.
    replace (Z.succ (Zpos (digits2_pos p)) - 1)
      with (Z.succ (Zpos (digits2_pos p) - 1)) by lia.
    rewrite !Z.pow_succ_r by lia. lia.
  - rewrite Pos2Z.inj_succ.
    replace (Z.succ (Zpos (digits2_pos p)) - 1)
      with (Z.succ (Zpos (digits2_pos p) - 1)) by lia.
    rewrite !Z.pow_succ_r by lia. lia.
  - cbn. lia.
Qed.

Lemma digits2_pos_iter_xO (n : positive) (p : positive) :
  Zpos (digits2_pos (Pos.iter xO p n)) = Zpos (digits2_pos p) + Zpos n.
Proof.
  revert p. induction n as [|n IH] using Pos.peano_ind; intros p.
  - cbn. lia.
  - rewrite Pos.iter_succ. cbn [digits2_pos]. rewrite Pos2Z.inj_succ, IH. lia.
Qed.

Lemma Zpos_iter_xO (n p : positive) :
  Zpos (Pos.iter xO p n) = Zpos p * 2 ^ Zpos n.
Proof.
  revert p. induction n as [|n IH] using Pos.peano_ind; intros p.
  - cbn. lia.
  - rewrite Pos.iter_succ, Pos2Z.inj_xO, IH, Pos2Z.inj_succ, Z.pow_succ_r by lia. lia.
Qed.

(** A single-precision mantissa of full width is not rounded. *)
Lemma binary_round_aux_exact (s : bool) (m : positive) (e : Z) :
  Zpos (digits2_pos m) = 24 -> -149 <= e <= 104 ->
  binary_round_aux 24 128 s (Zpos m) e loc_Exact = S754_finite s m e.
Proof.
  intros Hd He. unfold binary_round_aux, shr_fexp, Zdigits2, shr_record_of_loc.
  rewrite Hd. unfold fexp, emin.
  replace (Z.max (24 + e - 24) (3 - 128 - 24) - e) with 0 by lia.
  cbn [shr loc_of_shr_record shr_m shr_r shr_s round_nearest_even].
  rewrite Hd.
  replace (Z.max (24 + e - 24) (3 - 128 - 24) - e) with 0 by lia.
  cbn [shr shr_m].
  destruct (Z.leb_spec e (128 - 24)); [reflexivity|lia].
Qed.

(** An integer below [2^24] is a single-precision number: the conversion
    shifts it to full width and does not round. *)
Lemma binary_round_small (s : bool) (p : positive) :
  Zpos p < 2 ^ 24 ->
  exists m e, binary_round 24 128 s p 0 = S754_finite s m e
              /\ -23 <= e <= 0 /\ Zpos m = Zpos p * 2 ^ (- e).
Proof.
  intros Hp. pose proof (digits2_pos_bounds p) as Hd.
  assert (Hdig : Zpos (digits2_pos p) <= 24).
  { destruct (Z.le_gt_cases (Zpos (digits2_pos p)) 24) as [H|H]; [exact H|].
    assert (2 ^ 24 <= 2 ^ (Zpos (digits2_pos p) - 1)) by (apply Z.pow_le_mono_r; lia).
    lia. }
  unfold binary_round, shl_align, fexp, emin.
  replace (Z.max (Zpos (digits2_pos p) + 0 - 24) (3 - 128 - 24) - 0)
    with (Zpos (digits2_pos p) - 24) by lia.
  replace (Z.max (Zpos (digits2_pos p) + 0 - 24) (3 - 128 - 24))
    with (Zpos (digits2_pos p) - 24) by lia.
  destruct (Zpos (digits2_pos p) - 24) as [|d|d] eqn:Hshift; try lia.
  - exists p, 0. rewrite binary_round_aux_exact by lia. split; [reflexivity|].
    split; [lia|]. cbn. lia.
  - exists (Pos.iter xO p d), (Zneg d).
    rewrite binary_round_aux_exact.
    + split; [reflexivity|]. split; [lia|]. rewrite Zpos_iter_xO. reflexivity.
    + rewrite digits2_pos_iter_xO. lia.
    + lia.
Qed.

Lemma Ztrunc_exact (s : bool) (m p : positive) (e : Z) :
  -23 <= e <= 0 -> Zpos m = Zpos p * 2 ^ (- e) ->
  Ztrunc (S754_finite s m e) = Some (cond_Zopp s (Zpos p)).
Proof.
  intros He Hm. unfold Ztrunc. do 2 f_equal.
  destruct e as [|q|q]; try lia.
  rewrite Hm. cbn [Z.opp]. apply Z.div_mul. apply Z.pow_nonzero; lia.
Qed.

(** Up to [2^24] in magnitude an [int] goes through a [float] and comes
    back as it was. *)
Lemma int_of_float_of_int (i : Z) :
  -16777216 <= i <= 16777216 -> int_of_float (float_of_int i) = i.
Proof.
  intros Hi.
  assert (Hcases : i = 16777216 \/ i = -16777216 \/ -16777216 < i < 16777216) by lia.
  destruct Hcases as [->|[->|Hlt]]; [vm_compute; reflexivity|vm_compute; reflexivity|].
  unfold float_of_int, binary_normalize.
  destruct i as [|p|p]; [reflexivity| |].
  - destruct (binary_round_small false p) as (m & e & -> & He & Hm); [cbn; lia|].
    unfold int_of_float. rewrite (Ztrunc_exact false m p e He Hm). cbn [cond_Zopp].
    unfold INT_MIN, INT_MAX.
    destruct (Z.leb_spec (-2147483648) (Zpos p)); [|lia].
    destruct (Z.leb_spec (Zpos p) 2147483647); [reflexivity|lia].
  - destruct (binary_round_small true p) as (m & e & -> & He & Hm); [cbn; lia|].
    unfold int_of_float. rewrite (Ztrunc_exact true m p e He Hm). cbn [cond_Zopp].
    change (- Zpos p) with (Zneg p). unfold INT_MIN, INT_MAX.
    destruct (Z.leb_spec (-2147483648) (Zneg p)); [|lia].
    destruct (Z.leb_spec (Zneg p) 2147483647); [reflexivity|lia].
Qed.

(** Past [2^24] the event index is no longer kept: 16777217 comes back as
    16777216. *)
Lemma float_of_int_rounds_past_2_24 :
  int_of_float (float_of_int 16777217) = 16777216.
Proof. vm_compute. reflexivity. Qed.

(** X16.  From the generator to the CSV: the event index and the two
    parton identifiers are stored as [float]s and read back as [int]s by
    the export.  For an event index up to 16777216 and identifiers up to
    that magnitude, the line the export writes for the row of a dijet
    starts with the event index and ends with the two identifiers, as
    they were in the generator. *)
Theorem integers_survive_the_float_columns (cosh cos : Double_t -> Double_t)
    (ievt : Z) (ev : Event) (leading_jet subleading_jet : PseudoJet) :
  0 <= ievt <= 16777216 ->
  -16777216 <= info_id1 ev <= 16777216 ->
  -16777216 <= info_id2 ev <= 16777216 ->
  let r := dijet_row cosh cos ievt ev leading_jet subleading_jet in
  int_of_float (eventNum r) = ievt
  /\ int_of_float (parton1Id r) = info_id1 ev
  /\ int_of_float (parton2Id r) = info_id2 ev
  /\ streamed r
     = dec ievt +:+ "," +:+
       put_fixed2 (dijetMass r) +:+ "," +:+
       put_fixed2 (leadingJetPt r) +:+ "," +:+
       put_fixed2 (subleadingJetPt r) +:+ "," +:+
       put_fixed2 (deltaPhi r) +:+ "," +:+
       put_fixed2 (deltaEta r) +:+ "," +:+
       put_fixed2 (x1 r) +:+ "," +:+
       put_fixed2 (x2 r) +:+ "," +:+
       dec (info_id1 ev) +:+ "," +:+
       dec (info_id2 ev) +:+ endl.
Proof.
  intros Hevt Hid1 Hid2 r.
  assert (H0 : int_of_float (eventNum r) = ievt)
    by (apply int_of_float_of_int; lia).
  assert (H1 : int_of_float (parton1Id r) = info_id1 ev)
    by (apply int_of_float_of_int; lia).
  assert (H2 : int_of_float (parton2Id r) = info_id2 ev)
    by (apply int_of_float_of_int; lia).
  repeat split; try assumption.
  unfold streamed, csv_row. rewrite H0, H1, H2. reflexivity.
Qed.

Lemma integers_survive_the_float_columns_witness :
  let r := dijet_row (fun x => x) (fun x => x) 16777215 example_event
             (jet_at (dbl 50) (dbl_lit 1 10) (dbl_lit 5 10))
             (jet_at (dbl 30) (dbl_lit 3 10) (dbl_lit 35 10)) in
  int_of_float (eventNum r) = 16777215
  /\ int_of_float (parton1Id r) = info_id1 example_event
  /\ int_of_float (parton2Id r) = info_id2 example_event
  /\ streamed r
     = dec 16777215 +:+ "," +:+
       put_fixed2 (dijetMass r) +:+ "," +:+
       put_fixed2 (leadingJetPt r) +:+ "," +:+
       put_fixed2 (subleadingJetPt r) +:+ "," +:+
       put_fixed2 (deltaPhi r) +:+ "," +:+
       put_fixed2 (deltaEta r) +:+ "," +:+
       put_fixed2 (x1 r) +:+ "," +:+
       put_fixed2 (x2 r) +:+ "," +:+
       dec (info_id1 example_event) +:+ "," +:+
       dec (info_id2 example_event) +:+ endl.
Proof.
  apply (integers_survive_the_float_columns (fun x => x) (fun x => x) 16777215
           example_event
           (jet_at (dbl 50) (dbl_lit 1 10) (dbl_lit 5 10))
           (jet_at (dbl 30) (dbl_lit 3 10) (dbl_lit 35 10))).
  - lia.
  - cbn. lia.
  - cbn. lia.
Defined.

(** ** The sign of the azimuthal distance *)

Lemma signbit_binary_round_aux (mx ex : Z) (lx : location) :
  signbit (binary_round_aux 24 128 false mx ex lx) = false.
Proof.
  unfold binary_round_aux.
  destruct (shr_fexp 24 128 mx ex lx) as [mrs e'].
  destruct (shr_fexp 24 128 _ e' loc_Exact) as [mrs' e''].
  destruct (shr_m mrs') as [|m|m]; [reflexivity| |reflexivity].
  destruct (e'' <=? 128 - 24); reflexivity.
Qed.

Lemma signbit_to_Float_t_fabs (x : Double_t) : signbit (to_Float_t (fabs x)) = false.
Proof.
  destruct x as [s|s| |s m e]; try reflexivity.
  cbn [fabs SFabs to_Float_t cond_Zopp binary_normalize]. unfold binary_round.
  destruct (shl_align m e _) as [mz ez]. apply signbit_binary_round_aux.
Qed.

Lemma minus_uint (d : Decimal.uint) :
  count_char minus_sign (NilEmpty.string_of_uint d) = O.
Proof. induction d; simpl; auto. Qed.

Lemma minus_dec (z : Z) : 0 <= z -> count_char minus_sign (dec z) = O.
Proof.
  intros Hz. unfold dec, NilZero.string_of_int, NilZero.string_of_uint.
  destruct z as [|p|p]; [reflexivity| |lia].
  cbn [Z.to_int]. destruct (Pos.to_uint p) eqn:Hp; simpl; auto using minus_uint.
Qed.

Lemma hundredths_nonneg (m : positive) (e : Z) : 0 <= hundredths m e.
Proof.
  unfold hundredths. destruct e as [|q|q]; try (pose proof (Z.pow_pos_nonneg 2 (Zpos q)); nia).
  - lia.
  - unfold round_half_even.
    assert (0 < 2 ^ Zpos q) by (apply Z.pow_pos_nonneg; lia).
    assert (0 <= Zpos m * 100 / 2 ^ Zpos q) by (apply Z.div_pos; lia).
    destruct (2 * ((Zpos m * 100) mod 2 ^ Zpos q) ?= 2 ^ Zpos q); try lia.
    destruct (Z.even _); lia.
Qed.

Lemma minus_put_fixed2 (x : spec_float) :
  signbit x = false -> count_char minus_sign (put_fixed2 x) = O.
Proof.
  destruct x as [s|s| |s m e]; cbn [signbit]; intros Hs; try subst s; try reflexivity.
  unfold put_fixed2. cbv zeta. pose proof (hundredths_nonneg m e) as Hq.
  rewrite !count_char_append, !minus_dec.
  - reflexivity.
  - apply Z.mod_pos_bound. lia.
  - apply Z.div_pos; [apply Z.mod_pos_bound|]; lia.
  - apply Z.div_pos; lia.
Qed.

Lemma Forall_concat_imap {A B : Type} (P : B -> Prop) (l : list A) :
  forall (f : nat -> A -> list B),
  (forall k x, Forall P (f k x)) -> Forall P (concat (imap f l)).
Proof.
  induction l as [|x l IH]; intros f Hf; cbn [imap concat]; [constructor|].
  apply Forall_app. split; [apply Hf|]. apply IH. intros k y. apply Hf.
Qed.

(** X17.  The azimuthal distance in the table is never negative: every
    row the generator fills has a [deltaPhi] without a sign (a positive
    number, zero, infinite or not a number), and the export never writes
    a minus sign in its [DeltaPhi] column. *)
Theorem deltaPhi_is_never_negative (inclusive_jets : list FourMomentum -> list PseudoJet)
    (cosh cos : Double_t -> Double_t) (passes : list Pass) :
  Forall (fun r => signbit (deltaPhi r) = false
                   /\ count_char minus_sign (put_fixed2 (deltaPhi r)) = O)
         (rows_dijetNtuple (analysis inclusive_jets cosh cos passes)).
Proof.
  unfold analysis.
  destruct (event_loop_spec inclusive_jets cosh cos passes 0 nothing_filled)
    as (-> & _).
  cbn [nothing_filled rows_dijetNtuple app].
  apply Forall_concat_imap. intros k pass. unfold rows_of_pass.
  destruct (next pass) as [ev|]; [|constructor].
  destruct (dijet (jets_of inclusive_jets ev)) as [[l s]|]; [|constructor].
  constructor; [|constructor].
  assert (Hs : signbit (deltaPhi (dijet_row cosh cos (0 + Z.of_nat k) ev l s)) = false)
    by apply signbit_to_Float_t_fabs.
  split; [exact Hs|apply minus_put_fixed2, Hs].
Qed.

(* ===================================================================== *)
(** * Histograms of counts *)
(* ===================================================================== *)

(** The digits of a number are those of any number in the same binade. *)
Lemma digits2_pos_unique (p : positive) (d : Z) :
  2 ^ (d - 1) <= Zpos p < 2 ^ d -> 0 < d -> Zpos (digits2_pos p) = d.
Proof.
  intros Hp Hd. pose proof (digits2_pos_bounds p) as Hb.
  destruct (Z.lt_trichotomy (Zpos (digits2_pos p)) d) as [Hlt|[Heq|Hgt]]; [|exact Heq|].
  - assert (2 ^ Zpos (digits2_pos p) <= 2 ^ (d - 1)) by (apply Z.pow_le_mono_r; lia). lia.
  - assert (2 ^ d <= 2 ^ (Zpos (digits2_pos p) - 1)) by (apply Z.pow_le_mono_r; lia). lia.
Qed.

Lemma iter_pos_comm {A : Type} (f : A -> A) (n : positive) :
  forall x, SpecFloat.iter_pos f n (f x) = f (SpecFloat.iter_pos f n x).
Proof.
  induction n as [n IH|n IH|]; intros x; cbn [SpecFloat.iter_pos].
  - rewrite !IH. reflexivity.
  - rewrite !IH. reflexivity.
  - reflexivity.
Qed.

Lemma iter_pos_succ {A : Type} (f : A -> A) (n : positive) :
  forall x, SpecFloat.iter_pos f (Pos.succ n) x = SpecFloat.iter_pos f n (f x).
Proof.
  induction n as [n IH|n IH|]; intros x.
  - change (Pos.succ n~1) with (Pos.succ n)~0%positive. cbn [SpecFloat.iter_pos].
    rewrite !IH, !iter_pos_comm. reflexivity.
  - reflexivity.
  - reflexivity.
Qed.

(** Shifting out bits that are zero is exact. *)
Lemma shr_exact (n q : positive) :
  SpecFloat.iter_pos shr_1 n {| shr_m := Zpos (Pos.iter xO q n); shr_r := false; shr_s := false |}
  = {| shr_m := Zpos q; shr_r := false; shr_s := false |}.
Proof.
  induction n as [|n IH] using Pos.peano_ind.
  - reflexivity.
  - rewrite iter_pos_succ, Pos.iter_succ. cbn [shr_1 orb]. exact IH.
Qed.

Lemma binary_round_aux_exact53 (s : bool) (m : positive) (e : Z) :
  Zpos (digits2_pos m) = 53 -> -1074 <= e <= 971 ->
  binary_round_aux 53 1024 s (Zpos m) e loc_Exact = S754_finite s m e.
Proof.
  intros Hd He. unfold binary_round_aux, shr_fexp, Zdigits2, shr_record_of_loc.
  rewrite Hd. unfold fexp, emin.
  replace (Z.max (53 + e - 53) (3 - 1024 - 53) - e) with 0 by lia.
  cbn [shr loc_of_shr_record shr_m shr_r shr_s round_nearest_even].
  rewrite Hd.
  replace (Z.max (53 + e - 53) (3 - 1024 - 53) - e) with 0 by lia.
  cbn [shr shr_m].
  destruct (Z.leb_spec e (1024 - 53)); [reflexivity|lia].
Qed.

(** The double of an integer below [2^53], however it is written: the
    mantissa [M] with exponent [E <= 0] stands for the integer
    [n = M * 2^E], and rounds to the full-width form of [n]. *)
Lemma binary_round_integer (s : bool) (M n : positive) (E : Z) :
  Zpos n < 2 ^ 53 -> -1074 <= E <= 0 -> Zpos M = Zpos n * 2 ^ (- E) ->
  exists q, binary_round 53 1024 s M E
            = S754_finite s q (Zpos (digits2_pos n) - 53)
            /\ Zpos q = Zpos n * 2 ^ (53 - Zpos (digits2_pos n)).
Proof.
  intros Hn HE HM. pose proof (digits2_pos_bounds n) as Hb.
  set (D := Zpos (digits2_pos n)) in *.
  assert (HD : 1 <= D <= 53).
  { split; [unfold D; lia|].
    destruct (Z.le_gt_cases D 53) as [H|H]; [exact H|].
    assert (2 ^ 53 <= 2 ^ (D - 1)) by (apply Z.pow_le_mono_r; lia). lia. }
  assert (HdM : Zpos (digits2_pos M) = D - E).
  { apply digits2_pos_unique; [|lia]. rewrite HM.
    replace (D - E - 1) with (D - 1 + - E) by lia.
    replace (D - E) with (D + - E) by lia.
    rewrite !Z.pow_add_r by lia.
    assert (0 < 2 ^ (- E)) by (apply Z.pow_pos_nonneg; lia). split.
    - apply Z.mul_le_mono_nonneg_r; lia.
    - apply Z.mul_lt_mono_pos_r; lia. }
  (* the mantissa of full width *)
  assert (Hq : exists q, Zpos q = Zpos n * 2 ^ (53 - D)).
  { destruct (53 - D) as [|k|k] eqn:Hk; try lia.
    - exists n. cbn. lia.
    - exists (Pos.iter xO n k). apply Zpos_iter_xO. }
  destruct Hq as [q Hq]. exists q. split; [|exact Hq].
  assert (Hdq : Zpos (digits2_pos q) = 53).
  { apply digits2_pos_unique; [|lia]. rewrite Hq.
    assert (HP : 0 < 2 ^ (53 - D)) by (apply Z.pow_pos_nonneg; lia).
    assert (H1 : 2 ^ (53 - 1) = 2 ^ (D - 1) * 2 ^ (53 - D))
      by (rewrite <- Z.pow_add_r by lia; f_equal; lia).
    assert (H2 : 2 ^ 53 = 2 ^ D * 2 ^ (53 - D))
      by (rewrite <- Z.pow_add_r by lia; f_equal; lia).
    rewrite H1, H2. split.
    - apply Z.mul_le_mono_nonneg_r; lia.
    - apply Z.mul_lt_mono_pos_r; lia. }
  unfold binary_round, shl_align. rewrite HdM. unfold fexp, emin.
  replace (Z.max (D - E + E - 53) (3 - 1024 - 53)) with (D - 53) by lia.
  destruct (D - 53 - E) as [|k|k] eqn:Hk.
  - (* the mantissa has full width already *)
    assert (M = q) as -> by (apply Pos2Z.inj; rewrite HM, Hq; f_equal; f_equal; lia).
    rewrite binary_round_aux_exact53 by lia. f_equal. lia.
  - (* it is wider: the low bits, all zero, are shifted out *)
    assert (M = Pos.iter xO q k) as ->.
    { apply Pos2Z.inj. rewrite Zpos_iter_xO, HM, Hq, <- Z.mul_assoc, <- Z.pow_add_r by lia.
      f_equal. f_equal. lia. }
    unfold binary_round_aux, shr_fexp, Zdigits2, shr_record_of_loc.
    rewrite digits2_pos_iter_xO, Hdq. unfold fexp, emin.
    replace (Z.max (53 + Zpos k + E - 53) (3 - 1024 - 53) - E) with (Zpos k) by lia.
    cbn [shr]. rewrite shr_exact.
    cbn [loc_of_shr_record shr_m shr_r shr_s round_nearest_even Zdigits2].
    rewrite Hdq.
    replace (Z.max (53 + (E + Zpos k) - 53) (3 - 1024 - 53) - (E + Zpos k)) with 0 by lia.
    cbn [shr shr_m].
    destruct (Z.leb_spec (E + Zpos k) (1024 - 53)); [|lia]. f_equal. lia.
  - (* it is narrower: it is shifted to full width *)
    assert (Pos.iter xO M k = q) as Hshift.
    { apply Pos2Z.inj. rewrite Zpos_iter_xO, HM, Hq, <- Z.mul_assoc, <- Z.pow_add_r by lia.
      f_equal. f_equal. lia. }
    rewrite Hshift. apply binary_round_aux_exact53; [exact Hdq|lia].
Qed.

Lemma spec_float_finite_eq (s : bool) (m m' : positive) (e e' : Z) :
  Zpos m = Zpos m' -> e = e' -> S754_finite s m e = S754_finite s m' e'.
Proof. intros Hm ->. apply Pos2Z.inj in Hm. subst. reflexivity. Qed.

Lemma shl_align_value (m : positive) (e e' : Z) :
  e' <= e -> Zpos (fst (shl_align m e e')) = Zpos m * 2 ^ (e - e').
Proof.
  intros He. unfold shl_align. destruct (e' - e) as [|k|k] eqn:Hk; try lia.
  - replace (e - e') with 0 by lia. cbn. lia.
  - cbn [fst]. rewrite Zpos_iter_xO. f_equal. f_equal. lia.
Qed.

(** The double of a positive integer below [2^53]. *)
Lemma dbl_pos (n : positive) :
  Zpos n < 2 ^ 53 ->
  exists q, dbl (Zpos n) = S754_finite false q (Zpos (digits2_pos n) - 53)
            /\ Zpos q = Zpos n * 2 ^ (53 - Zpos (digits2_pos n)).
Proof.
  intros Hn. unfold dbl, binary_normalize.
  apply binary_round_integer; [exact Hn|lia|cbn; lia].
Qed.

(** Adding the doubles of two counts gives the double of their sum, as
    long as the sum is below [2^53]. *)
Lemma dadd_dbl (a b : Z) :
  0 <= a -> 0 <= b -> a + b < 2 ^ 53 -> dadd (dbl a) (dbl b) = dbl (a + b).
Proof.
  intros Ha Hb Hsum.
  destruct a as [|a|a]; [|destruct b as [|b|b]|]; try lia.
  - destruct b as [|b|b]; try lia; [reflexivity|].
    rewrite Z.add_0_l. destruct (dbl_pos b) as (q & -> & _); [lia|]. reflexivity.
  - rewrite Z.add_0_r. destruct (dbl_pos a) as (q & -> & _); [lia|]. reflexivity.
  - pose proof (digits2_pos_bounds a) as Hba. pose proof (digits2_pos_bounds b) as Hbb.
    destruct (dbl_pos a) as (qa & -> & Hqa); [lia|].
    destruct (dbl_pos b) as (qb & -> & Hqb); [lia|].
    set (Da := Zpos (digits2_pos a)) in *. set (Db := Zpos (digits2_pos b)) in *.
    assert (HDa : 1 <= Da <= 53).
    { split; [unfold Da; lia|]. destruct (Z.le_gt_cases Da 53) as [H|H]; [exact H|].
      assert (2 ^ 53 <= 2 ^ (Da - 1)) by (apply Z.pow_le_mono_r; lia). lia. }
    assert (HDb : 1 <= Db <= 53).
    { split; [unfold Db; lia|]. destruct (Z.le_gt_cases Db 53) as [H|H]; [exact H|].
      assert (2 ^ 53 <= 2 ^ (Db - 1)) by (apply Z.pow_le_mono_r; lia). lia. }
    unfold dadd, SFadd. cbv zeta. cbn [cond_Zopp].
    set (ez := Z.min (Da - 53) (Db - 53)).
    rewrite !shl_align_value by (unfold ez; lia).
    assert (Hsum_pos : exists M, Zpos qa * 2 ^ (Da - 53 - ez) + Zpos qb * 2 ^ (Db - 53 - ez)
                                 = Zpos M
                                 /\ Zpos M = Zpos (a + b) * 2 ^ (- ez)).
    { assert (Hva : Zpos qa * 2 ^ (Da - 53 - ez) = Zpos a * 2 ^ (- ez)).
      { rewrite Hqa, <- Z.mul_assoc, <- Z.pow_add_r by (unfold ez; lia).
        f_equal. f_equal. lia. }
      assert (Hvb : Zpos qb * 2 ^ (Db - 53 - ez) = Zpos b * 2 ^ (- ez)).
      { rewrite Hqb, <- Z.mul_assoc, <- Z.pow_add_r by (unfold ez; lia).
        f_equal. f_equal. lia. }
      rewrite Hva, Hvb.
      assert (0 < 2 ^ (- ez)) by (apply Z.pow_pos_nonneg; unfold ez; lia).
      destruct (Zpos a * 2 ^ (- ez) + Zpos b * 2 ^ (- ez)) as [|M|M] eqn:HM; try nia.
      exists M. split; [reflexivity|]. rewrite <- HM. rewrite Pos2Z.inj_add. lia. }
    destruct Hsum_pos as (M & -> & HM).
    change (Zpos a + Zpos b) with (Zpos (a + b)).
    unfold binary_normalize.
    destruct (binary_round_integer false M (a + b) ez) as (q & -> & Hq);
      [rewrite Pos2Z.inj_add; lia|unfold ez; lia|exact HM|].
    destruct (dbl_pos (a + b)) as (q' & Hdbl & Hq'); [rewrite Pos2Z.inj_add; lia|].
    rewrite Hdbl.
    apply spec_float_finite_eq; [congruence|reflexivity].
Qed.

Lemma SFabs_dbl (n : Z) : 0 <= n < 2 ^ 53 -> SFabs (dbl n) = dbl n.
Proof.
  intros Hn. destruct n as [|n|n]; [reflexivity| |lia].
  destruct (dbl_pos n) as (q & -> & _); [lia|]. reflexivity.
Qed.

(** Adding two count histograms of a double-precision class adds the
    counts. *)
Lemma TH1_sum_counts (class : string) (axes : list (list Double_t)) :
  String.eqb class "TH1F" = false ->
  forall (c1 c2 : list Z) (n1 n2 : Z),
  Forall (fun c => 0 <= c) c1 -> Forall (fun c => 0 <= c) c2 ->
  Forall (fun c => c < 2 ^ 53) (add_counts c1 c2) ->
  0 <= n1 -> 0 <= n2 -> n1 + n2 < 2 ^ 53 ->
  TH1_sum (count_histogram class axes c1 n1) (count_histogram class axes c2 n2)
  = count_histogram class axes (add_counts c1 c2) (n1 + n2).
Proof.
  intros Hcls c1 c2 n1 n2 H1 H2 Hsum Hn1 Hn2 Hn.
  unfold TH1_sum, count_histogram. cbn [h_class h_axes h_cells h_entries]. f_equal.
  - unfold cell_add. rewrite Hcls. revert c2 H2 Hsum.
    induction H1 as [|a c1 Ha H1 IH]; intros c2 H2 Hsum; [reflexivity|].
    destruct H2 as [|b c2 Hb H2]; [reflexivity|].
    unfold add_counts in Hsum. cbn [zip_with] in Hsum.
    apply Forall_cons in Hsum as [Hab Hsum].
    unfold add_counts. cbn [zip_with]. rewrite !fmap_cons. cbn [zip_with].
    rewrite dadd_dbl by assumption. f_equal. apply IH; assumption.
  - rewrite dadd_dbl by assumption. apply SFabs_dbl. lia.
Qed.

Lemma add_counts_length (c1 c2 : list Z) :
  length c2 = length c1 -> length (add_counts c1 c2) = length c1.
Proof. intros H. unfold add_counts. rewrite length_zip_with. lia. Qed.

Lemma add_counts_nonneg (c1 c2 : list Z) :
  Forall (fun c => 0 <= c) c1 -> Forall (fun c => 0 <= c) c2 ->
  Forall (fun c => 0 <= c) (add_counts c1 c2).
Proof.
  intros H1. revert c2. induction H1 as [|a c1 Ha H1 IH]; intros c2 H2; [constructor|].
  destruct H2 as [|b c2 Hb H2]; [constructor|].
  unfold add_counts. cbn [zip_with]. constructor; [lia|apply IH, H2].
Qed.

Lemma add_counts_le (c1 c2 : list Z) :
  length c2 = length c1 -> Forall (fun c => 0 <= c) c2 ->
  Forall2 Z.le c1 (add_counts c1 c2).
Proof.
  revert c2. induction c1 as [|a c1 IH]; intros c2 Hlen H2.
  - destruct c2; constructor.
  - destruct H2 as [|b c2 Hb H2]; [discriminate|].
    unfold add_counts. cbn [zip_with]. constructor; [lia|].
    apply IH; [cbn in Hlen; lia|exact H2].
Qed.

Lemma Forall2_le_trans (l1 l2 l3 : list Z) :
  Forall2 Z.le l1 l2 -> Forall2 Z.le l2 l3 -> Forall2 Z.le l1 l3.
Proof.
  intros H. revert l3. induction H as [|a b l1 l2 Hab _ IH]; intros l3 H3;
    inversion H3; subst; constructor; [lia|auto].
Qed.

(** Totals only grow. *)
Lemma total_counts_le (cs : list (list Z)) :
  forall c0,
  Forall (fun c => length c = length c0 /\ Forall (fun x => 0 <= x) c) cs ->
  Forall2 Z.le c0 (total_counts c0 cs).
Proof.
  unfold total_counts.
  induction cs as [|c cs IH]; intros c0 Hcs; cbn [foldl].
  - apply Forall2_same_length_lookup_2; [reflexivity|].
    intros i x y Hx Hy. rewrite Hx in Hy. injection Hy as <-. lia.
  - apply Forall_cons in Hcs as [[Hlen Hc] Hcs].
    eapply Forall2_le_trans; [apply add_counts_le; eassumption|apply IH].
    eapply Forall_impl; [exact Hcs|]. intros c' [Hl Hn]. split; [|exact Hn].
      rewrite add_counts_length by exact Hlen. exact Hl.
Qed.

Lemma Forall2_le_below (bound : Z) (l l' : list Z) :
  Forall2 Z.le l l' -> Forall (fun c => c < bound) l' -> Forall (fun c => c < bound) l.
Proof.
  induction 1 as [|a b l l' Hab _ IH]; intros Hb; [constructor|].
  apply Forall_cons in Hb as [Hb Hl']. constructor; [lia|apply IH, Hl'].
Qed.

Lemma total_entries_le (ns : list Z) :
  forall n0, Forall (fun n => 0 <= n) ns -> n0 <= total_entries n0 ns.
Proof.
  unfold total_entries. induction ns as [|n ns IH]; intros n0 Hns; cbn [foldl]; [lia|].
  apply Forall_cons in Hns as [Hn Hns]. specialize (IH (n0 + n) Hns). lia.
Qed.

(** The sum of count histograms is the count histogram of the totals. *)
Lemma foldl_TH1_sum_counts (class : string) (axes : list (list Double_t))
    (hs : list (list Z * Z)) :
  String.eqb class "TH1F" = false ->
  forall (c0 : list Z) (n0 : Z),
  Forall (fun c => 0 <= c) c0 -> 0 <= n0 ->
  Forall (fun p => length (fst p) = length c0
                   /\ Forall (fun c => 0 <= c) (fst p) /\ 0 <= snd p) hs ->
  Forall (fun c => c < 2 ^ 53) (total_counts c0 (fst <$> hs)) ->
  total_entries n0 (snd <$> hs) < 2 ^ 53 ->
  foldl TH1_sum (count_histogram class axes c0 n0)
        ((fun p => count_histogram class axes (fst p) (snd p)) <$> hs)
  = count_histogram class axes (total_counts c0 (fst <$> hs))
                    (total_entries n0 (snd <$> hs)).
Proof.
  intros Hcls. induction hs as [|[c n] hs IH]; intros c0 n0 Hc0 Hn0 Hhs Htot Hent.
  - reflexivity.
  - apply Forall_cons in Hhs as [(Hlen & Hc & Hn) Hhs]. cbn [fst snd] in Hlen, Hc, Hn.
    rewrite !fmap_cons in *. cbn [fst snd foldl] in *.
    unfold total_counts, total_entries in *. cbn [foldl] in *.
    assert (Hrest : Forall (fun p => length (fst p) = length (add_counts c0 c)
                             /\ Forall (fun x => 0 <= x) (fst p) /\ 0 <= snd p) hs).
    { eapply Forall_impl; [exact Hhs|]. intros p (Hl & Hp & Hs).
      rewrite add_counts_length by exact Hlen. auto. }
    rewrite TH1_sum_counts; try assumption.
    + apply IH; try assumption; [apply add_counts_nonneg; assumption|lia].
    + eapply Forall2_le_below; [|exact Htot].
      apply (total_counts_le (fst <$> hs) (add_counts c0 c)).
      apply Forall_fmap. eapply Forall_impl; [exact Hrest|].
      intros p (Hl & Hp & _). split; assumption.
    + pose proof (total_entries_le (snd <$> hs) (n0 + n)) as Hle.
      unfold total_entries in Hle.
      assert (Forall (fun n => 0 <= n) (snd <$> hs)).
      { apply Forall_fmap. eapply Forall_impl; [exact Hhs|]. intros p (_ & _ & Hs). exact Hs. }
      specialize (Hle H). lia.
Qed.

Lemma add_counts_swap (z x y : list Z) :
  add_counts (add_counts z x) y = add_counts (add_counts z y) x.
Proof.
  unfold add_counts. revert x y. induction z as [|a z IH]; intros x y; [reflexivity|].
  destruct x as [|b x], y as [|c y]; try reflexivity.
  cbn [zip_with]. rewrite IH. f_equal. lia.
Qed.

Lemma foldl_add_counts_Permutation (l l' : list (list Z)) :
  Permutation l l' -> forall z, foldl add_counts z l = foldl add_counts z l'.
Proof.
  induction 1 as [|x l l' _ IH|x y l|l l' l'' _ IH1 _ IH2]; intros z; cbn [foldl].
  - reflexivity.
  - apply IH.
  - rewrite add_counts_swap. reflexivity.
  - rewrite IH1. apply IH2.
Qed.

Lemma foldl_add_Permutation (l l' : list Z) :
  Permutation l l' -> forall z, foldl Z.add z l = foldl Z.add z l'.
Proof.
  induction 1 as [|x l l' _ IH|x y l|l l' l'' _ IH1 _ IH2]; intros z; cbn [foldl].
  - reflexivity.
  - apply IH.
  - f_equal. lia.
  - rewrite IH1. apply IH2.
Qed.

Lemma add_counts_zero (c : list Z) : add_counts (replicate (length c) 0) c = c.
Proof.
  unfold add_counts. induction c as [|a c IH]; [reflexivity|].
  cbn [length replicate zip_with]. rewrite IH. reflexivity.
Qed.

(** The totals do not depend on which histogram comes first, nor on the
    order of the others. *)
Lemma totals_Permutation (len : nat) (p p' : list Z * Z) (hs hs' : list (list Z * Z)) :
  Permutation (p :: hs) (p' :: hs') ->
  Forall (fun q => length (fst q) = len) (p :: hs) ->
  total_counts (fst p) (fst <$> hs) = total_counts (fst p') (fst <$> hs')
  /\ total_entries (snd p) (snd <$> hs) = total_entries (snd p') (snd <$> hs').
Proof.
  intros Hperm Hlen.
  assert (Hlen' : Forall (fun q => length (fst q) = len) (p' :: hs'))
    by (eapply Permutation_Forall; eassumption).
  apply Forall_cons in Hlen as [Hp _]. apply Forall_cons in Hlen' as [Hp' _].
  unfold total_counts, total_entries. split.
  - rewrite <- (add_counts_zero (fst p)), <- (add_counts_zero (fst p')), Hp, Hp'.
    change (foldl add_counts (replicate len 0) (fst <$> p :: hs)
            = foldl add_counts (replicate len 0) (fst <$> p' :: hs')).
    apply foldl_add_counts_Permutation, fmap_Permutation, Hperm.
  - change (foldl Z.add 0 (snd <$> p :: hs) = foldl Z.add 0 (snd <$> p' :: hs')).
    apply foldl_add_Permutation, fmap_Permutation, Hperm.
Qed.


(** X18.  Count histograms merge exactly.  In a merge of well-formed run
    outputs, when a histogram of source 0 of a double-precision class
    ([TH1D], [TH2D]) and the histograms of that name in the other sources
    hold counts (non-negative integers in the cells and in the entry
    count, as after [Fill] calls without weights) whose totals stay
    below [2^53], the merged histogram holds exactly the totals: no
    rounding takes place. *)
Theorem count_histograms_merge_exactly (w : World) (start end_ : Z) (keys0 : list TKey)
    (k0 : TKey) (class : string) (axes : list (list Double_t))
    (c0 : list Z) (n0 : Z) (hs : list (list Z * Z)) :
  start <= end_ < INT_MAX ->
  source w start = Some keys0 ->
  run_output_ok keys0 = true ->
  sources_share_binning keys0 (other_sources w start end_) = true ->
  k0 ∈ keys0 ->
  selected k0 = Some (count_histogram class axes c0 n0) ->
  String.eqb class "TH1F" = false ->
  contributions (other_sources w start end_) (key_name k0)
  = (fun p => count_histogram class axes (fst p) (snd p)) <$> hs ->
  Forall (fun c => 0 <= c) c0 -> 0 <= n0 ->
  Forall (fun p => length (fst p) = length c0
                   /\ Forall (fun c => 0 <= c) (fst p) /\ 0 <= snd p) hs ->
  Forall (fun c => c < 2 ^ 53) (total_counts c0 (fst <$> hs)) ->
  total_entries n0 (snd <$> hs) < 2 ^ 53 ->
  snd (mergemacro_from start end_ w) = Done tt
  /\ exists out,
       merged_hists (fst (mergemacro_from start end_ w)) = Some out
       /\ hist_of out (key_name k0)
          = Some (count_histogram class axes (total_counts c0 (fst <$> hs))
                    (total_entries n0 (snd <$> hs))).
Proof.
  intros Hrange Hfirst Hok Hshare Hin Hsel Hcls Hcontr Hc0 Hn0 Hhs Htot Hent.
  split; [apply (merge_completes w start end_ keys0); assumption|].
  exists (merged_keys keys0 (other_sources w start end_)).
  split; [apply merged_file; assumption|].
  pose proof Hok as Hok'. unpack_ok Hok' Hnd Htyped.
  rewrite (hist_of_merged_keys _ _ k0 _ Hnd Hin Hsel). f_equal.
  unfold merged_hist. rewrite Hcontr.
  apply foldl_TH1_sum_counts; assumption.
Qed.

Lemma count_histograms_merge_exactly_witness :
  snd (mergemacro_from 0 2 world_missing_histogram) = Done tt
  /\ exists out,
       merged_hists (fst (mergemacro_from 0 2 world_missing_histogram)) = Some out
       /\ hist_of out (key_name (hnevent_key 5))
          = Some (count_histogram "TH1D" [[dbl 0; dbl 1]]
                    (total_counts [0; 5; 0] (fst <$> [([0; 7; 0], 7)]))
                    (total_entries 5 (snd <$> [([0; 7; 0], 7)]))).
Proof.
  apply (count_histograms_merge_exactly world_missing_histogram 0 2
           (run_output 5 [example_row]) (hnevent_key 5) "TH1D" [[dbl 0; dbl 1]]
           [0; 5; 0] 5 [([0; 7; 0], 7)]).
  - unfold INT_MAX. lia.
  - vm_compute. reflexivity.
  - vm_compute. reflexivity.
  - vm_compute. reflexivity.
  - left.
  - reflexivity.
  - reflexivity.
  - vm_compute. reflexivity.
  - repeat constructor; lia.
  - lia.
  - repeat constructor; cbn; lia.
  - repeat constructor; cbn; lia.
  - cbn. lia.
Defined.

(** X19.  Count histograms merge in any order: for histograms of a
    double-precision class ([TH1D], [TH2D]) with the same axes, whose
    cells and entry counts are counts that stay below [2^53] in total,
    the sum that the merge forms is the same whichever of them comes
    first and in whatever order the others are added. *)
Theorem count_histograms_merge_in_any_order (class : string)
    (axes : list (list Double_t)) (p p' : list Z * Z) (hs hs' : list (list Z * Z)) :
  String.eqb class "TH1F" = false ->
  Permutation (p :: hs) (p' :: hs') ->
  Forall (fun q => length (fst q) = length (fst p)
                   /\ Forall (fun c => 0 <= c) (fst q) /\ 0 <= snd q) (p :: hs) ->
  Forall (fun c => c < 2 ^ 53) (total_counts (fst p) (fst <$> hs)) ->
  total_entries (snd p) (snd <$> hs) < 2 ^ 53 ->
  foldl TH1_sum (count_histogram class axes (fst p) (snd p))
        ((fun q => count_histogram class axes (fst q) (snd q)) <$> hs)
  = foldl TH1_sum (count_histogram class axes (fst p') (snd p'))
          ((fun q => count_histogram class axes (fst q) (snd q)) <$> hs').
Proof.
  intros Hcls Hperm Hall Htot Hent.
  assert (Hall' : Forall (fun q => length (fst q) = length (fst p)
                            /\ Forall (fun c => 0 <= c) (fst q) /\ 0 <= snd q) (p' :: hs'))
    by (eapply Permutation_Forall; eassumption).
  destruct (totals_Permutation (length (fst p)) p p' hs hs' Hperm) as [Hc Hn].
  { eapply Forall_impl; [exact Hall|]. intros q (Hl & _). exact Hl. }
  apply Forall_cons in Hall as [(_ & Hp & Hpn) Hhs].
  apply Forall_cons in Hall' as [(Hlp' & Hp' & Hpn') Hhs'].
  rewrite !foldl_TH1_sum_counts; try assumption.
  - rewrite Hc, Hn. reflexivity.
  - eapply Forall_impl; [exact Hhs'|]. intros q (Hl & Hq). rewrite Hlp'. auto.
  - rewrite <- Hc. exact Htot.
  - rewrite <- Hn. exact Hent.
Qed.

Lemma count_histograms_merge_in_any_order_witness :
  foldl TH1_sum (count_histogram "TH1D" [[dbl 0; dbl 1]] (fst ([0; 5; 0], 5)) (snd ([0; 5; 0], 5)))
        ((fun q => count_histogram "TH1D" [[dbl 0; dbl 1]] (fst q) (snd q))
           <$> [([0; 7; 0], 7); ([0; 2; 0], 2)])
  = foldl TH1_sum (count_histogram "TH1D" [[dbl 0; dbl 1]] (fst ([0; 2; 0], 2)) (snd ([0; 2; 0], 2)))
          ((fun q => count_histogram "TH1D" [[dbl 0; dbl 1]] (fst q) (snd q))
             <$> [([0; 5; 0], 5); ([0; 7; 0], 7)]).
Proof.
  apply (count_histograms_merge_in_any_order "TH1D" [[dbl 0; dbl 1]]
           ([0; 5; 0], 5) ([0; 2; 0], 2)
           [([0; 7; 0], 7); ([0; 2; 0], 2)] [([0; 5; 0], 5); ([0; 7; 0], 7)]).
  - reflexivity.
  - apply (perm_trans (l' := [([0; 5; 0], 5); ([0; 2; 0], 2); ([0; 7; 0], 7)])).
    + apply perm_skip, perm_swap.
    + apply perm_swap.
  - repeat constructor; cbn; lia.
  - repeat constructor; cbn; lia.
  - cbn. lia.
Defined.

(** X20.  Count histograms and the order of the sources.  Two merges over
    the same index range, of well-formed run outputs that hold under one
    name count histograms of a double-precision class with the same
    axes, give the same merged histogram of that name when the sources of
    the one are those of the other in another order, the first source
    included, as long as the totals stay below [2^53]. *)
Theorem merged_counts_do_not_depend_on_the_order (w w' : World) (start end_ : Z)
    (keys0 keys0' : list TKey) (k0 k0' : TKey) (class : string)
    (axes : list (list Double_t)) (p p' : list Z * Z) (hs hs' : list (list Z * Z)) :
  start <= end_ < INT_MAX ->
  source w start = Some keys0 -> run_output_ok keys0 = true ->
  sources_share_binning keys0 (other_sources w start end_) = true ->
  source w' start = Some keys0' -> run_output_ok keys0' = true ->
  sources_share_binning keys0' (other_sources w' start end_) = true ->
  k0 ∈ keys0 -> k0' ∈ keys0' -> key_name k0' = key_name k0 ->
  selected k0 = Some (count_histogram class axes (fst p) (snd p)) ->
  selected k0' = Some (count_histogram class axes (fst p') (snd p')) ->
  contributions (other_sources w start end_) (key_name k0)
  = (fun q => count_histogram class axes (fst q) (snd q)) <$> hs ->
  contributions (other_sources w' start end_) (key_name k0)
  = (fun q => count_histogram class axes (fst q) (snd q)) <$> hs' ->
  String.eqb class "TH1F" = false ->
  Permutation (p :: hs) (p' :: hs') ->
  Forall (fun q => length (fst q) = length (fst p)
                   /\ Forall (fun c => 0 <= c) (fst q) /\ 0 <= snd q) (p :: hs) ->
  Forall (fun c => c < 2 ^ 53) (total_counts (fst p) (fst <$> hs)) ->
  total_entries (snd p) (snd <$> hs) < 2 ^ 53 ->
  exists out out' merged,
    merged_hists (fst (mergemacro_from start end_ w)) = Some out
    /\ merged_hists (fst (mergemacro_from start end_ w')) = Some out'
    /\ hist_of out (key_name k0) = Some merged
    /\ hist_of out' (key_name k0) = Some merged
    /\ merged = count_histogram class axes (total_counts (fst p) (fst <$> hs))
                  (total_entries (snd p) (snd <$> hs)).
Proof.
  intros Hrange Hfirst Hok Hshare Hfirst' Hok' Hshare' Hin Hin' Hname Hsel Hsel'
         Hcontr Hcontr' Hcls Hperm Hall Htot Hent.
  assert (Hall' : Forall (fun q => length (fst q) = length (fst p)
                            /\ Forall (fun c => 0 <= c) (fst q) /\ 0 <= snd q) (p' :: hs'))
    by (eapply Permutation_Forall; eassumption).
  destruct (totals_Permutation (length (fst p)) p p' hs hs' Hperm) as [Hc Hn].
  { eapply Forall_impl; [exact Hall|]. intros q (Hl & _). exact Hl. }
  apply Forall_cons in Hall as [(_ & Hp & Hpn) Hhs].
  apply Forall_cons in Hall' as [(Hlp' & Hp' & Hpn') Hhs'].
  exists (merged_keys keys0 (other_sources w start end_)),
         (merged_keys keys0' (other_sources w' start end_)).
  eexists. split; [apply merged_file; assumption|].
  split; [apply merged_file; assumption|].
  pose proof Hok as Hok1. unpack_ok Hok1 Hnd Htyped.
  pose proof Hok' as Hok2. unpack_ok Hok2 Hnd' Htyped'.
  rewrite (hist_of_merged_keys _ _ k0 _ Hnd Hin Hsel).
  rewrite <- Hname.
  rewrite (hist_of_merged_keys _ _ k0' _ Hnd' Hin' Hsel'). rewrite Hname.
  unfold merged_hist. rewrite Hcontr, Hcontr'.
  rewrite !foldl_TH1_sum_counts; try assumption.
  - rewrite Hc, Hn. auto.
  - eapply Forall_impl; [exact Hhs'|]. intros q (Hl & Hq). rewrite Hlp'. auto.
  - rewrite <- Hc. exact Htot.
  - rewrite <- Hn. exact Hent.
Qed.

Lemma merged_counts_do_not_depend_on_the_order_witness :
  exists out out' merged,
    merged_hists (fst (mergemacro_from 0 2 world_counts_ABC)) = Some out
    /\ merged_hists (fst (mergemacro_from 0 2 world_counts_CAB)) = Some out'
    /\ hist_of out "hnevent" = Some merged
    /\ hist_of out' "hnevent" = Some merged
    /\ h_cells merged = [dbl 0; dbl 14; dbl 0]
    /\ h_entries merged = dbl 14.
Proof.
  destruct (merged_counts_do_not_depend_on_the_order world_counts_ABC world_counts_CAB
              0 2 (histogram_only 5) (histogram_only 2) (hnevent_key 5) (hnevent_key 2)
              "TH1D" [[dbl 0; dbl 1]] ([0; 5; 0], 5) ([0; 2; 0], 2)
              [([0; 7; 0], 7); ([0; 2; 0], 2)] [([0; 5; 0], 5); ([0; 7; 0], 7)]
              ltac:(unfold INT_MAX; lia)
              ltac:(vm_compute; reflexivity) ltac:(vm_compute; reflexivity)
              ltac:(vm_compute; reflexivity) ltac:(vm_compute; reflexivity)
              ltac:(vm_compute; reflexivity) ltac:(vm_compute; reflexivity)
              ltac:(left) ltac:(left) ltac:(reflexivity)
              ltac:(reflexivity) ltac:(reflexivity)
              ltac:(vm_compute; reflexivity) ltac:(vm_compute; reflexivity)
              ltac:(reflexivity)
              ltac:(apply (perm_trans
                             (l' := [([0; 5; 0], 5); ([0; 2; 0], 2); ([0; 7; 0], 7)]));
                    [apply perm_skip, perm_swap|apply perm_swap])
              ltac:(repeat constructor; cbn; lia)
              ltac:(repeat constructor; cbn; lia)
              ltac:(cbn; lia))
    as (out & out' & merged & Hout & Hout' & Hh & Hh' & Hmerged).
  exists out, out', merged. repeat split; try assumption.
  - rewrite Hmerged. vm_compute. reflexivity.
  - rewrite Hmerged. vm_compute. reflexivity.
Defined.
